(** * sistemaagro: the invoice extraction service, embedded in Rocq

    The repository is a small Express service.  An uploaded PDF is either
    turned into text with PDF.js ([extractTextFromPDF]) and sent to Gemini
    inside a prompt ([processWithGemini]), or sent to Gemini as it is
    ([processPDFWithGemini]).  The reply of the backend is cleaned with
    [String.prototype.replace], [trim] and [match], handed to [JSON.parse],
    and the value obtained is returned to the caller.

    JavaScript strings are sequences of UTF-16 code units and are modelled
    as such ([JSString]); the built-ins the service calls are embedded as
    executable functions over them. *)

From Stdlib Require Import Ascii String DecimalString.
From Stdlib Require DecimalNat DecimalFacts.
From Stdlib Require Import List NArith ZArith QArith Lia Bool.
Import ListNotations.

Open Scope N_scope.
Open Scope list_scope.

(** ** JavaScript strings *)

(** A string value: its UTF-16 code units, in order. *)
Definition JSString := list N.

Fixpoint str_eqb (a b : JSString) : bool :=
  match a, b with
  | [], [] => true
  | x :: a', y :: b' => (x =? y) && str_eqb a' b'
  | _, _ => false
  end.

(** [s.startsWith(p)] *)
Fixpoint startsWith (p s : JSString) : bool :=
  match p, s with
  | [], _ => true
  | x :: p', y :: s' => (x =? y) && startsWith p' s'
  | _ :: _, [] => false
  end.

(** The bytes of a source literal (source files are UTF-8). *)
Fixpoint bytes_of (s : string) : list N :=
  match s with
  | EmptyString => []
  | String c r => N_of_ascii c :: bytes_of r
  end.

(** UTF-8 to UTF-16: what the JavaScript engine does when it reads a string
    literal of a source file. *)
Fixpoint utf16_of_utf8 (bs : list N) : JSString :=
  match bs with
  | [] => []
  | b0 :: r0 =>
      if b0 <? 128 then b0 :: utf16_of_utf8 r0
      else
        match r0 with
        | [] => [b0]
        | b1 :: r1 =>
            if b0 <? 224 then
              ((b0 mod 32) * 64 + b1 mod 64) :: utf16_of_utf8 r1
            else
              match r1 with
              | [] => [b0; b1]
              | b2 :: r2 =>
                  if b0 <? 240 then
                    ((b0 mod 16) * 4096 + (b1 mod 64) * 64 + b2 mod 64)
                      :: utf16_of_utf8 r2
                  else
                    match r2 with
                    | [] => [b0; b1; b2]
                    | b3 :: r3 =>
                        let cp := (b0 mod 8) * 262144 + (b1 mod 64) * 4096
                                  + (b2 mod 64) * 64 + b3 mod 64 in
                        let u := cp - 65536 in
                        (55296 + u / 1024) :: (56320 + u mod 1024)
                          :: utf16_of_utf8 r3
                    end
              end
        end
  end.

(** A string literal of the source. *)
Definition lit (s : string) : JSString := utf16_of_utf8 (bytes_of s).

(** The double quote, and a string between double quotes. *)
Definition dq : JSString := [34].
Definition quoted (s : JSString) : JSString := dq ++ s ++ dq.

(** [a.join(sep)] *)
Fixpoint join (sep : JSString) (l : list JSString) : JSString :=
  match l with
  | [] => []
  | [x] => x
  | x :: r => x ++ sep ++ join sep r
  end.

(** [String(n)] for a non-negative integer. *)
Definition String_of_nat (n : nat) : JSString :=
  lit (NilZero.string_of_uint (Nat.to_uint n)).

(** *** [String.prototype.trim]

    WhiteSpace and LineTerminator of ECMA-262: TAB, LF, VT, FF, CR, SP, NBSP,
    the Unicode space separators, LS, PS and the byte order mark. *)
Definition isWhiteSpace (c : N) : bool :=
  ((9 <=? c) && (c <=? 13)) || (c =? 32) || (c =? 160) || (c =? 5760)
  || ((8192 <=? c) && (c <=? 8202)) || (c =? 8232) || (c =? 8233)
  || (c =? 8239) || (c =? 8287) || (c =? 12288) || (c =? 65279).

Fixpoint trimStart (s : JSString) : JSString :=
  match s with
  | [] => []
  | c :: r => if isWhiteSpace c then trimStart r else s
  end.

Definition trimEnd (s : JSString) : JSString := rev (trimStart (rev s)).

Definition trim (s : JSString) : JSString := trimEnd (trimStart s).

(** *** [text.replace(/```json|```/g, '')]

    The global replace scans from the left.  At each position the first
    alternative is tried first; a match is deleted and the scan goes on
    behind it; where neither alternative matches, the code unit is kept. *)
Definition backtick : N := 96.
Definition fence : JSString := [96; 96; 96].
Definition fence_json : JSString := [96; 96; 96; 106; 115; 111; 110].

Definition is_fence (a b c : N) : bool :=
  (a =? backtick) && (b =? backtick) && (c =? backtick).

Definition is_json (a b c d : N) : bool :=
  (a =? 106) && (b =? 115) && (c =? 111) && (d =? 110).

Fixpoint replace_fences (s : JSString) : JSString :=
  match s with
  | [] => []
  | c0 :: r0 =>
      match r0 with
      | c1 :: c2 :: r2 =>
          if is_fence c0 c1 c2 then
            match r2 with
            | c3 :: c4 :: c5 :: c6 :: r6 =>
                if is_json c3 c4 c5 c6 then replace_fences r6
                else replace_fences r2
            | _ => replace_fences r2
            end
          else c0 :: replace_fences r0
      | _ => c0 :: replace_fences r0
      end
  end.

(** *** [text.match(/\{[\s\S]*\}/)]

    [[\s\S]] matches every code unit and the star is greedy: the match starts
    at the first opening brace that has a closing brace behind it and ends at
    the last closing brace of the text. *)
Definition lbrace : N := 123.
Definition rbrace : N := 125.

(** The text up to and including its last closing brace. *)
Fixpoint upto_last_rbrace (s : JSString) : option JSString :=
  match s with
  | [] => None
  | c :: r =>
      match upto_last_rbrace r with
      | Some t => Some (c :: t)
      | None => if c =? rbrace then Some [c] else None
      end
  end.

Fixpoint match_braces (s : JSString) : option JSString :=
  match s with
  | [] => None
  | c :: r =>
      if c =? lbrace then
        match upto_last_rbrace r with
        | Some t => Some (c :: t)
        | None => None
        end
      else match_braces r
  end.

(** ** JSON values and [JSON.parse] *)

(** *** Numbers

    A Number that [JSON.parse] can build: a finite double other than
    negative zero, given by the rational it is exactly; negative zero; or an
    infinity, which a literal beyond the range of the doubles rounds to. *)
Inductive Number : Type :=
| Finite (q : Q)
| NegativeZero
| Infinity (negative : bool).

Coercion Finite : Q >-> Number.

(** [n / d] rounded to the nearest integer, a tie to the even one. *)
Definition round_half_even (n d : Z) : Z :=
  let q := (n / d)%Z in
  match (2 * (n mod d) ?= d)%Z with
  | Lt => q
  | Gt => (q + 1)%Z
  | Eq => if Z.even q then q else (q + 1)%Z
  end.

(** The exponent [e] with [2 ^ e <= n / d < 2 ^ (e + 1)], for positive [n]
    and [d]. *)
Definition floor_log2 (n d : Z) : Z :=
  let e := (Z.log2 n - Z.log2 d)%Z in
  let below :=
    if (0 <=? e)%Z then (n <? d * 2 ^ e)%Z else (n * 2 ^ (- e) <? d)%Z in
  if below then (e - 1)%Z else e.

(** The double nearest to [n / d], for positive [n] and [d]: 53 bits of
    precision, the least exponent of a unit in the last place -1074 (the
    subnormal numbers), the greatest 971; a tie goes to the even neighbour.
    [None] when the nearest double would lie beyond the greatest one. *)
Definition nearest_double (n d : Z) : option Q :=
  let e := floor_log2 n d in
  let k := Z.max (e - 52) (-1074) in
  let m :=
    if (0 <=? k)%Z then round_half_even n (d * 2 ^ k)
    else round_half_even (n * 2 ^ (- k)) d in
  if (971 <? k)%Z || ((k =? 971)%Z && (m =? 2 ^ 53)%Z) then None
  else if (0 <=? k)%Z then Some (inject_Z (m * 2 ^ k))
  else Some (Qred (Qmake m (Z.to_pos (2 ^ (- k))))).

(** *** Values

    The values [JSON.parse] builds.  An object lists its own properties in
    the order [Object.keys] gives them; a key occurs once. *)
Unset Elimination Schemes.
Inductive json : Type :=
| JNull
| JBool (b : bool)
| JNumber (x : Number)
| JString (s : JSString)
| JArray (l : list json)
| JObject (l : list (JSString * json)).
Set Elimination Schemes.

(** *** Objects

    The own property keys of an ordinary object come in this order: first
    the keys that are array indices, ascending; then the other strings, in
    the order they were created.  An array index is the canonical numeral
    of an integer from 0 to 2^32 - 2. *)
Definition array_index (k : JSString) : option N :=
  match k with
  | [] => None
  | c :: r =>
      if forallb (fun x => (48 <=? x) && (x <=? 57)) k
         && (negb (c =? 48) || match r with [] => true | _ :: _ => false end)
         && (List.length k <=? 10)%nat
      then
        let n := fold_left (fun a x => 10 * a + (x - 48)) k 0 in
        if n <=? 4294967294 then Some n else None
      else None
  end.

(** Whether [l] has the key [k]. *)
Definition has_key (k : JSString) (l : list (JSString * json)) : bool :=
  existsb (fun kv => str_eqb k (fst kv)) l.

(** The value of the key [k], which [l] has, becomes [v]; the key keeps its
    place. *)
Fixpoint replace_value (k : JSString) (v : json) (l : list (JSString * json))
  : list (JSString * json) :=
  match l with
  | [] => []
  | (k', v') :: r =>
      if str_eqb k k' then (k', v) :: r else (k', v') :: replace_value k v r
  end.

(** A new key that is the array index [n] goes behind the smaller indices
    and before everything else. *)
Fixpoint insert_index (n : N) (k : JSString) (v : json)
  (l : list (JSString * json)) : list (JSString * json) :=
  match l with
  | [] => [(k, v)]
  | (k', v') :: r =>
      match array_index k' with
      | Some n' =>
          if n <? n' then (k, v) :: l else (k', v') :: insert_index n k v r
      | None => (k, v) :: l
      end
  end.

(** [CreateDataProperty(obj, k, v)] on the object [JSON.parse] is building:
    a repeated key keeps its place and takes the new value; a new key goes
    to its place in the order of the keys. *)
Definition obj_set (k : JSString) (v : json) (l : list (JSString * json))
  : list (JSString * json) :=
  if has_key k l then replace_value k v l
  else
    match array_index k with
    | Some n => insert_index n k v l
    | None => l ++ [(k, v)]
    end.

(** Own-property lookup in a parsed object. *)
Fixpoint own_props (k : JSString) (l : list (JSString * json)) : option json :=
  match l with
  | [] => None
  | (k', v) :: r => if str_eqb k k' then Some v else own_props k r
  end.

(** [data[k]] for an own property [k]; [None] is [undefined]. *)
Definition get (k : JSString) (v : json) : option json :=
  match v with
  | JObject l => own_props k l
  | _ => None
  end.

(** JSON white space: TAB, LF, CR, SP. *)
Definition isJSONWhiteSpace (c : N) : bool :=
  (c =? 9) || (c =? 10) || (c =? 13) || (c =? 32).

Fixpoint skip_ws (s : JSString) : JSString :=
  match s with
  | [] => []
  | c :: r => if isJSONWhiteSpace c then skip_ws r else s
  end.

Definition isDigit (c : N) : bool := (48 <=? c) && (c <=? 57).

Definition hexval (c : N) : option N :=
  if isDigit c then Some (c - 48)
  else if (97 <=? c) && (c <=? 102) then Some (c - 87)
  else if (65 <=? c) && (c <=? 70) then Some (c - 55)
  else None.

Definition hex4 (a b c d : N) : option N :=
  match hexval a, hexval b, hexval c, hexval d with
  | Some x, Some y, Some z, Some w => Some (x * 4096 + y * 256 + z * 16 + w)
  | _, _, _, _ => None
  end.

(** The code unit a single-character escape stands for. *)
Definition escape (c : N) : option N :=
  if c =? 34 then Some 34
  else if c =? 92 then Some 92
  else if c =? 47 then Some 47
  else if c =? 98 then Some 8
  else if c =? 102 then Some 12
  else if c =? 110 then Some 10
  else if c =? 114 then Some 13
  else if c =? 116 then Some 9
  else None.

Definition cons_fst {A B : Type} (a : A) (r : option (list A * B))
  : option (list A * B) :=
  match r with
  | Some (t, rest) => Some (a :: t, rest)
  | None => None
  end.

(** The characters of a JSON string, read behind its opening quote, and the
    text behind its closing quote. *)
Fixpoint string_chars (s : JSString) : option (JSString * JSString) :=
  match s with
  | [] => None
  | c :: r =>
      if c =? 34 then Some ([], r)
      else if c =? 92 then
        match r with
        | [] => None
        | e :: r1 =>
            if e =? 117 then
              match r1 with
              | h1 :: h2 :: h3 :: h4 :: r5 =>
                  match hex4 h1 h2 h3 h4 with
                  | Some u => cons_fst u (string_chars r5)
                  | None => None
                  end
              | _ => None
              end
            else
              match escape e with
              | Some x => cons_fst x (string_chars r1)
              | None => None
              end
        end
      else if c <? 32 then None
      else cons_fst c (string_chars r)
  end.

(** The leading decimal digits of a text, as digit values. *)
Fixpoint span_digits (s : JSString) : list N * JSString :=
  match s with
  | [] => ([], [])
  | c :: r =>
      if isDigit c then let '(ds, rest) := span_digits r in (c - 48 :: ds, rest)
      else ([], s)
  end.

Definition digits_value (ds : list N) : Z :=
  fold_left (fun acc d => (10 * acc + Z.of_N d)%Z) ds 0%Z.

(** The Number value of [digits * 10 ^ e] with its sign: zero keeps the
    sign; otherwise it is the nearest double, an infinity when that is out
    of range, zero when the value is too small.  A value that is certainly
    out of range is told by its exponent. *)
Definition decimal_Number (negative : bool) (ds : list N) (e : Z) : Number :=
  let mant := digits_value ds in
  let zero := if negative then NegativeZero else Finite (inject_Z 0) in
  if (mant =? 0)%Z then zero
  else if (400 <? e)%Z then Infinity negative
  else if (e + Z.of_nat (List.length ds) <? -400)%Z then zero
  else
    match
      (if (0 <=? e)%Z then nearest_double (mant * 10 ^ e) 1
       else nearest_double mant (10 ^ (- e)))
    with
    | None => Infinity negative
    | Some q =>
        if (Qnum q =? 0)%Z then zero
        else Finite (if negative then Qopp q else q)
    end.

(** The optional fraction of a number: its digits. *)
Definition fraction (s : JSString) : option (list N * JSString) :=
  match s with
  | c :: r =>
      if c =? 46 then
        match span_digits r with
        | ([], _) => None
        | (ds, rest) => Some (ds, rest)
        end
      else Some ([], s)
  | [] => Some ([], s)
  end.

(** The optional exponent of a number. *)
Definition exponent (s : JSString) : option (Z * JSString) :=
  match s with
  | c :: r =>
      if (c =? 101) || (c =? 69) then
        let '(neg, r') :=
          match r with
          | sg :: r1 =>
              if sg =? 45 then (true, r1)
              else if sg =? 43 then (false, r1) else (false, r)
          | [] => (false, r)
          end in
        match span_digits r' with
        | ([], _) => None
        | (ds, rest) =>
            Some (if neg then (- digits_value ds)%Z else digits_value ds, rest)
        end
      else Some (0%Z, s)
  | [] => Some (0%Z, s)
  end.

(** A JSON number: an optional minus sign; the integer part, a single zero
    or digits that do not start with zero; an optional fraction, a point and
    digits; an optional exponent. *)
Definition number (s : JSString) : option (Number * JSString) :=
  let '(neg, s1) :=
    match s with
    | c :: r => if c =? 45 then (true, r) else (false, s)
    | [] => (false, s)
    end in
  match span_digits s1 with
  | ([], _) => None
  | (d :: ds, s2) =>
      let int_part := if d =? 0 then ([d], map (N.add 48) ds ++ s2)
                      else (d :: ds, s2) in
      let '(ids, s3) := int_part in
      match fraction s3 with
      | None => None
      | Some (fds, s4) =>
          match exponent s4 with
          | None => None
          | Some (e, s5) =>
              Some (decimal_Number neg (ids ++ fds)
                      (e - Z.of_nat (List.length fds)), s5)
          end
      end
  end.

Definition kw_true : JSString := [116; 114; 117; 101].
Definition kw_false : JSString := [102; 97; 108; 115; 101].
Definition kw_null : JSString := [110; 117; 108; 108].

(** The recursive descent over values, array elements and object members.
    [fuel] bounds the nesting of the calls; [JSON_parse] gives enough of it
    for every text (see [parse_value_fuel]). *)
Fixpoint parse_value (fuel : nat) (s : JSString) : option (json * JSString) :=
  match fuel with
  | O => None
  | S f =>
      match skip_ws s with
      | [] => None
      | c :: r =>
          if c =? lbrace then
            match skip_ws r with
            | [] => None
            | c' :: r' =>
                if c' =? rbrace then Some (JObject [], r')
                else parse_members f [] r
            end
          else if c =? 91 then
            match skip_ws r with
            | [] => None
            | c' :: r' =>
                if c' =? 93 then Some (JArray [], r')
                else parse_elements f [] r
            end
          else if c =? 34 then
            match string_chars r with
            | Some (t, rest) => Some (JString t, rest)
            | None => None
            end
          else if startsWith kw_true (c :: r) then Some (JBool true, skipn 3 r)
          else if startsWith kw_false (c :: r) then Some (JBool false, skipn 4 r)
          else if startsWith kw_null (c :: r) then Some (JNull, skipn 3 r)
          else
            match number (c :: r) with
            | Some (x, rest) => Some (JNumber x, rest)
            | None => None
            end
      end
  end

with parse_elements (fuel : nat) (acc : list json) (s : JSString)
  : option (json * JSString) :=
  match fuel with
  | O => None
  | S f =>
      match parse_value f s with
      | None => None
      | Some (v, r) =>
          match skip_ws r with
          | [] => None
          | c :: r' =>
              if c =? 44 then parse_elements f (acc ++ [v]) r'
              else if c =? 93 then Some (JArray (acc ++ [v]), r')
              else None
          end
      end
  end

with parse_members (fuel : nat) (acc : list (JSString * json)) (s : JSString)
  : option (json * JSString) :=
  match fuel with
  | O => None
  | S f =>
      match skip_ws s with
      | [] => None
      | c :: r =>
          if c =? 34 then
            match string_chars r with
            | None => None
            | Some (k, r1) =>
                match skip_ws r1 with
                | [] => None
                | c1 :: r2 =>
                    if c1 =? 58 then
                      match parse_value f r2 with
                      | None => None
                      | Some (v, r3) =>
                          match skip_ws r3 with
                          | [] => None
                          | c3 :: r4 =>
                              if c3 =? 44 then
                                parse_members f (obj_set k v acc) r4
                              else if c3 =? rbrace then
                                Some (JObject (obj_set k v acc), r4)
                              else None
                          end
                      end
                    else None
                end
            end
          else None
      end
  end.

(** [JSON.parse(text)]: one value, white space around it, nothing else.
    [None] is the [SyntaxError] the engine throws. *)
Definition JSON_parse (s : JSString) : option json :=
  match parse_value (2 * length s + 2) s with
  | Some (v, r) => match skip_ws r with [] => Some v | _ :: _ => None end
  | None => None
  end.

(** ** The service *)

(** What an [await] or a [try] block yields: a value, or a thrown [Error]
    with its message. *)
Inductive Result (A : Type) : Type :=
| Ok (a : A)
| Throw (message : JSString).
Arguments Ok {A} a.
Arguments Throw {A} message.

(** *** The expense categories *)

Definition CATEGORIAS_DESPESAS : list JSString :=
  [ lit "INSUMOS AGRÍCOLAS";
    lit "MANUTENÇÃO E OPERAÇÃO";
    lit "RECURSOS HUMANOS";
    lit "SERVIÇOS OPERACIONAIS";
    lit "INFRAESTRUTURA E UTILIDADES";
    lit "ADMINISTRATIVAS";
    lit "SEGUROS E PROTEÇÃO";
    lit "IMPOSTOS E TAXAS";
    lit "INVESTIMENTOS" ].

(** The own properties of the object literal [examples]. *)
Definition examples : list (JSString * list JSString) :=
  [ (lit "INSUMOS AGRÍCOLAS",
     [lit "Sementes"; lit "Fertilizantes"; lit "Defensivos Agrícolas";
      lit "Corretivos"]);
    (lit "MANUTENÇÃO E OPERAÇÃO",
     [lit "Combustíveis"; lit "Lubrificantes"; lit "Peças";
      lit "Manutenção de Máquinas"]);
    (lit "RECURSOS HUMANOS",
     [lit "Mão de Obra Temporária"; lit "Salários e Encargos"]);
    (lit "SERVIÇOS OPERACIONAIS",
     [lit "Frete"; lit "Transporte"; lit "Colheita Terceirizada"]);
    (lit "INFRAESTRUTURA E UTILIDADES",
     [lit "Energia Elétrica"; lit "Arrendamento"; lit "Construções"]);
    (lit "ADMINISTRATIVAS",
     [lit "Honorários Contábeis"; lit "Despesas Bancárias"]);
    (lit "SEGUROS E PROTEÇÃO",
     [lit "Seguro Agrícola"; lit "Seguro de Ativos"]);
    (lit "IMPOSTOS E TAXAS",
     [lit "ITR"; lit "IPTU"; lit "IPVA"; lit "INCRA-CCIR"]);
    (lit "INVESTIMENTOS",
     [lit "Máquinas"; lit "Implementos"; lit "Veículos"; lit "Imóveis"]) ].

(** [examples] is written as an object literal, so its prototype is
    [Object.prototype], and [examples[category]] finds the properties of the
    prototype too.  These are their names. *)
Definition Object_prototype_names : list JSString :=
  [ lit "constructor"; lit "hasOwnProperty"; lit "isPrototypeOf";
    lit "propertyIsEnumerable"; lit "toLocaleString"; lit "toString";
    lit "valueOf"; lit "__proto__"; lit "__defineGetter__";
    lit "__defineSetter__"; lit "__lookupGetter__"; lit "__lookupSetter__" ].

(** What [getCategoryExamples] can return: an array of strings, or a member
    of [Object.prototype] (a function, or for [__proto__] the prototype
    itself; every one of them is truthy). *)
Inductive Examples : Type :=
| ExampleArray (l : list JSString)
| PrototypeMember (name : JSString).

Fixpoint own_examples (k : JSString) (l : list (JSString * list JSString))
  : option (list JSString) :=
  match l with
  | [] => None
  | (k', v) :: r => if str_eqb k k' then Some v else own_examples k r
  end.

(** [return examples[category] || [];]  An array is truthy, also an empty
    one; [undefined] is what the lookup gives when neither the object nor its
    prototype has the property. *)
Definition getCategoryExamples (category : JSString) : Examples :=
  match own_examples category examples with
  | Some l => ExampleArray l
  | None =>
      if existsb (str_eqb category) Object_prototype_names
      then PrototypeMember category
      else ExampleArray []
  end.

(** An entry of the [/categories] listing. *)
Record CategoryEntry : Type := {
  id : nat;
  name : JSString;
  entry_examples : Examples
}.

(** [a.map((x, index) => f(x, index))], the index counted from [i]. *)
Fixpoint map_index {A B : Type} (f : A -> nat -> B) (i : nat) (l : list A)
  : list B :=
  match l with
  | [] => []
  | x :: r => f x i :: map_index f (S i) r
  end.

(** The [categories] field of the reply of [GET /categories]. *)
Definition categories : list CategoryEntry :=
  map_index
    (fun cat index =>
       {| id := index + 1; name := cat;
          entry_examples := getCategoryExamples cat |})
    0 CATEGORIAS_DESPESAS.

(** *** The prompts

    In the literals below [~] stands for the double quote. *)
Definition lit_q (s : string) : JSString :=
  map (fun c => if c =? 126 then 34 else c) (lit s).

(** [CATEGORIAS_DESPESAS.map((cat, index) => `${index + 1}. ${cat}`).join('\n')] *)
Definition category_lines : JSString :=
  join [10]
    (map_index (fun cat index => String_of_nat (index + 1) ++ lit ". " ++ cat)
       0 CATEGORIAS_DESPESAS).

(** The prompt of [processWithGemini]. *)
Definition prompt_text (extractedText : JSString) : JSString :=
  lit_q "Você é um especialista em análise de notas fiscais brasileiras. Analise o texto abaixo extraído de uma nota fiscal e extraia EXATAMENTE os seguintes dados em formato JSON válido.

TEXTO DA NOTA FISCAL:
"
  ++ extractedText
  ++ lit_q "

INSTRUÇÕES IMPORTANTES:
- Use 'null' se a informação não for encontrada
- Para datas, use formato YYYY-MM-DD
- Para valores monetários, use apenas números (sem R$, pontos ou vírgulas)
- Para CNPJ/CPF, mantenha apenas números
- Para classificação de despesa, analise os produtos/serviços e escolha UMA categoria mais adequada
- Se não conseguir identificar uma data específica, use 'null'
- Para parcelas, se não especificado, considere 1 parcela

CATEGORIAS DE DESPESAS DISPONÍVEIS:
"
  ++ category_lines
  ++ lit_q "

FORMATO DE RESPOSTA (JSON):
{
    ~fornecedor~: {
        ~razao_social~: ~string ou null~,
        ~fantasia~: ~string ou null~, 
        ~cnpj~: ~apenas números ou null~
    },
    ~faturado~: {
        ~nome_completo~: ~string ou null~,
        ~cpf~: ~apenas números ou null~
    },
    ~numero_nota_fiscal~: ~string ou null~,
    ~data_emissao~: ~YYYY-MM-DD ou null~,
    ~descricao_produtos~: ~descrição detalhada dos produtos/serviços ou null~,
    ~quantidade_parcelas~: 1,
    ~data_vencimento~: ~YYYY-MM-DD ou null~, 
    ~valor_total~: ~número ou null~,
    ~classificacao_despesa~: ~uma das categorias acima ou null~
}

RESPOSTA: Retorne APENAS o JSON válido, sem comentários, explicações ou formatação markdown.".

(** The prompt of [processPDFWithGemini]. *)
Definition prompt_pdf : JSString :=
  lit_q "Você é um especialista em análise de notas fiscais brasileiras (NFe). Analise este documento PDF de uma nota fiscal e extraia EXATAMENTE os seguintes dados em formato JSON válido.

INSTRUÇÕES CRÍTICAS:
- Use 'null' se a informação não for encontrada
- Para datas, use formato YYYY-MM-DD
- Para valores monetários, use apenas números (sem R$ e vírgulas, use somente ponto para separador para casas decimais, exemplo: 3012,00 vira 3012.00)
- Para CNPJ/CPF, mantenha apenas números
- Para classificação de despesa, analise os produtos/serviços e escolha UMA categoria mais adequada

ATENÇÃO ESPECIAL - NÃO CONFUNDA ESTES CAMPOS:
- NÚMERO DA NOTA FISCAL: Aparece como ~NF-e N°:~ ou ~N°:~ seguido de números (exemplo: ~000.207.590~)
- CNPJ DO FORNECEDOR: Formato XX.XXX.XXX/XXXX-XX (exemplo: ~18.944.113/0002-91~) - geralmente na seção do emitente/fornecedor
- CNPJ/CPF DO DESTINATÁRIO: Na seção ~DESTINATÁRIO/REMETENTE~

ESTRUTURA TÍPICA DE UMA NFe:
1. CABEÇALHO: Contém o número da NFe (N°:)
2. EMITENTE/FORNECEDOR: Razão social, CNPJ do fornecedor
3. DESTINATÁRIO: Nome e CNPJ/CPF de quem recebe
4. PRODUTOS/SERVIÇOS: Descrição e valores
5. TOTAIS: Valor total da nota

CATEGORIAS DE DESPESAS DISPONÍVEIS:
"
  ++ category_lines
  ++ lit_q "

FORMATO DE RESPOSTA (JSON):
{
    ~fornecedor~: {
        ~razao_social~: ~string ou null (nome da empresa emitente)~,
        ~fantasia~: ~string ou null (nome fantasia se houver)~, 
        ~cnpj~: ~apenas números ou null (CNPJ da empresa EMITENTE/FORNECEDORA)~
    },
    ~faturado~: {
        ~nome_completo~: ~string ou null (nome do DESTINATÁRIO)~,
        ~cpf~: ~apenas números ou null (CPF/CNPJ do DESTINATÁRIO)~
    },
    ~numero_nota_fiscal~: ~string ou null (número que aparece após 'N°:' ou 'NF-e N°:')~,
    ~data_emissao~: ~YYYY-MM-DD ou null~,
    ~descricao_produtos~: ~descrição detalhada dos produtos/serviços ou null~,
    ~quantidade_parcelas~: 1,
    ~data_vencimento~: ~YYYY-MM-DD ou null~, 
    ~valor_total~: ~número ou null (valor em centavos, ex: 344900 para R$ 3.449,00)~,
    ~classificacao_despesa~: ~uma das categorias acima ou null~
}

EXEMPLOS PARA EVITAR CONFUSÃO:
- Se vir ~N°: 000.207.590~, então numero_nota_fiscal = ~000207590~
- Se vir CNPJ ~18.944.113/0002-91~ na seção do emitente, então fornecedor.cnpj = ~18944113000291~
- Se vir CPF ~709.046.011-88~ na seção destinatário, então faturado.cpf = ~70904601188~

RESPOSTA: Retorne APENAS o JSON válido, sem comentários, explicações ou formatação markdown.".

(** *** The collaborators

    PDF.js and the Gemini client are libraries; the service sees them through
    the calls below, which are parameters of the model. *)

(** A loaded PDF document: for each page, what
    [(await pdf.getPage(n)).getTextContent()] yields, the [str] of each item,
    or the error the page throws.  [numPages] is the number of pages. *)
Definition PDFDocument := list (Result (list JSString)).

(** What the service hands to [model.generateContent]. *)
Inductive Part : Type :=
| TextPart (text : JSString)
| InlineData (data : JSString) (mimeType : JSString).

Record Request : Type := {
  model : JSString;
  contents : list Part
}.

(** The uploaded file multer leaves in [req.file]. *)
Record File : Type := {
  originalname : JSString;
  size : N;
  buffer : list N
}.

(** [res.status(s).json(body)] *)
Record Response : Type := {
  status : nat;
  body : json
}.

(** [buffer.toString('base64')] *)
Definition base64_digit (i : N) : N :=
  if i <? 26 then 65 + i
  else if i <? 52 then 97 + (i - 26)
  else if i <? 62 then 48 + (i - 52)
  else if i =? 62 then 43 else 47.

Fixpoint base64 (bs : list N) : JSString :=
  match bs with
  | [] => []
  | a :: r0 =>
      match r0 with
      | [] => [base64_digit (a / 4); base64_digit ((a mod 4) * 16); 61; 61]
      | b :: r1 =>
          match r1 with
          | [] =>
              [base64_digit (a / 4); base64_digit ((a mod 4) * 16 + b / 16);
               base64_digit ((b mod 16) * 4); 61]
          | c :: r2 =>
              base64_digit (a / 4)
                :: base64_digit ((a mod 4) * 16 + b / 16)
                :: base64_digit ((b mod 16) * 4 + c / 64)
                :: base64_digit (c mod 64)
                :: base64 r2
          end
      end
  end.

Definition MODELO_GEMINI : JSString := lit "gemini-2.5-pro".

(** The message of the error thrown when too little text was extracted. *)
Definition texto_muito_curto : JSString :=
  lit "Texto extraído do PDF é muito curto ou vazio. Verifique se o PDF não está corrompido.".

Section Service.

(** [pdfjsLib.getDocument({data}).promise] *)
Variable getDocument : list N -> Result PDFDocument.

(** [model.generateContent(...)] followed by [response.text()]: the raw
    reply of the backend, or the error of the call. *)
Variable generateContent : Request -> Result JSString.

(** The message of the [SyntaxError] that [JSON.parse] throws on a text. *)
Variable SyntaxError_message : JSString -> JSString.

(** [process.env.GEMINI_API_KEY] *)
Variable GEMINI_API_KEY : option JSString.

(** What the clock gives for [processingTime] and [timestamp]. *)
Variables processingTime timestamp : JSString.

(** [pdf.getPage(pageNum)] then [getTextContent()]; pages count from 1. *)
Definition getPage (pdf : PDFDocument) (pageNum : nat)
  : Result (list JSString) :=
  match nth_error pdf (pageNum - 1) with
  | Some r => r
  | None => Throw (lit "Invalid page request.")
  end.

(** The body of the [for] loop of [extractTextFromPDF], run over the page
    numbers left. *)
Fixpoint extract_pages (pdf : PDFDocument) (pageNums : list nat)
  (fullText : JSString) : Result JSString :=
  match pageNums with
  | [] => Ok fullText
  | pageNum :: rest =>
      match getPage pdf pageNum with
      | Throw m => Throw m
      | Ok items =>
          let pageText := join [32] items in
          extract_pages pdf rest (fullText ++ pageText ++ [10; 10])
      end
  end.

Definition extractTextFromPDF (pdfBuffer : list N) : Result JSString :=
  let wrap m := Throw (lit "Falha na extração de texto do PDF: " ++ m) in
  match getDocument pdfBuffer with
  | Throw m => wrap m
  | Ok pdf =>
      match extract_pages pdf (seq 1 (Nat.min (List.length pdf) 3)) [] with
      | Throw m => wrap m
      | Ok fullText => Ok (trim fullText)
      end
  end.

(** The text handed to [JSON.parse]: the reply without its code fences,
    trimmed, and cut down to the match of the brace pattern when there is
    one. *)
Definition json_text (reply : JSString) : JSString :=
  let text := trim (replace_fences reply) in
  match match_braces text with
  | Some jsonMatch => jsonMatch
  | None => text
  end.

(** What both [processWithGemini] and [processPDFWithGemini] do with the
    outcome of the call to the backend. *)
Definition extractedData (called : Result JSString) : Result json :=
  let wrap m := Throw (lit "Falha no processamento IA: " ++ m) in
  match called with
  | Throw m => wrap m
  | Ok reply =>
      let text := json_text reply in
      match JSON_parse text with
      | Some data => Ok data
      | None => wrap (SyntaxError_message text)
      end
  end.

(** The request [processWithGemini] sends for a text. *)
Definition text_request (extractedText : JSString) : Request :=
  {| model := lit "gemini-1.5-flash";
     contents := [TextPart (prompt_text extractedText)] |}.

Definition processWithGemini (extractedText : JSString) : Result json :=
  extractedData (generateContent (text_request extractedText)).

(** The request [processPDFWithGemini] sends for a document. *)
Definition pdf_request (pdfBuffer : list N) : Request :=
  {| model := MODELO_GEMINI;
     contents := [TextPart prompt_pdf;
                  InlineData (base64 pdfBuffer) (lit "application/pdf")] |}.

Definition processPDFWithGemini (pdfBuffer : list N) : Result json :=
  extractedData (generateContent (pdf_request pdfBuffer)).

(** What a handler did: the response it sent, and the requests it made to
    the backend on the way. *)
Record Outcome : Type := {
  response : Response;
  sent : list Request
}.

Definition field (k : string) (v : json) : JSString * json := (lit k, v).

Definition JNat (n : nat) : json := JNumber (inject_Z (Z.of_nat n)).

(** The [catch] block of the handlers. *)
Definition failure (message : JSString) : Response :=
  {| status := 500;
     body := JObject
       [ field "success" (JBool false);
         field "error" (JString (lit "Erro ao processar o arquivo PDF."));
         field "details" (JString message);
         field "processingTime" (JString processingTime);
         field "timestamp" (JString timestamp) ] |}.

Definition no_file : Response :=
  {| status := 400;
     body := JObject
       [ field "success" (JBool false);
         field "error" (JString (lit "Nenhum arquivo PDF foi enviado.")) ] |}.

Definition no_key : Response :=
  {| status := 500;
     body := JObject
       [ field "success" (JBool false);
         field "error"
           (JString (lit "Chave da API do Google Gemini não configurada."));
         field "instructions"
           (JString
              (lit "Adicione GEMINI_API_KEY=sua_chave no arquivo .env")) ] |}.

(** [!process.env.GEMINI_API_KEY] *)
Definition key_missing : bool :=
  match GEMINI_API_KEY with
  | None => true
  | Some k => match k with [] => true | _ :: _ => false end
  end.

(** [POST /extract-data] of the text-extraction server. *)
Definition extract_data (file : option File) : Outcome :=
  match file with
  | None => {| response := no_file; sent := [] |}
  | Some f =>
      if key_missing then {| response := no_key; sent := [] |}
      else
        match extractTextFromPDF (buffer f) with
        | Throw m => {| response := failure m; sent := [] |}
        | Ok extractedText =>
            if match extractedText with [] => true | _ :: _ => false end
               || (List.length extractedText <? 50)%nat
            then
              {| response :=
                   failure texto_muito_curto;
                 sent := [] |}
            else
              {| response :=
                   match processWithGemini extractedText with
                   | Throw m => failure m
                   | Ok data =>
                       {| status := 200;
                          body := JObject
                            [ field "success" (JBool true);
                              field "method"
                                (JString (lit "pdf_text_extraction"));
                              field "data" data;
                              field "metadata"
                                (JObject
                                   [ field "filename"
                                       (JString (originalname f));
                                     field "fileSize"
                                       (JNumber (inject_Z (Z.of_N (size f))));
                                     field "textLength"
                                       (JNat (List.length extractedText));
                                     field "processingTime"
                                       (JString processingTime);
                                     field "timestamp" (JString timestamp) ]);
                              field "debug"
                                (JObject
                                   [ field "textPreview"
                                       (JString
                                          (firstn 300 extractedText
                                           ++ lit "...")) ]) ] |}
                   end;
                 sent := [text_request extractedText] |}
        end
  end.

(** [POST /extract-data] of the server that sends the PDF itself through
    [processPDFWithGemini]. *)
Definition extract_data_pdf (file : option File) : Outcome :=
  match file with
  | None => {| response := no_file; sent := [] |}
  | Some f =>
      if key_missing then {| response := no_key; sent := [] |}
      else
        {| response :=
             match processPDFWithGemini (buffer f) with
             | Throw m => failure m
             | Ok data =>
                 {| status := 200;
                    body := JObject
                      [ field "success" (JBool true);
                        field "method"
                          (JString (lit "direct_pdf_processing"));
                        field "data" data;
                        field "metadata"
                          (JObject
                             [ field "filename" (JString (originalname f));
                               field "fileSize"
                                 (JNumber (inject_Z (Z.of_N (size f))));
                               field "processingTime"
                                 (JString processingTime);
                               field "timestamp" (JString timestamp) ]) ] |}
             end;
           sent := [pdf_request (buffer f)] |}
  end.

End Service.

(** ** Vocabulary of the properties *)

(** The code units the two patterns are made of. *)
Definition fence_unit (c : N) : bool :=
  (c =? 96) || (c =? 106) || (c =? 115) || (c =? 111) || (c =? 110).

(** [p] occurs in [s]. *)
Definition occurs (p s : JSString) : Prop := exists a b, s = a ++ p ++ b.

(** A code unit that stands for itself between the quotes of a JSON string:
    no control character, no quote, no backslash. *)
Definition plain (c : N) : bool :=
  (32 <=? c) && negb (c =? 34) && negb (c =? 92).

(** A text the replacement leaves as it is: one without backticks. *)
Definition no_backtick (s : JSString) : bool :=
  forallb (fun c => negb (c =? backtick)) s.

Definition numero_nota_fiscal : JSString := lit "numero_nota_fiscal".
Definition valor_total : JSString := lit "valor_total".
Definition quantidade_parcelas : JSString := lit "quantidade_parcelas".
Definition classificacao_despesa : JSString := lit "classificacao_despesa".

(** *** Sample collaborators and replies *)

(** A backend that answers every request with [reply]. *)
Definition answers (reply : JSString) : Request -> Result JSString :=
  fun _ => Ok reply.

(** A message for the [SyntaxError] of [JSON.parse]. *)
Definition sample_message (text : JSString) : JSString :=
  lit "Unexpected token in JSON".

(** The reply of the scenario of the specification: a fenced object with an
    invoice number and a total as the document prints them. *)
Definition scenario_reply : JSString :=
  lit "```json" ++ [10]
  ++ lit "{" ++ quoted (lit "numero_nota_fiscal") ++ lit ":"
  ++ quoted (lit "000.207.590") ++ lit ","
  ++ quoted (lit "valor_total") ++ lit ":" ++ quoted (lit "3.449,00")
  ++ lit "}" ++ [10] ++ lit "```".

(** A reply whose category is not in the taxonomy. *)
Definition reply_outros : JSString :=
  lit "{" ++ quoted (lit "classificacao_despesa") ++ lit ":"
  ++ quoted (lit "OUTROS") ++ lit "}".

(** A reply with an installment count of zero. *)
Definition reply_zero_parcelas : JSString :=
  lit "{" ++ quoted (lit "quantidade_parcelas") ++ lit ":0}".

(** A reply that is a JSON value without any brace. *)
Definition reply_no_brace : JSString := lit "123".

(** A reply without an installment count. *)
Definition reply_no_parcelas : JSString :=
  lit "{" ++ quoted (lit "numero_nota_fiscal") ++ lit ":"
  ++ quoted (lit "207590") ++ lit "}".

(** The reply of the extraction example of the specification, and one with a
    second object behind the first. *)
Definition reply_text_around : JSString :=
  lit "text before {" ++ quoted (lit "a") ++ lit ":1} text after".

Definition reply_two_objects : JSString :=
  lit "x {" ++ quoted (lit "a") ++ lit ":1} y {" ++ quoted (lit "b")
  ++ lit ":2}".

(** A reply with the supplier's tax ID as the document prints it. *)
Definition reply_cnpj : JSString :=
  lit "{" ++ quoted (lit "fornecedor") ++ lit ":{" ++ quoted (lit "cnpj")
  ++ lit ":" ++ quoted (lit "18.944.113/0002-91") ++ lit "}}".

(** *** The extraction the specification describes

    Follows the specification's words, for comparison with [json_text]: the
    first top-level balanced brace-delimited substring of a text. *)

(** The text up to the brace that closes [depth] open ones. *)
Fixpoint spec_balanced (depth : nat) (s : JSString) : option JSString :=
  match s with
  | [] => None
  | c :: r =>
      if c =? lbrace then option_map (cons c) (spec_balanced (S depth) r)
      else if c =? rbrace then
        match depth with
        | O => None
        | S O => Some [c]
        | S d => option_map (cons c) (spec_balanced d r)
        end
      else option_map (cons c) (spec_balanced depth r)
  end.

Fixpoint spec_first_balanced (s : JSString) : option JSString :=
  match s with
  | [] => None
  | c :: r =>
      if c =? lbrace then
        match spec_balanced 1 r with
        | Some t => Some (c :: t)
        | None => spec_first_balanced r
        end
      else spec_first_balanced r
  end.

(** *** Pages and sample documents *)

(** The text the loop of [extractTextFromPDF] builds from the items of the
    pages it reads. *)
Definition pages_text (pages : list (list JSString)) : JSString :=
  concat (map (fun items => join [32] items ++ [10; 10]) pages).


(** The loop of [extractTextFromPDF], told over the pages it reads instead
    of their numbers. *)
Fixpoint read_pages (pages : PDFDocument) (fullText : JSString)
  : Result JSString :=
  match pages with
  | [] => Ok fullText
  | Throw m :: _ => Throw m
  | Ok items :: rest => read_pages rest (fullText ++ join [32] items ++ [10; 10])
  end.

(** A PDF of one page with little text on it, and the upload that holds
    it. *)
Definition short_document : PDFDocument := [Ok [lit "NOTA"; lit "FISCAL"]].

Definition short_upload : File :=
  {| originalname := lit "nota.pdf"; size := 4; buffer := [37; 80; 68; 70] |}.

(** An upload of no bytes. *)
Definition empty_upload : File :=
  {| originalname := lit "vazio.pdf"; size := 0; buffer := [] |}.

(** A PDF of four pages, sixty code units on each of the first three, and a
    PDF with the same first three pages and another fourth. *)
Definition line60 (c : N) : JSString := repeat c 60.

Definition four_pages : PDFDocument :=
  [Ok [line60 97]; Ok [line60 98; lit "x"]; Ok [line60 99]; Ok [line60 100]].


(** *** Documents

    A JSON text as a backend may write it, token by token: the literals as
    they stand in the text, and the white space that may stand around every
    value and key.  The text of a string is what stands between its quotes,
    escapes and all; the text of a number is its numeral. *)
Record Member (D : Type) : Type := {
  before_key : JSString;       (* white space before the key *)
  key_text : JSString;         (* the text between the quotes of the key *)
  after_key : JSString;        (* white space between the key and the colon *)
  member_doc : D               (* the value behind the colon *)
}.

Arguments before_key {D} _.
Arguments key_text {D} _.
Arguments after_key {D} _.
Arguments member_doc {D} _.

Unset Elimination Schemes.
Inductive doc : Type :=
| DNull
| DBool (b : bool)
| DNumber (numeral : JSString)
| DString (text : JSString)
| DArray (inner : JSString) (elements : list doc)
| DObject (inner : JSString) (members : list (Member doc))
| DPad (before : JSString) (d : doc) (after : JSString).
Set Elimination Schemes.

(** The text of a member of an object, given the text of its value. *)
Definition member_text (text_of : doc -> JSString) (m : Member doc)
  : JSString :=
  before_key m ++ quoted (key_text m) ++ after_key m ++ [58]
  ++ text_of (member_doc m).

(** The text of a document.  [inner] is the white space between the
    brackets of an empty array or object. *)
Fixpoint text_of (d : doc) : JSString :=
  match d with
  | DNull => kw_null
  | DBool b => if b then kw_true else kw_false
  | DNumber t => t
  | DString t => quoted t
  | DArray inner l =>
      match l with
      | [] => [91] ++ inner ++ [93]
      | _ :: _ => [91] ++ join [44] (map text_of l) ++ [93]
      end
  | DObject inner l =>
      match l with
      | [] => [lbrace] ++ inner ++ [rbrace]
      | _ :: _ =>
          [lbrace] ++ join [44] (map (member_text text_of) l) ++ [rbrace]
      end
  | DPad before d after => before ++ text_of d ++ after
  end.

(** The string a string literal denotes, and the Number a numeral denotes,
    read the way [JSON.parse] reads them. *)
Definition string_value (t : JSString) : JSString :=
  match string_chars (t ++ dq) with
  | Some (v, _) => v
  | None => []
  end.

Definition number_value (t : JSString) : Number :=
  match number t with
  | Some (x, _) => x
  | None => Finite (inject_Z 0)
  end.

(** The value a document denotes.  The members of an object are set one
    after the other, so a key written twice has the value written last. *)
Fixpoint value_of (d : doc) : json :=
  match d with
  | DNull => JNull
  | DBool b => JBool b
  | DNumber t => JNumber (number_value t)
  | DString t => JString (string_value t)
  | DArray _ l => JArray (map value_of l)
  | DObject _ l =>
      JObject
        (fold_left
           (fun acc m =>
              obj_set (string_value (key_text m)) (value_of (member_doc m))
                acc)
           l [])
  | DPad _ d _ => value_of d
  end.

(** The members of an object, set one after the other. *)
Definition set_members (l : list (Member doc)) (acc : list (JSString * json))
  : list (JSString * json) :=
  fold_left
    (fun acc m =>
       obj_set (string_value (key_text m)) (value_of (member_doc m)) acc)
    l acc.

(** White space of JSON. *)
Definition white (w : JSString) : bool := forallb isJSONWhiteSpace w.

(** The text between two quotes is a string literal: it is read to its end,
    and the quote behind it closes it.  A text is a numeral: it is read as
    a number to its end. *)
Definition string_ok (t : JSString) : bool :=
  match string_chars (t ++ dq) with
  | Some (_, []) => true
  | _ => false
  end.

Definition number_ok (t : JSString) : bool :=
  match number t with
  | Some (_, []) => true
  | _ => false
  end.

(** A well-formed document: literals that are literals, white space that is
    white space. *)
Fixpoint doc_ok (d : doc) : bool :=
  match d with
  | DNull | DBool _ => true
  | DNumber t => number_ok t
  | DString t => string_ok t
  | DArray inner l => white inner && forallb doc_ok l
  | DObject inner l =>
      white inner
      && forallb (fun m => white (before_key m) && string_ok (key_text m)
                           && white (after_key m) && doc_ok (member_doc m)) l
  | DPad before d after => white before && doc_ok d && white after
  end.

(** The white space a document ends with. *)
Fixpoint trailing (d : doc) : JSString :=
  match d with
  | DPad _ d after => trailing d ++ after
  | _ => []
  end.

(** The document with the fences deleted from the text of every string,
    keys included. *)
Fixpoint strip (d : doc) : doc :=
  match d with
  | DString t => DString (replace_fences t)
  | DArray inner l => DArray inner (map strip l)
  | DObject inner l =>
      DObject inner
        (map (fun m => {| before_key := before_key m;
                          key_text := replace_fences (key_text m);
                          after_key := after_key m;
                          member_doc := strip (member_doc m) |}) l)
  | DPad before d after => DPad before (strip d) after
  | _ => d
  end.

(** A text behind a number that does not continue the number. *)
Definition delimited (rest : JSString) : bool :=
  match rest with
  | [] => true
  | c :: _ =>
      negb (isDigit c) && negb (c =? 46) && negb (c =? 101) && negb (c =? 69)
  end.

(** No string occurs twice in a list. *)
Fixpoint distinct (l : list JSString) : bool :=
  match l with
  | [] => true
  | k :: r => negb (existsb (str_eqb k) r) && distinct r
  end.

(** Every object of a value has its keys once. *)
Fixpoint keys_unique (v : json) : bool :=
  match v with
  | JArray l => forallb keys_unique l
  | JObject l =>
      distinct (map fst l)
      && forallb (fun kv => match kv with (_, x) => keys_unique x end) l
  | _ => true
  end.

(** A text without the code unit [c]. *)
Definition without (c : N) (s : JSString) : bool :=
  forallb (fun x => negb (x =? c)) s.

(** The value the members of an object give to the key [k]: that of the
    last member that writes [k]. *)
Fixpoint last_written (k : JSString) (l : list (Member doc)) : option doc :=
  match l with
  | [] => None
  | m :: r =>
      match last_written k r with
      | Some d => Some d
      | None =>
          if str_eqb k (string_value (key_text m)) then Some (member_doc m)
          else None
      end
  end.

(** The document inside the white space around it. *)
Fixpoint bare (d : doc) : doc :=
  match d with
  | DPad _ d _ => bare d
  | _ => d
  end.

(** A document that ends with a closing token of its own: whatever stands
    behind it, it is read the same. *)
Definition closed (d : doc) : bool :=
  match d with
  | DNumber _ | DPad _ _ _ => false
  | _ => true
  end.

(** *** A sample reply

    A reply as the backends write it: a sentence, then the document in a
    code fence, one member on a line, with an escaped quote and an escaped
    line feed in its strings. *)

(** A line feed and [n] spaces. *)
Definition indent (n : nat) : JSString := 10 :: repeat 32 n.

(** A member on a line of its own, indented by [n] spaces, with a space
    behind the colon; [close] is the white space behind the value. *)
Definition line (n : nat) (k : string) (d : doc) (close : JSString)
  : Member doc :=
  {| before_key := indent n; key_text := lit k; after_key := [];
     member_doc := DPad [32] d close |}.

Definition sample_doc : doc :=
  DObject []
    [ line 2 "fornecedor"
        (DObject []
           [ line 4 "razao_social" (DString (lit_q "AGRO \~SOL\~ LTDA")) [];
             line 4 "cnpj" (DString (lit "18.944.113/0002-91")) (indent 2) ])
        [];
      line 2 "numero_nota_fiscal" (DString (lit "000.207.590")) [];
      line 2 "data_emissao" (DString (lit "2024-01-31")) [];
      line 2 "descricao_produtos"
        (DString (lit "Sementes de soja\nAdubo foliar")) [];
      line 2 "quantidade_parcelas" (DNumber (lit "1")) [];
      line 2 "data_vencimento" DNull [];
      line 2 "valor_total" (DNumber (lit "3449.00")) [];
      line 2 "classificacao_despesa" (DString (lit "INSUMOS AGRÍCOLAS"))
        (indent 0) ].

Definition sample_pre : JSString :=
  lit "Segue o resultado:" ++ [10] ++ lit "```json" ++ [10].

Definition sample_post : JSString :=
  [10] ++ lit "```" ++ [10] ++ lit "Fim.".

Definition sample_reply : JSString :=
  lit_q "Segue o resultado:
```json
{
  ~fornecedor~: {
    ~razao_social~: ~AGRO \~SOL\~ LTDA~,
    ~cnpj~: ~18.944.113/0002-91~
  },
  ~numero_nota_fiscal~: ~000.207.590~,
  ~data_emissao~: ~2024-01-31~,
  ~descricao_produtos~: ~Sementes de soja\nAdubo foliar~,
  ~quantidade_parcelas~: 1,
  ~data_vencimento~: null,
  ~valor_total~: 3449.00,
  ~classificacao_despesa~: ~INSUMOS AGRÍCOLAS~
}
```
Fim.".

(** The value of the sample document. *)
Definition sample_value : json :=
  JObject
    [ (lit "fornecedor",
       JObject
         [ (lit "razao_social", JString (lit_q "AGRO ~SOL~ LTDA"));
           (lit "cnpj", JString (lit "18.944.113/0002-91")) ]);
      (lit "numero_nota_fiscal", JString (lit "000.207.590"));
      (lit "data_emissao", JString (lit "2024-01-31"));
      (lit "descricao_produtos",
       JString (lit "Sementes de soja" ++ [10] ++ lit "Adubo foliar"));
      (lit "quantidade_parcelas", JNumber (inject_Z 1));
      (lit "data_vencimento", JNull);
      (lit "valor_total", JNumber (inject_Z 3449));
      (lit "classificacao_despesa", JString (lit "INSUMOS AGRÍCOLAS")) ].

(** A document whose description quotes a code fence, and a reply in which
    the fence inside a string is written with an escape. *)
Definition doc_with_fence : doc :=
  DObject []
    [ line 2 "descricao_produtos"
        (DString (lit "manual ```json``` e planilha")) (indent 0) ].

Definition reply_escaped_fence : JSString :=
  lit_q "{~descricao_produtos~:~`\u0060`~}".

(** A reply that writes its category twice. *)
Definition reply_twice : JSString :=
  lit_q "{~classificacao_despesa~:~ADMINISTRATIVAS~,~numero_nota_fiscal~:~207590~,~classificacao_despesa~:~INVESTIMENTOS~}".



(** *** Uploads, routes and the error middleware *)

(** [s.includes(p)] *)
Fixpoint includes (p s : JSString) : bool :=
  startsWith p s
  || match s with
     | [] => false
     | _ :: r => includes p r
     end.

(** What reaches the error middleware: a [multer.MulterError] with its code,
    or another [Error]; both have a message. *)
Inductive ThrownError : Type :=
| MulterError (code message : JSString)
| PlainError (message : JSString).

Definition error_message (e : ThrownError) : JSString :=
  match e with
  | MulterError _ m => m
  | PlainError m => m
  end.

Definition apenas_pdf : JSString :=
  lit "Apenas arquivos PDF são permitidos para extração de dados de notas fiscais.".

(** The [fileFilter] of the three servers: [cb(null, true)] or
    [cb(new Error(...))]. *)
Definition fileFilter (mimetype : JSString) : Result bool :=
  if str_eqb mimetype (lit "application/pdf") then Ok true
  else Throw apenas_pdf.

Definition too_large : Response :=
  {| status := 400;
     body := JObject
       [ (lit "success", JBool false);
         (lit "error",
          JString
            (lit "Arquivo muito grande. Máximo 15MB permitido para PDFs.")) ] |}.

Definition internal_error (e : ThrownError) : Response :=
  {| status := 500;
     body := JObject
       [ (lit "success", JBool false);
         (lit "error", JString (lit "Erro interno do servidor"));
         (lit "details", JString (error_message e)) ] |}.

(** [error instanceof multer.MulterError] and
    [error.code === 'LIMIT_FILE_SIZE'] *)
Definition is_limit_file_size (e : ThrownError) : bool :=
  match e with
  | MulterError code _ => str_eqb code (lit "LIMIT_FILE_SIZE")
  | PlainError _ => false
  end.

(** The error middleware of the text-extraction server and of the server
    with its own [processPDFWithGemini]. *)
Definition error_middleware (e : ThrownError) : Response :=
  if is_limit_file_size e then too_large else internal_error e.

(** The error middleware of the server that imports the agent. *)
Definition error_middleware_agent (e : ThrownError) : Response :=
  if is_limit_file_size e then too_large
  else if includes (lit "apenas arquivos PDF") (error_message e) then
    {| status := 400;
       body := JObject
         [ (lit "success", JBool false);
           (lit "error", JString (error_message e)) ] |}
  else internal_error e.

(** What [upload.single('invoice')] hands on: [req.file], or an error for
    the error middleware. *)
Inductive Upload : Type :=
| Accepted (file : option File)
| Rejected (error : ThrownError).

(** [GET /test] of the text-extraction server. *)
Definition test_route (GEMINI_API_KEY : option JSString)
  (timestamp : JSString) : Response :=
  {| status := 200;
     body := JObject
       [ (lit "message",
          JString (lit "Sistema de Extração de Dados de NF funcionando!"));
         (lit "gemini_key_configured",
          JBool (negb (key_missing GEMINI_API_KEY)));
         (lit "supported_formats", JArray [JString (lit "PDF")]);
         (lit "categories", JArray (map JString CATEGORIAS_DESPESAS));
         (lit "timestamp", JString timestamp) ] |}.

(** [GET /test] of the two servers that send the PDF itself. *)
Definition test_route_pdf (GEMINI_API_KEY : option JSString)
  (timestamp : JSString) : Response :=
  {| status := 200;
     body := JObject
       [ (lit "message",
          JString (lit "Sistema de Extração de Dados de NF funcionando!"));
         (lit "gemini_key_configured",
          JBool (negb (key_missing GEMINI_API_KEY)));
         (lit "supported_formats", JArray [JString (lit "PDF")]);
         (lit "categories", JArray (map JString CATEGORIAS_DESPESAS));
         (lit "processing_method", JString (lit "Direct PDF to Gemini"));
         (lit "timestamp", JString timestamp) ] |}.

(** [GET /test-models] of the server that imports the agent. *)
Definition test_models (GEMINI_API_KEY : option JSString) : Response :=
  if key_missing GEMINI_API_KEY then
    {| status := 200;
       body := JObject
         [ (lit "success", JBool false);
           (lit "error",
            JString
              (lit "Chave da API não configurada para teste de modelo.")) ] |}
  else
    {| status := 200;
       body := JObject
         [ (lit "success", JBool true);
           (lit "text",
            JString
              (lit "Teste de modelo usando " ++ MODELO_GEMINI
               ++ lit " deve ser realizado no agente. A chave está configurada."));
           (lit "model", JString MODELO_GEMINI) ] |}.

Section Routes.

Variable getDocument : list N -> Result PDFDocument.
Variable generateContent : Request -> Result JSString.
Variable SyntaxError_message : JSString -> JSString.
Variable GEMINI_API_KEY : option JSString.
Variables processingTime timestamp : JSString.

(** [app.post('/extract-data', upload.single('invoice'), handler)] with the
    error middleware behind it, for the text-extraction server. *)
Definition post_extract_data (u : Upload) : Outcome :=
  match u with
  | Accepted file =>
      extract_data getDocument generateContent SyntaxError_message
        GEMINI_API_KEY processingTime timestamp file
  | Rejected e => {| response := error_middleware e; sent := [] |}
  end.

(** The same route of the server that imports the agent. *)
Definition post_extract_data_agent (u : Upload) : Outcome :=
  match u with
  | Accepted file =>
      extract_data_pdf generateContent SyntaxError_message
        GEMINI_API_KEY processingTime timestamp file
  | Rejected e => {| response := error_middleware_agent e; sent := [] |}
  end.

End Routes.

(** An upload that is no PDF. *)
Definition upload_not_pdf : Upload := Rejected (PlainError apenas_pdf).

(** *** Bytes *)

(** A [Buffer] holds octets. *)
Definition octets (bs : list N) : Prop := Forall (fun b => b < 256) bs.

(** *** The page script

    [public/script.js] reads and writes a few things of the page; they are
    the state of the model.  The click handler is asynchronous: what it
    does before [await fetch(...)] and what it does after are two steps,
    and other events may come between them. *)
Record Page : Type := {
  fileInput_files : list File;          (* fileInput.files *)
  fileNameSpan : JSString;              (* fileNameSpan.textContent *)
  extractButton_disabled : bool;        (* extractButton.disabled *)
  resultContainer_display : JSString;   (* resultContainer.style.display *)
  jsonOutput : JSString;                (* jsonOutput.textContent *)
  messageP : JSString;                  (* messageP.textContent *)
  alerts : list JSString;               (* the calls of alert, oldest first *)
  posted : list File;                   (* the files posted to /extract-data *)
  clipboard : JSString                  (* what the clipboard holds *)
}.

Definition with_message (m : JSString) (p : Page) : Page :=
  {| fileInput_files := fileInput_files p;
     fileNameSpan := fileNameSpan p;
     extractButton_disabled := extractButton_disabled p;
     resultContainer_display := resultContainer_display p;
     jsonOutput := jsonOutput p;
     messageP := m;
     alerts := alerts p;
     posted := posted p;
     clipboard := clipboard p |}.

Definition with_disabled (b : bool) (p : Page) : Page :=
  {| fileInput_files := fileInput_files p;
     fileNameSpan := fileNameSpan p;
     extractButton_disabled := b;
     resultContainer_display := resultContainer_display p;
     jsonOutput := jsonOutput p;
     messageP := messageP p;
     alerts := alerts p;
     posted := posted p;
     clipboard := clipboard p |}.

(** [jsonOutput.textContent = text; resultContainer.style.display = 'block'] *)
Definition with_result (text : JSString) (p : Page) : Page :=
  {| fileInput_files := fileInput_files p;
     fileNameSpan := fileNameSpan p;
     extractButton_disabled := extractButton_disabled p;
     resultContainer_display := lit "block";
     jsonOutput := text;
     messageP := messageP p;
     alerts := alerts p;
     posted := posted p;
     clipboard := clipboard p |}.

Definition with_alert (a : JSString) (p : Page) : Page :=
  {| fileInput_files := fileInput_files p;
     fileNameSpan := fileNameSpan p;
     extractButton_disabled := extractButton_disabled p;
     resultContainer_display := resultContainer_display p;
     jsonOutput := jsonOutput p;
     messageP := messageP p;
     alerts := alerts p ++ [a];
     posted := posted p;
     clipboard := clipboard p |}.

Definition with_posted (file : File) (p : Page) : Page :=
  {| fileInput_files := fileInput_files p;
     fileNameSpan := fileNameSpan p;
     extractButton_disabled := extractButton_disabled p;
     resultContainer_display := resultContainer_display p;
     jsonOutput := jsonOutput p;
     messageP := messageP p;
     alerts := alerts p;
     posted := posted p ++ [file];
     clipboard := clipboard p |}.

Definition with_clipboard (text : JSString) (p : Page) : Page :=
  {| fileInput_files := fileInput_files p;
     fileNameSpan := fileNameSpan p;
     extractButton_disabled := extractButton_disabled p;
     resultContainer_display := resultContainer_display p;
     jsonOutput := jsonOutput p;
     messageP := messageP p;
     alerts := alerts p;
     posted := posted p;
     clipboard := text |}.

(** The user chooses [files] and the [change] handler of [fileInput] runs.
    The [name] of a file in the browser is what multer calls
    [originalname]. *)
Definition change (files : list File) (p : Page) : Page :=
  {| fileInput_files := files;
     fileNameSpan :=
       match files with
       | f :: _ => originalname f
       | [] => lit "Nenhum arquivo escolhido"
       end;
     extractButton_disabled :=
       match files with
       | _ :: _ => false
       | [] => true
       end;
     resultContainer_display := lit "none";
     jsonOutput := jsonOutput p;
     messageP := [];
     alerts := alerts p;
     posted := posted p;
     clipboard := clipboard p |}.

(** What [await fetch(...)] and [await response.json()] come to: [fetch]
    rejects, or there is a response with its [ok] and the value of
    [response.json()], [None] when that rejects. *)
Inductive Fetched : Type :=
| NoResponse
| Received (ok : bool) (data : option json).

Definition extraindo : JSString := lit "Extraindo dados...".
Definition sucesso : JSString := lit "Dados extraídos com sucesso!".
Definition sem_conexao : JSString :=
  lit "Erro ao se conectar com o servidor.".

(** The click handler of [extractButton] up to [await fetch(...)]. *)
Definition click_begin (p : Page) : Page :=
  match fileInput_files p with
  | [] => with_alert (lit "Por favor, selecione um arquivo.") p
  | file :: _ =>
      with_posted file (with_disabled true (with_message extraindo p))
  end.

Section PageScript.

(** [JSON.stringify(data, null, 2)] and the conversion of a finite number
    to a string are the engine's. *)
Variable JSON_stringify : json -> JSString.
Variable Number_toString : Q -> JSString.

(** [String(x)] for a Number. *)
Definition Number_text (x : Number) : JSString :=
  match x with
  | Finite q => Number_toString q
  | NegativeZero => lit "0"
  | Infinity negative => if negative then lit "-Infinity" else lit "Infinity"
  end.

(** The conversion to a string that a template literal makes. *)
Fixpoint ToString (v : json) : JSString :=
  match v with
  | JNull => lit "null"
  | JBool b => if b then lit "true" else lit "false"
  | JNumber x => Number_text x
  | JString s => s
  | JArray l =>
      join [44]
        (map (fun e => match e with
                       | JNull => []
                       | _ => ToString e
                       end) l)
  | JObject _ => lit "[object Object]"
  end.

(** [`Erro: ${data.error}`]; reading a property of [null] throws. *)
Definition erro (data : json) : option JSString :=
  match data with
  | JNull => None
  | _ =>
      Some (lit "Erro: "
            ++ match get (lit "error") data with
               | Some v => ToString v
               | None => lit "undefined"
               end)
  end.

(** The click handler from [await fetch(...)] on: the [try] block, its
    [catch] and its [finally]. *)
Definition click_end (fetched : Fetched) (p : Page) : Page :=
  with_disabled false
    match fetched with
    | NoResponse => with_message sem_conexao p
    | Received _ None => with_message sem_conexao p
    | Received true (Some data) =>
        with_message sucesso (with_result (JSON_stringify data) p)
    | Received false (Some data) =>
        match erro data with
        | Some m => with_message m p
        | None => with_message sem_conexao p
        end
    end.

(** A click with nothing happening while the request is under way. *)
Definition click (fetched : Fetched) (p : Page) : Page :=
  match fileInput_files p with
  | [] => click_begin p
  | _ :: _ => click_end fetched (click_begin p)
  end.

(** The click handler of [copyButton]; [granted] tells whether
    [navigator.clipboard.writeText] resolves. *)
Definition copy (granted : bool) (p : Page) : Page :=
  if granted then
    with_alert (lit "JSON copiado para a área de transferência!")
      (with_clipboard (jsonOutput p) p)
  else p.

(** What happens to the page.  A disabled button gets no click. *)
Inductive Event : Type :=
| Change (files : list File)
| Click
| Settled (fetched : Fetched)
| Copy (granted : bool).

Definition step (p : Page) (e : Event) : Page :=
  match e with
  | Change files => change files p
  | Click => if extractButton_disabled p then p else click_begin p
  | Settled fetched => click_end fetched p
  | Copy granted => copy granted p
  end.

Definition run (events : list Event) (p : Page) : Page :=
  fold_left step events p.

End PageScript.

(** What the page receives when the server answered with [r]:
    [response.ok] tells a status from 200 to 299, and [response.json()]
    gives back the body that [res.json] sent. *)
Definition delivered (r : Response) : Fetched :=
  Received ((200 <=? status r)%nat && (status r <=? 299)%nat) (Some (body r)).

(** The [error] texts of the text-extraction server. *)
Definition error_texts : list JSString :=
  [ lit "Nenhum arquivo PDF foi enviado.";
    lit "Chave da API do Google Gemini não configurada.";
    lit "Erro ao processar o arquivo PDF.";
    lit "Arquivo muito grande. Máximo 15MB permitido para PDFs.";
    lit "Erro interno do servidor" ].

(** A page as it is loaded, and an engine for the examples. *)
Definition loaded_page : Page :=
  {| fileInput_files := [];
     fileNameSpan := lit "Nenhum arquivo escolhido";
     extractButton_disabled := true;
     resultContainer_display := lit "none";
     jsonOutput := [];
     messageP := [];
     alerts := [];
     posted := [];
     clipboard := [] |}.

Definition sample_stringify (v : json) : JSString :=
  match v with
  | JObject [] => lit "{}"
  | _ => lit "[...]"
  end.

Definition sample_number (q : Q) : JSString := lit "0".

(** * Properties *)

(** ** Strings *)

Lemma str_eqb_refl (a : JSString) : str_eqb a a = true.
Proof.
  induction a as [|x a IH]; simpl; [reflexivity|].
  now rewrite N.eqb_refl, IH.
Qed.

Lemma str_eqb_eq (a b : JSString) : str_eqb a b = true <-> a = b.
Proof.
  split; [|intros ->; apply str_eqb_refl].
  revert b; induction a as [|x a IH]; intros [|y b]; simpl; try discriminate;
    [reflexivity|].
  intros H; apply andb_true_iff in H as [Hx Hr].
  apply N.eqb_eq in Hx; subst; f_equal; auto.
Qed.

Lemma str_eqb_neq (a b : JSString) : str_eqb a b = false <-> a <> b.
Proof.
  rewrite <- str_eqb_eq; destruct (str_eqb a b); intuition congruence.
Qed.

Lemma startsWith_app (p s : JSString) : startsWith p (p ++ s) = true.
Proof.
  induction p as [|x p IH]; simpl; [reflexivity|].
  now rewrite N.eqb_refl, IH.
Qed.

Lemma startsWith_prefix (p s : JSString) :
  startsWith p s = true -> s = p ++ skipn (List.length p) s.
Proof.
  revert s; induction p as [|x p IH]; intros s H; simpl in *; [reflexivity|].
  destruct s as [|y s]; [discriminate|].
  apply andb_true_iff in H as [Hx Hr]; apply N.eqb_eq in Hx; subst.
  simpl; f_equal; auto.
Qed.

(** A code unit that does not occur in [p] and stands behind [s] decides no
    match of [p]. *)
Lemma startsWith_behind (p s b : JSString) (c : N) :
  ~ In c p -> p <> [] -> startsWith p (s ++ c :: b) = startsWith p s.
Proof.
  revert s; induction p as [|x p IH]; intros s Hc Hp; [congruence|].
  destruct s as [|y s]; simpl.
  - destruct (N.eqb_spec x c) as [->|_]; [|reflexivity].
    exfalso; apply Hc; now left.
  - destruct (x =? y); simpl; [|reflexivity].
    destruct p as [|x' p]; [reflexivity|].
    apply IH; [|discriminate].
    intros Hin; apply Hc; now right.
Qed.

(** ** The fence replacement *)

(** The replacement, told by what the text starts with. *)
Lemma replace_fences_eq (s : JSString) :
  replace_fences s =
    if startsWith fence_json s then replace_fences (skipn 7 s)
    else if startsWith fence s then replace_fences (skipn 3 s)
    else match s with
         | [] => []
         | c :: r => c :: replace_fences r
         end.
Proof.
  destruct s as [|c0 [|c1 [|c2 r2]]]; try reflexivity;
    unfold fence_json, fence; cbn [startsWith skipn replace_fences];
    unfold is_fence, is_json, backtick;
    repeat rewrite (N.eqb_sym 96); repeat rewrite (N.eqb_sym 106);
    repeat rewrite (N.eqb_sym 115); repeat rewrite (N.eqb_sym 111);
    repeat rewrite (N.eqb_sym 110).
  - now destruct (c0 =? 96).
  - destruct (c0 =? 96); [|reflexivity]. now destruct (c1 =? 96).
  - destruct (c0 =? 96); [|reflexivity].
    destruct (c1 =? 96); [|reflexivity].
    destruct (c2 =? 96); [|reflexivity].
    cbn [andb].
    destruct r2 as [|c3 [|c4 [|c5 [|c6 r6]]]]; cbn [startsWith skipn andb];
      repeat rewrite (N.eqb_sym 106);
      repeat rewrite (N.eqb_sym 115); repeat rewrite (N.eqb_sym 111);
      repeat rewrite (N.eqb_sym 110).
    + reflexivity.
    + now destruct (c3 =? 106).
    + destruct (c3 =? 106); [|reflexivity]. now destruct (c4 =? 115).
    + destruct (c3 =? 106); [|reflexivity].
      destruct (c4 =? 115); [|reflexivity]. now destruct (c5 =? 111).
    + destruct (c3 =? 106); [|reflexivity].
      destruct (c4 =? 115); [|reflexivity].
      destruct (c5 =? 111); [|reflexivity].
      now destruct (c6 =? 110).
Qed.

Lemma replace_fences_json (s : JSString) :
  replace_fences (fence_json ++ s) = replace_fences s.
Proof. reflexivity. Qed.

Lemma replace_fences_keep (c : N) (s : JSString) :
  c <> backtick -> replace_fences (c :: s) = c :: replace_fences s.
Proof.
  intros Hc. rewrite replace_fences_eq.
  unfold fence_json, fence; cbn [startsWith].
  destruct (N.eqb_spec 96 c) as [E|_]; [now rewrite <- E in Hc|reflexivity].
Qed.

(** Text without a backtick goes through unchanged. *)
Lemma replace_fences_plain (a s : JSString) :
  ~ In backtick a -> replace_fences (a ++ s) = a ++ replace_fences s.
Proof.
  induction a as [|c a IH]; intros Ha; [reflexivity|].
  simpl app. rewrite replace_fences_keep.
  - f_equal; apply IH; intros H; apply Ha; now right.
  - intros ->; apply Ha; now left.
Qed.

Lemma fence_unit_false (c : N) :
  fence_unit c = false -> ~ In c fence_json /\ ~ In c fence.
Proof.
  unfold fence_unit; intros H.
  repeat (apply orb_false_iff in H as [H ?]).
  repeat match goal with E : (_ =? _) = false |- _ =>
    apply N.eqb_neq in E end.
  split; simpl; intuition congruence.
Qed.

(** No match reaches over a code unit that is in neither pattern: the text
    before it and the text from it on are replaced apart. *)
Lemma replace_fences_split (s b : JSString) (c : N) :
  fence_unit c = false ->
  replace_fences (s ++ c :: b) = replace_fences s ++ c :: replace_fences b.
Proof.
  intros Hc.
  destruct (fence_unit_false c Hc) as [Hj Hf].
  remember (List.length s) as n eqn:Hn.
  revert s Hn; induction n as [n IH] using lt_wf_ind; intros s Hn.
  rewrite (replace_fences_eq (s ++ c :: b)), (replace_fences_eq s).
  rewrite (startsWith_behind fence_json s b c Hj) by discriminate.
  rewrite (startsWith_behind fence s b c Hf) by discriminate.
  destruct (startsWith fence_json s) eqn:E1.
  - apply startsWith_prefix in E1. simpl List.length in E1.
    assert (Hl : (7 <= List.length s)%nat).
    { rewrite E1, length_app; simpl; lia. }
    rewrite skipn_app.
    replace (7 - List.length s)%nat with 0%nat by lia. simpl skipn at 2.
    apply (IH (List.length (skipn 7 s))); [|reflexivity].
    rewrite length_skipn; lia.
  - destruct (startsWith fence s) eqn:E2.
    + apply startsWith_prefix in E2. simpl List.length in E2.
      assert (Hl : (3 <= List.length s)%nat).
      { rewrite E2, length_app; simpl; lia. }
      rewrite skipn_app.
      replace (3 - List.length s)%nat with 0%nat by lia. simpl skipn at 2.
      apply (IH (List.length (skipn 3 s))); [|reflexivity].
      rewrite length_skipn; lia.
    + destruct s as [|x s]; cbn [app].
      * reflexivity.
      * f_equal. apply (IH (List.length s)); [subst; simpl; lia|reflexivity].
Qed.

(** A backtick at the head of the replaced text was at the head of the
    text. *)
Lemma replace_fences_head (r t : JSString) :
  replace_fences r = backtick :: t -> exists r', r = backtick :: r'.
Proof.
  rewrite replace_fences_eq.
  destruct (startsWith fence_json r) eqn:E1.
  { apply startsWith_prefix in E1; rewrite E1; intros _; eexists; reflexivity. }
  destruct (startsWith fence r) eqn:E2.
  { apply startsWith_prefix in E2; rewrite E2; intros _; eexists; reflexivity. }
  destruct r as [|c r]; [discriminate|].
  intros H; injection H as -> _; eexists; reflexivity.
Qed.

Lemma replace_fences_head2 (r t : JSString) :
  replace_fences r = backtick :: backtick :: t ->
  exists r', r = backtick :: backtick :: r'.
Proof.
  rewrite replace_fences_eq.
  destruct (startsWith fence_json r) eqn:E1.
  { apply startsWith_prefix in E1; rewrite E1; intros _; eexists; reflexivity. }
  destruct (startsWith fence r) eqn:E2.
  { apply startsWith_prefix in E2; rewrite E2; intros _; eexists; reflexivity. }
  destruct r as [|c r]; [discriminate|].
  intros H; injection H as -> H.
  apply replace_fences_head in H as [r' ->]; eexists; reflexivity.
Qed.

(** After the replacement no fence is left in the text. *)
Lemma replace_fences_no_fence (s : JSString) :
  ~ occurs fence (replace_fences s).
Proof.
  remember (List.length s) as n eqn:Hn.
  revert s Hn; induction n as [n IH] using lt_wf_ind; intros s Hn.
  rewrite replace_fences_eq.
  destruct (startsWith fence_json s) eqn:E1.
  { apply startsWith_prefix in E1. simpl List.length in E1.
    apply (IH (List.length (skipn 7 s))); [|reflexivity].
    assert (7 <= List.length s)%nat by (rewrite E1, length_app; simpl; lia).
    rewrite length_skipn; lia. }
  destruct (startsWith fence s) eqn:E2.
  { apply startsWith_prefix in E2. simpl List.length in E2.
    apply (IH (List.length (skipn 3 s))); [|reflexivity].
    assert (3 <= List.length s)%nat by (rewrite E2, length_app; simpl; lia).
    rewrite length_skipn; lia. }
  destruct s as [|c r]; intros (a & b & H).
  - destruct a; discriminate.
  - destruct a as [|x a]; simpl in H.
    + injection H as -> H.
      apply replace_fences_head2 in H as [r' ->].
      simpl in E2; discriminate.
    + injection H as _ H.
      apply (IH (List.length r)) with (s := r); [subst; simpl; lia|reflexivity|].
      now exists a, b.
Qed.

Lemma occurs_fence_json (s : JSString) : occurs fence_json s -> occurs fence s.
Proof.
  intros (a & b & ->). exists a, ([106; 115; 111; 110] ++ b). reflexivity.
Qed.

(** ** Trimming *)

Lemma trimStart_white (w s : JSString) :
  forallb isWhiteSpace w = true -> trimStart (w ++ s) = trimStart s.
Proof.
  induction w as [|c w IH]; simpl; [reflexivity|].
  intros H; apply andb_true_iff in H as [-> Hw]; auto.
Qed.

Lemma trimStart_black (c : N) (s : JSString) :
  isWhiteSpace c = false -> trimStart (c :: s) = c :: s.
Proof. intros H; simpl; now rewrite H. Qed.

(** White space around a text that starts and ends with other code units is
    what [trim] takes away. *)
Lemma trim_around (w1 w2 m : JSString) (c d : N) :
  forallb isWhiteSpace w1 = true -> forallb isWhiteSpace w2 = true ->
  isWhiteSpace c = false -> isWhiteSpace d = false ->
  trim (w1 ++ (c :: m ++ [d]) ++ w2) = c :: m ++ [d].
Proof.
  intros H1 H2 Hc Hd. unfold trim, trimEnd.
  rewrite trimStart_white by assumption. cbn [app].
  rewrite trimStart_black by assumption.
  replace (c :: (m ++ [d]) ++ w2) with ((c :: m) ++ [d] ++ w2)
    by (simpl; now rewrite <- app_assoc).
  rewrite !rev_app_distr, <- app_assoc, trimStart_white.
  - simpl (rev [d]); cbn [app]. rewrite trimStart_black by assumption.
    change (d :: rev (c :: m)) with ([d] ++ rev (c :: m)).
    now rewrite rev_app_distr, rev_involutive.
  - rewrite forallb_forall in *. intros x Hx; apply H2.
    now apply in_rev.
Qed.

(** ** The brace pattern *)

Lemma upto_last_rbrace_none (s : JSString) :
  ~ In rbrace s -> upto_last_rbrace s = None.
Proof.
  induction s as [|c s IH]; intros H; simpl; [reflexivity|].
  rewrite IH by (intros Hin; apply H; now right).
  destruct (N.eqb_spec c rbrace) as [->|_]; [|reflexivity].
  exfalso; apply H; now left.
Qed.

Lemma upto_last_rbrace_app (m post : JSString) :
  ~ In rbrace post ->
  upto_last_rbrace (m ++ rbrace :: post) = Some (m ++ [rbrace]).
Proof.
  intros H; induction m as [|c m IH]; simpl.
  - now rewrite upto_last_rbrace_none.
  - now rewrite IH.
Qed.

Lemma upto_last_rbrace_some (s t : JSString) :
  upto_last_rbrace s = Some t ->
  exists m post, s = m ++ rbrace :: post /\ t = m ++ [rbrace]
                 /\ ~ In rbrace post.
Proof.
  revert t; induction s as [|c s IH]; intros t; simpl; [discriminate|].
  destruct (upto_last_rbrace s) as [t'|] eqn:E.
  - intros H; injection H as <-.
    destruct (IH t' eq_refl) as (m & post & -> & -> & Hp).
    now exists (c :: m), post.
  - destruct (N.eqb_spec c rbrace) as [->|_]; [|discriminate].
    intros H; injection H as <-.
    exists [], s; repeat split.
    intros Hin. clear IH.
    induction s as [|x s IHs]; [easy|].
    simpl in E. destruct (upto_last_rbrace s); [discriminate|].
    destruct (N.eqb_spec x rbrace); [discriminate|].
    destruct Hin as [->|Hin]; [congruence|auto].
Qed.

(** The match runs from the first opening brace to the last closing one. *)
Lemma match_braces_app (pre mid post : JSString) :
  ~ In lbrace pre -> ~ In rbrace post ->
  match_braces (pre ++ lbrace :: mid ++ rbrace :: post)
  = Some (lbrace :: mid ++ [rbrace]).
Proof.
  intros Hpre Hpost; induction pre as [|c pre IH]; simpl.
  - now rewrite upto_last_rbrace_app.
  - destruct (N.eqb_spec c lbrace) as [->|_].
    + exfalso; apply Hpre; now left.
    + apply IH; intros H; apply Hpre; now right.
Qed.

(** There is no match when no closing brace stands behind an opening one. *)
Lemma match_braces_none (s : JSString) :
  (forall pre mid post, s <> pre ++ lbrace :: mid ++ rbrace :: post) ->
  match_braces s = None.
Proof.
  induction s as [|c s IH]; intros H; simpl; [reflexivity|].
  destruct (N.eqb_spec c lbrace) as [->|_].
  - destruct (upto_last_rbrace s) as [t|] eqn:E; [|reflexivity].
    apply upto_last_rbrace_some in E as (m & post & -> & _ & _).
    now destruct (H [] m post).
  - apply IH; intros pre mid post ->.
    now apply (H (c :: pre) mid post).
Qed.

(** ** The fuel of the parser

    A call of the parser on a text needs fuel in proportion to the length of
    the text; beyond that, more fuel changes nothing.  So [JSON_parse] fails
    only on a text that is not a JSON value. *)

Lemma skip_ws_length (s : JSString) :
  (List.length (skip_ws s) <= List.length s)%nat.
Proof.
  induction s as [|c s IH]; simpl; [lia|].
  destruct (isJSONWhiteSpace c); simpl; lia.
Qed.

Lemma skip_ws_cons_length (s r : JSString) (c : N) :
  skip_ws s = c :: r -> (List.length r < List.length s)%nat.
Proof.
  intros H. pose proof (skip_ws_length s) as L. rewrite H in L.
  simpl in L. lia.
Qed.

Lemma string_chars_length (s : JSString) :
  forall t r, string_chars s = Some (t, r) ->
              (List.length r < List.length s)%nat.
Proof.
  remember (List.length s) as n eqn:Hn.
  revert s Hn; induction n as [n IH] using lt_wf_ind; intros s Hn t r.
  destruct s as [|c s]; [discriminate|].
  cbn [string_chars]. simpl in Hn.
  destruct (c =? 34).
  { intros H; injection H as _ <-. lia. }
  destruct (c =? 92).
  - destruct s as [|e r1]; [discriminate|].
    destruct (e =? 117).
    + destruct r1 as [|h1 [|h2 [|h3 [|h4 r5]]]]; try discriminate.
      destruct (hex4 h1 h2 h3 h4); [|discriminate].
      destruct (string_chars r5) as [[t' r']|] eqn:E; [|discriminate].
      intros H; injection H as _ <-. simpl in Hn.
      apply (IH (List.length r5)) with (s := r5) in E; [lia|lia|reflexivity].
    + destruct (escape e); [|discriminate].
      destruct (string_chars r1) as [[t' r']|] eqn:E; [|discriminate].
      intros H; injection H as _ <-. simpl in Hn.
      apply (IH (List.length r1)) with (s := r1) in E; [lia|lia|reflexivity].
  - destruct (c <? 32); [discriminate|].
    destruct (string_chars s) as [[t' r']|] eqn:E; [|discriminate].
    intros H; injection H as _ <-.
    apply (IH (List.length s)) with (s := s) in E; [lia|lia|reflexivity].
Qed.

Lemma span_digits_length (s : JSString) :
  forall ds r, span_digits s = (ds, r) ->
               (List.length ds + List.length r = List.length s)%nat.
Proof.
  induction s as [|c s IH]; intros ds r; simpl.
  - intros H; injection H as <- <-; reflexivity.
  - destruct (isDigit c).
    + destruct (span_digits s) as [ds' r'].
      intros H; injection H as <- <-.
      specialize (IH ds' r' eq_refl). simpl; lia.
    + intros H; injection H as <- <-; reflexivity.
Qed.

Lemma fraction_length (s : JSString) :
  forall ds r, fraction s = Some (ds, r) ->
               (List.length r <= List.length s)%nat.
Proof.
  intros ds r. unfold fraction. destruct s as [|c s].
  - intros H; injection H as _ <-; simpl; lia.
  - destruct (c =? 46).
    + destruct (span_digits s) as [ds' r'] eqn:E.
      apply span_digits_length in E.
      destruct ds'; [discriminate|].
      intros H; injection H as _ <-. simpl in *; lia.
    + intros H; injection H as _ <-; simpl; lia.
Qed.

Lemma exponent_length (s : JSString) :
  forall e r, exponent s = Some (e, r) ->
              (List.length r <= List.length s)%nat.
Proof.
  intros e r. unfold exponent. destruct s as [|c s].
  - intros H; injection H as _ <-; simpl; lia.
  - destruct ((c =? 101) || (c =? 69)).
    + assert (Hsign : forall neg r',
        match s with
        | sg :: r1 =>
            if sg =? 45 then (true, r1)
            else if sg =? 43 then (false, r1) else (false, s)
        | [] => (false, s)
        end = (neg, r') -> (List.length r' <= List.length s)%nat).
      { intros neg r'. destruct s as [|sg r1].
        - intros H; injection H as _ <-; simpl; lia.
        - destruct (sg =? 45); [intros H; injection H as _ <-; simpl; lia|].
          destruct (sg =? 43); intros H; injection H as _ <-; simpl; lia. }
      destruct (match s with [] => _ | _ :: _ => _ end) as [neg r'] eqn:Es.
      specialize (Hsign neg r' eq_refl).
      destruct (span_digits r') as [ds' r''] eqn:E.
      apply span_digits_length in E.
      destruct ds'; [discriminate|].
      intros H; injection H as _ <-. simpl in *; lia.
    + intros H; injection H as _ <-; simpl; lia.
Qed.

Lemma number_length (s : JSString) :
  forall q r, number s = Some (q, r) -> (List.length r < List.length s)%nat.
Proof.
  intros q r. unfold number.
  destruct (match s with [] => _ | _ :: _ => _ end) as [neg s1] eqn:Es.
  assert (Hs1 : (List.length s1 <= List.length s)%nat).
  { destruct s as [|c s]; [injection Es as _ <-; simpl; lia|].
    destruct (c =? 45); injection Es as _ <-; simpl; lia. }
  destruct (span_digits s1) as [ds s2] eqn:E.
  apply span_digits_length in E.
  destruct ds as [|d ds]; [discriminate|].
  assert (Hint : forall ids s3,
    (if d =? 0 then ([d], map (N.add 48) ds ++ s2) else (d :: ds, s2))
    = (ids, s3) -> (List.length s3 < List.length s1)%nat).
  { intros ids s3. destruct (d =? 0); intros H; injection H as _ <-.
    - rewrite length_app, length_map. simpl in E. lia.
    - simpl in E. lia. }
  destruct (if d =? 0 then _ else _) as [ids s3] eqn:Ei.
  specialize (Hint ids s3 eq_refl).
  destruct (fraction s3) as [[fds s4]|] eqn:Ef; [|discriminate].
  apply fraction_length in Ef.
  destruct (exponent s4) as [[e s5]|] eqn:Ee; [|discriminate].
  apply exponent_length in Ee.
  intros H; injection H as _ <-. lia.
Qed.

Ltac unfold_parser_in H :=
  cbn [parse_value parse_elements parse_members] in H.

Ltac unfold_parser_once f :=
  let g := fresh "g" in
  let Hg := fresh "Hg" in
  remember (S f) as g eqn:Hg;
  cbn [parse_value parse_elements parse_members];
  subst g.

(** The parser consumes what it reads. *)
Lemma parse_length (f : nat) :
  (forall s v r, parse_value f s = Some (v, r) ->
                 (List.length r < List.length s)%nat)
  /\ (forall acc s v r, parse_elements f acc s = Some (v, r) ->
                        (List.length r < List.length s)%nat)
  /\ (forall acc s v r, parse_members f acc s = Some (v, r) ->
                        (List.length r < List.length s)%nat).
Proof.
  induction f as [|f (IHv & IHe & IHm)];
    [repeat split; intros; discriminate|].
  split; [|split].
  - intros s v r H. unfold_parser_in H.
    destruct (skip_ws s) as [|c r0] eqn:Es; [discriminate|].
    apply skip_ws_cons_length in Es.
    destruct (c =? lbrace).
    { destruct (skip_ws r0) as [|c' r'] eqn:Es'; [discriminate|].
      apply skip_ws_cons_length in Es'.
      destruct (c' =? rbrace).
      - injection H as _ <-. lia.
      - apply IHm in H. lia. }
    destruct (c =? 91).
    { destruct (skip_ws r0) as [|c' r'] eqn:Es'; [discriminate|].
      apply skip_ws_cons_length in Es'.
      destruct (c' =? 93).
      - injection H as _ <-. lia.
      - apply IHe in H. lia. }
    destruct (c =? 34).
    { destruct (string_chars r0) as [[t rest]|] eqn:E; [|discriminate].
      apply string_chars_length in E. injection H as _ <-. lia. }
    destruct (startsWith kw_true (c :: r0)).
    { injection H as _ <-.
      change (List.length (skipn 3 r0) < List.length s)%nat.
      rewrite length_skipn. lia. }
    destruct (startsWith kw_false (c :: r0)).
    { injection H as _ <-.
      change (List.length (skipn 4 r0) < List.length s)%nat.
      rewrite length_skipn. lia. }
    destruct (startsWith kw_null (c :: r0)).
    { injection H as _ <-.
      change (List.length (skipn 3 r0) < List.length s)%nat.
      rewrite length_skipn. lia. }
    destruct (number (c :: r0)) as [[q rest]|] eqn:E; [|discriminate].
    apply number_length in E. injection H as _ <-. simpl in E. lia.
  - intros acc s v r H. unfold_parser_in H.
    destruct (parse_value f s) as [[v0 r0]|] eqn:E; [|discriminate].
    apply IHv in E.
    destruct (skip_ws r0) as [|c r'] eqn:Es; [discriminate|].
    apply skip_ws_cons_length in Es.
    destruct (c =? 44); [apply IHe in H; lia|].
    destruct (c =? 93); [|discriminate].
    injection H as _ <-. lia.
  - intros acc s v r H. unfold_parser_in H.
    destruct (skip_ws s) as [|c r0] eqn:Es; [discriminate|].
    apply skip_ws_cons_length in Es.
    destruct (c =? 34); [|discriminate].
    destruct (string_chars r0) as [[k r1]|] eqn:E; [|discriminate].
    apply string_chars_length in E.
    destruct (skip_ws r1) as [|c1 r2] eqn:Es1; [discriminate|].
    apply skip_ws_cons_length in Es1.
    destruct (c1 =? 58); [|discriminate].
    destruct (parse_value f r2) as [[v0 r3]|] eqn:Ev; [|discriminate].
    apply IHv in Ev.
    destruct (skip_ws r3) as [|c3 r4] eqn:Es3; [discriminate|].
    apply skip_ws_cons_length in Es3.
    destruct (c3 =? 44); [apply IHm in H; lia|].
    destruct (c3 =? rbrace); [|discriminate].
    injection H as _ <-. lia.
Qed.

(** A result obtained with some fuel is obtained with more. *)
Lemma parse_fuel_more (f : nat) :
  (forall s r, parse_value f s = Some r -> parse_value (S f) s = Some r)
  /\ (forall acc s r, parse_elements f acc s = Some r ->
                      parse_elements (S f) acc s = Some r)
  /\ (forall acc s r, parse_members f acc s = Some r ->
                      parse_members (S f) acc s = Some r).
Proof.
  induction f as [|f (IHv & IHe & IHm)];
    [repeat split; intros; discriminate|].
  split; [|split].
  - intros s r H. unfold_parser_in H. unfold_parser_once f.
    destruct (skip_ws s) as [|c r0]; [discriminate|].
    destruct (c =? lbrace).
    { destruct (skip_ws r0) as [|c' r']; [discriminate|].
      destruct (c' =? rbrace); [assumption|now apply IHm]. }
    destruct (c =? 91).
    { destruct (skip_ws r0) as [|c' r']; [discriminate|].
      destruct (c' =? 93); [assumption|now apply IHe]. }
    assumption.
  - intros acc s r H. unfold_parser_in H. unfold_parser_once f.
    destruct (parse_value f s) as [[v0 r0]|] eqn:E; [|discriminate].
    rewrite (IHv _ _ E).
    destruct (skip_ws r0) as [|c r']; [discriminate|].
    destruct (c =? 44); [now apply IHe|assumption].
  - intros acc s r H. unfold_parser_in H. unfold_parser_once f.
    destruct (skip_ws s) as [|c r0]; [discriminate|].
    destruct (c =? 34); [|discriminate].
    destruct (string_chars r0) as [[k r1]|]; [|discriminate].
    destruct (skip_ws r1) as [|c1 r2]; [discriminate|].
    destruct (c1 =? 58); [|discriminate].
    destruct (parse_value f r2) as [[v0 r3]|] eqn:Ev; [|discriminate].
    rewrite (IHv _ _ Ev).
    destruct (skip_ws r3) as [|c3 r4]; [discriminate|].
    destruct (c3 =? 44); [now apply IHm|assumption].
Qed.

(** A failure with fuel in proportion to the text stays a failure. *)
Lemma parse_fuel_fails (f : nat) :
  (forall s, (2 * List.length s + 1 <= f)%nat ->
             parse_value f s = None -> parse_value (S f) s = None)
  /\ (forall acc s, (2 * List.length s + 2 <= f)%nat ->
                    parse_elements f acc s = None ->
                    parse_elements (S f) acc s = None)
  /\ (forall acc s, (2 * List.length s + 2 <= f)%nat ->
                    parse_members f acc s = None ->
                    parse_members (S f) acc s = None).
Proof.
  induction f as [|f (IHv & IHe & IHm)]; [repeat split; intros; lia|].
  destruct (parse_length f) as (Lv & Le & Lm).
  destruct (parse_fuel_more f) as (Mv & Me & Mm).
  split; [|split].
  - intros s Hf H. unfold_parser_in H. unfold_parser_once f.
    destruct (skip_ws s) as [|c r0] eqn:Es; [reflexivity|].
    apply skip_ws_cons_length in Es.
    destruct (c =? lbrace).
    { destruct (skip_ws r0) as [|c' r']; [reflexivity|].
      destruct (c' =? rbrace); [discriminate|]. apply IHm; [lia|assumption]. }
    destruct (c =? 91).
    { destruct (skip_ws r0) as [|c' r']; [reflexivity|].
      destruct (c' =? 93); [discriminate|]. apply IHe; [lia|assumption]. }
    assumption.
  - intros acc s Hf H. unfold_parser_in H. unfold_parser_once f.
    destruct (parse_value f s) as [[v0 r0]|] eqn:E.
    + rewrite (Mv _ _ E). apply Lv in E.
      destruct (skip_ws r0) as [|c r'] eqn:Es; [reflexivity|].
      apply skip_ws_cons_length in Es.
      destruct (c =? 44); [apply IHe; [lia|assumption]|assumption].
    + rewrite IHv; [reflexivity|lia|assumption].
  - intros acc s Hf H. unfold_parser_in H. unfold_parser_once f.
    destruct (skip_ws s) as [|c r0] eqn:Es; [reflexivity|].
    apply skip_ws_cons_length in Es.
    destruct (c =? 34); [|reflexivity].
    destruct (string_chars r0) as [[k r1]|] eqn:Ek; [|reflexivity].
    apply string_chars_length in Ek.
    destruct (skip_ws r1) as [|c1 r2] eqn:Es1; [reflexivity|].
    apply skip_ws_cons_length in Es1.
    destruct (c1 =? 58); [|reflexivity].
    destruct (parse_value f r2) as [[v0 r3]|] eqn:Ev.
    + rewrite (Mv _ _ Ev). apply Lv in Ev.
      destruct (skip_ws r3) as [|c3 r4] eqn:Es3; [reflexivity|].
      apply skip_ws_cons_length in Es3.
      destruct (c3 =? 44); [apply IHm; [lia|assumption]|assumption].
    + rewrite IHv; [reflexivity|lia|assumption].
Qed.

(** The fuel [JSON_parse] gives is enough: with more, [parse_value] yields
    the same on the same text. *)
Lemma parse_value_fuel (s : JSString) (f : nat) :
  (2 * List.length s + 2 <= f)%nat ->
  parse_value f s = parse_value (2 * List.length s + 2) s.
Proof.
  intros H. induction H as [|f H IH]; [reflexivity|].
  rewrite <- IH.
  destruct (parse_value f s) as [r|] eqn:E.
  - now apply (parse_fuel_more f).
  - apply (parse_fuel_fails f); [lia|assumption].
Qed.

Lemma JSON_parse_fuel (s : JSString) (f : nat) :
  (2 * List.length s + 2 <= f)%nat ->
  JSON_parse s
  = match parse_value f s with
    | Some (v, r) => match skip_ws r with [] => Some v | _ :: _ => None end
    | None => None
    end.
Proof. intros H. unfold JSON_parse. now rewrite (parse_value_fuel s f H). Qed.

(** What [JSON.parse] accepts and what it rejects, on small texts. *)
Example JSON_parse_nested :
  JSON_parse (lit "{ " ++ quoted (lit "a") ++ lit " : [1, -2.5e1, true, null,"
              ++ quoted (lit "é\n") ++ lit "] }")
  = Some (JObject [(lit "a",
                    JArray [JNumber (inject_Z 1); JNumber (inject_Z (-25));
                            JBool true; JNull; JString [233; 10]])]).
Proof. vm_compute; reflexivity. Qed.

Example JSON_parse_repeated_key :
  JSON_parse (lit "{" ++ quoted (lit "a") ++ lit ":1," ++ quoted (lit "b")
              ++ lit ":2," ++ quoted (lit "a") ++ lit ":3}")
  = Some (JObject [(lit "a", JNumber (inject_Z 3));
                   (lit "b", JNumber (inject_Z 2))]).
Proof. vm_compute; reflexivity. Qed.

Example JSON_parse_rejects :
  JSON_parse (lit "{a}") = None
  /\ JSON_parse (lit "[1,]") = None
  /\ JSON_parse (lit "01") = None
  /\ JSON_parse (lit "1.") = None
  /\ JSON_parse (lit "{} x") = None
  /\ JSON_parse (lit "'a'") = None
  /\ JSON_parse [] = None.
Proof. repeat split; vm_compute; reflexivity. Qed.

(** ** Reading literals *)

Lemma plain_inv (c : N) :
  plain c = true -> (c =? 34) = false /\ (c =? 92) = false /\ (c <? 32) = false.
Proof.
  unfold plain; intros H.
  apply andb_true_iff in H as [H H92]; apply andb_true_iff in H as [H32 H34].
  apply negb_true_iff in H92, H34. apply N.leb_le in H32.
  repeat split; try assumption. apply N.ltb_ge; assumption.
Qed.

Lemma string_chars_plain (s rest : JSString) :
  forallb plain s = true ->
  string_chars (s ++ 34 :: rest) = Some (s, rest).
Proof.
  induction s as [|c s IH]; intros H; [reflexivity|].
  apply andb_true_iff in H as [Hc Hs].
  destruct (plain_inv c Hc) as (H34 & H92 & H32).
  simpl; rewrite H34, H92, H32, (IH Hs); reflexivity.
Qed.

Lemma skip_ws_black (c : N) (s : JSString) :
  isJSONWhiteSpace c = false -> skip_ws (c :: s) = c :: s.
Proof. intros H; simpl; now rewrite H. Qed.

Lemma skip_ws_white (w s : JSString) :
  white w = true -> skip_ws (w ++ s) = skip_ws s.
Proof.
  induction w as [|c w IH]; intros H; [reflexivity|].
  cbn [white forallb] in H. apply andb_true_iff in H as [Hc Hw].
  cbn [app skip_ws]. rewrite Hc. now apply IH.
Qed.

Lemma join_cons2 (sep x y : JSString) (l : list JSString) :
  join sep (x :: y :: l) = x ++ sep ++ join sep (y :: l).
Proof. reflexivity. Qed.

(** What a string literal is read to does not depend on the text behind
    its closing quote. *)
Lemma string_chars_app (s rest : JSString) :
  forall v r,
    string_chars s = Some (v, r) -> string_chars (s ++ rest) = Some (v, r ++ rest).
Proof.
  remember (List.length s) as n eqn:Hn. revert s Hn.
  induction n as [n IH] using lt_wf_ind. intros s Hn v r H.
  destruct s as [|c s]; [discriminate|].
  cbn [string_chars app] in *.
  destruct (c =? 34).
  { injection H as <- <-. reflexivity. }
  destruct (c =? 92).
  - destruct s as [|e s]; [discriminate|]. cbn [app].
    destruct (e =? 117).
    + destruct s as [|h1 [|h2 [|h3 [|h4 s]]]]; try discriminate. cbn [app].
      destruct (hex4 h1 h2 h3 h4); [|discriminate].
      destruct (string_chars s) as [[t r']|] eqn:E; [|discriminate].
      cbn [cons_fst] in H. injection H as <- <-.
      rewrite (IH (List.length s)) with (v := t) (r := r');
        [reflexivity|subst n; simpl; lia|reflexivity|exact E].
    + destruct (escape e); [|discriminate].
      destruct (string_chars s) as [[t r']|] eqn:E; [|discriminate].
      cbn [cons_fst] in H. injection H as <- <-.
      rewrite (IH (List.length s)) with (v := t) (r := r');
        [reflexivity|subst n; simpl; lia|reflexivity|exact E].
  - destruct (c <? 32); [discriminate|].
    destruct (string_chars s) as [[t r']|] eqn:E; [|discriminate].
    cbn [cons_fst] in H. injection H as <- <-.
    rewrite (IH (List.length s)) with (v := t) (r := r');
      [reflexivity|subst n; simpl; lia|reflexivity|exact E].
Qed.

(** A string literal between its quotes is read to its value. *)
Lemma string_chars_literal (t rest : JSString) :
  string_ok t = true ->
  string_chars (t ++ 34 :: rest) = Some (string_value t, rest).
Proof.
  unfold string_ok, string_value, dq. intros H.
  destruct (string_chars (t ++ [34])) as [[v r]|] eqn:E; [|discriminate].
  destruct r; [|discriminate].
  apply (string_chars_app _ rest) in E.
  rewrite <- app_assoc in E. exact E.
Qed.

(** A literal without escapes denotes its own text. *)
Lemma string_value_plain (t : JSString) :
  forallb plain t = true -> string_ok t = true /\ string_value t = t.
Proof.
  intros H. unfold string_ok, string_value, dq.
  rewrite (string_chars_plain t [] H). split; reflexivity.
Qed.

(** *** Numerals *)

Lemma delimited_inv (rest : JSString) :
  delimited rest = true ->
  match rest with
  | [] => True
  | c :: _ =>
      isDigit c = false /\ (c =? 46) = false /\ (c =? 101) = false
      /\ (c =? 69) = false
  end.
Proof.
  destruct rest as [|c rest]; [trivial|]. cbn [delimited]. intros H.
  apply andb_true_iff in H as [H H69]. apply andb_true_iff in H as [H H101].
  apply andb_true_iff in H as [Hd H46].
  apply negb_true_iff in H69, H101, H46, Hd. tauto.
Qed.

Lemma span_digits_app (s rest : JSString) :
  delimited rest = true ->
  span_digits (s ++ rest)
  = (fst (span_digits s), snd (span_digits s) ++ rest).
Proof.
  intros Hrest. apply delimited_inv in Hrest.
  induction s as [|c s IH].
  - destruct rest as [|c rest]; [reflexivity|].
    destruct Hrest as (Hd & _). cbn [app span_digits]. now rewrite Hd.
  - cbn [app span_digits]. destruct (isDigit c); [|reflexivity].
    rewrite IH. now destruct (span_digits s).
Qed.

Lemma fraction_app (s rest : JSString) (fds : list N) (r : JSString) :
  delimited rest = true ->
  fraction s = Some (fds, r) -> fraction (s ++ rest) = Some (fds, r ++ rest).
Proof.
  intros Hrest H. destruct s as [|c s].
  - injection H as <- <-. pose proof (delimited_inv rest Hrest) as Hd.
    destruct rest as [|c rest]; [reflexivity|].
    destruct Hd as (_ & H46 & _). cbn [app fraction]. now rewrite H46.
  - cbn [app fraction] in *. destruct (c =? 46).
    + rewrite span_digits_app by assumption.
      destruct (span_digits s) as [[|d ds] r']; [discriminate|].
      cbn [fst snd]. now injection H as <- <-.
    + now injection H as <- <-.
Qed.

Lemma exponent_app (s rest : JSString) (e : Z) (r : JSString) :
  delimited rest = true ->
  exponent s = Some (e, r) -> exponent (s ++ rest) = Some (e, r ++ rest).
Proof.
  intros Hrest H. destruct s as [|c s].
  - injection H as <- <-. pose proof (delimited_inv rest Hrest) as Hd.
    destruct rest as [|c rest]; [reflexivity|].
    destruct Hd as (_ & _ & H101 & H69). cbn [app exponent].
    now rewrite H101, H69.
  - cbn [app exponent] in *. destruct ((c =? 101) || (c =? 69)).
    + destruct s as [|sg s].
      * cbn [span_digits] in H. discriminate H.
      * cbn [app]. destruct (sg =? 45).
        -- rewrite span_digits_app by assumption.
           destruct (span_digits s) as [[|d ds] r']; [discriminate|].
           cbn [fst snd]. now injection H as <- <-.
        -- destruct (sg =? 43).
           ++ rewrite span_digits_app by assumption.
              destruct (span_digits s) as [[|d ds] r']; [discriminate|].
              cbn [fst snd]. now injection H as <- <-.
           ++ change (sg :: s ++ rest) with ((sg :: s) ++ rest).
              rewrite span_digits_app by assumption.
              destruct (span_digits (sg :: s)) as [[|d ds] r'];
                [discriminate|].
              cbn [fst snd]. now injection H as <- <-.
    + now injection H as <- <-.
Qed.

(** What a numeral is read to does not depend on the text behind it, when
    that text does not continue the numeral. *)
Lemma number_app (s rest : JSString) (x : Number) (r : JSString) :
  delimited rest = true ->
  number s = Some (x, r) -> number (s ++ rest) = Some (x, r ++ rest).
Proof.
  intros Hrest H.
  assert (Hbody : forall (neg : bool) (s1 : JSString),
    match span_digits s1 with
    | ([], _) => None
    | (d :: ds, s2) =>
        let int_part := if d =? 0 then ([d], map (N.add 48) ds ++ s2)
                        else (d :: ds, s2) in
        let '(ids, s3) := int_part in
        match fraction s3 with
        | None => None
        | Some (fds, s4) =>
            match exponent s4 with
            | None => None
            | Some (e, s5) =>
                Some (decimal_Number neg (ids ++ fds)
                        (e - Z.of_nat (List.length fds)), s5)
            end
        end
    end = Some (x, r) ->
    match span_digits (s1 ++ rest) with
    | ([], _) => None
    | (d :: ds, s2) =>
        let int_part := if d =? 0 then ([d], map (N.add 48) ds ++ s2)
                        else (d :: ds, s2) in
        let '(ids, s3) := int_part in
        match fraction s3 with
        | None => None
        | Some (fds, s4) =>
            match exponent s4 with
            | None => None
            | Some (e, s5) =>
                Some (decimal_Number neg (ids ++ fds)
                        (e - Z.of_nat (List.length fds)), s5)
            end
        end
    end = Some (x, r ++ rest)).
  { intros neg s1 H1. rewrite span_digits_app by assumption.
    destruct (span_digits s1) as [[|d ds] s2]; [discriminate|].
    cbn [fst snd]. cbv zeta in *.
    destruct (d =? 0).
    - rewrite app_assoc.
      destruct (fraction (map (N.add 48) ds ++ s2)) as [[fds s4]|] eqn:Ef;
        [|discriminate].
      rewrite (fraction_app _ rest fds s4 Hrest Ef).
      destruct (exponent s4) as [[e s5]|] eqn:Ee; [|discriminate].
      rewrite (exponent_app _ rest e s5 Hrest Ee).
      now injection H1 as <- <-.
    - destruct (fraction s2) as [[fds s4]|] eqn:Ef; [|discriminate].
      rewrite (fraction_app _ rest fds s4 Hrest Ef).
      destruct (exponent s4) as [[e s5]|] eqn:Ee; [|discriminate].
      rewrite (exponent_app _ rest e s5 Hrest Ee).
      now injection H1 as <- <-. }
  unfold number in *. destruct s as [|c s].
  - cbn [span_digits] in H. discriminate H.
  - cbn [app]. destruct (c =? 45).
    + now apply Hbody.
    + change (c :: s ++ rest) with ((c :: s) ++ rest). now apply Hbody.
Qed.

(** A numeral is read to its value. *)
Lemma number_numeral (t rest : JSString) :
  number_ok t = true -> delimited rest = true ->
  number (t ++ rest) = Some (number_value t, rest).
Proof.
  unfold number_ok, number_value. intros H Hrest.
  destruct (number t) as [[x r]|] eqn:E; [|discriminate].
  destruct r; [|discriminate].
  exact (number_app t rest x [] Hrest E).
Qed.

(** A numeral starts with a minus sign or a digit. *)
Lemma number_head (s : JSString) (x : Number) (r : JSString) :
  number s = Some (x, r) ->
  exists c s', s = c :: s' /\ (c = 45 \/ isDigit c = true).
Proof.
  unfold number. destruct s as [|c s].
  - cbn [span_digits]. discriminate.
  - intros H. exists c, s. split; [reflexivity|].
    destruct (N.eqb_spec c 45) as [->|_]; [now left|right].
    cbn [span_digits] in H. destruct (isDigit c); [reflexivity|discriminate].
Qed.

(** The code units of a numeral. *)
Lemma span_digits_text (s : JSString) :
  s = map (N.add 48) (fst (span_digits s)) ++ snd (span_digits s)
  /\ forallb isDigit (map (N.add 48) (fst (span_digits s))) = true.
Proof.
  induction s as [|c s [IH1 IH2]]; [split; reflexivity|].
  cbn [span_digits]. destruct (isDigit c) eqn:Hc; [|split; reflexivity].
  destruct (span_digits s) as [ds r]. cbn [fst snd map app forallb] in *.
  assert (E : 48 + (c - 48) = c).
  { unfold isDigit in Hc. apply andb_true_iff in Hc as [H _].
    apply N.leb_le in H. lia. }
  rewrite E, Hc. split; [now f_equal|exact IH2].
Qed.

Lemma digit_no_backtick (u : JSString) :
  forallb isDigit u = true -> ~ In backtick u.
Proof.
  rewrite forallb_forall. intros H Hin. specialize (H _ Hin).
  discriminate H.
Qed.

Lemma fraction_text (s : JSString) (fds : list N) (r : JSString) :
  fraction s = Some (fds, r) -> exists u, s = u ++ r /\ ~ In backtick u.
Proof.
  destruct s as [|c s]; cbn [fraction].
  - intros H. injection H as <- <-. exists []. split; [reflexivity|intros []].
  - destruct (N.eqb_spec c 46) as [->|_].
    + destruct (span_digits_text s) as [E1 E2].
      destruct (span_digits s) as [[|d ds] r']; [discriminate|].
      intros H. injection H as <- <-. cbn [fst snd] in *.
      exists (46 :: map (N.add 48) (d :: ds)). split.
      * cbn [app]. now f_equal.
      * intros [H|H]; [discriminate H|].
        exact (digit_no_backtick _ E2 H).
    + intros H. injection H as <- <-. exists [].
      split; [reflexivity|intros []].
Qed.

Lemma exponent_text (s : JSString) (e : Z) (r : JSString) :
  exponent s = Some (e, r) -> exists u, s = u ++ r /\ ~ In backtick u.
Proof.
  destruct s as [|c s]; cbn [exponent].
  - intros H. injection H as <- <-. exists []. split; [reflexivity|intros []].
  - destruct ((c =? 101) || (c =? 69)) eqn:Ec.
    + assert (Hc : c <> backtick).
      { intros ->. discriminate Ec. }
      destruct s as [|sg s].
      * cbn [span_digits]. discriminate.
      * destruct (N.eqb_spec sg 45) as [->|_];
          [|destruct (N.eqb_spec sg 43) as [->|_]].
        -- destruct (span_digits_text s) as [E1 E2].
           destruct (span_digits s) as [[|d ds] r']; [discriminate|].
           intros H. injection H as _ <-. cbn [fst snd] in *.
           exists (c :: 45 :: map (N.add 48) (d :: ds)). split.
           ++ cbn [app]. now do 2 f_equal.
           ++ intros [H|[H|H]]; [exact (Hc H)|discriminate H|].
              exact (digit_no_backtick _ E2 H).
        -- destruct (span_digits_text s) as [E1 E2].
           destruct (span_digits s) as [[|d ds] r']; [discriminate|].
           intros H. injection H as _ <-. cbn [fst snd] in *.
           exists (c :: 43 :: map (N.add 48) (d :: ds)). split.
           ++ cbn [app]. now do 2 f_equal.
           ++ intros [H|[H|H]]; [exact (Hc H)|discriminate H|].
              exact (digit_no_backtick _ E2 H).
        -- destruct (span_digits_text (sg :: s)) as [E1 E2].
           destruct (span_digits (sg :: s)) as [[|d ds] r']; [discriminate|].
           intros H. injection H as _ <-. cbn [fst snd] in *.
           exists (c :: map (N.add 48) (d :: ds)). split.
           ++ cbn [app]. now f_equal.
           ++ intros [H|H]; [exact (Hc H)|].
              exact (digit_no_backtick _ E2 H).
    + intros H. injection H as <- <-. exists [].
      split; [reflexivity|intros []].
Qed.

(** There is no backtick in what is read as a number. *)
Lemma number_text (s : JSString) (x : Number) (r : JSString) :
  number s = Some (x, r) -> exists u, s = u ++ r /\ ~ In backtick u.
Proof.
  assert (Hbody : forall (neg : bool) (s1 : JSString),
    match span_digits s1 with
    | ([], _) => None
    | (d :: ds, s2) =>
        let int_part := if d =? 0 then ([d], map (N.add 48) ds ++ s2)
                        else (d :: ds, s2) in
        let '(ids, s3) := int_part in
        match fraction s3 with
        | None => None
        | Some (fds, s4) =>
            match exponent s4 with
            | None => None
            | Some (e, s5) =>
                Some (decimal_Number neg (ids ++ fds)
                        (e - Z.of_nat (List.length fds)), s5)
            end
        end
    end = Some (x, r) ->
    exists u, s1 = u ++ r /\ ~ In backtick u).
  { intros neg s1. destruct (span_digits_text s1) as [E1 E2].
    destruct (span_digits s1) as [[|d ds] s2]; [discriminate|].
    cbn [fst snd] in *. cbv zeta.
    assert (Hint : exists u3 s3,
      s1 = u3 ++ s3 /\ ~ In backtick u3
      /\ (if d =? 0 then ([d], map (N.add 48) ds ++ s2) else (d :: ds, s2))
         = (if d =? 0 then [d] else d :: ds, s3)).
    { destruct (d =? 0).
      - exists [48 + d], (map (N.add 48) ds ++ s2).
        split; [exact E1|]. split; [|reflexivity].
        cbn [map forallb] in E2. apply andb_true_iff in E2 as [E2 _].
        intros [H|[]]. rewrite H in E2. discriminate E2.
      - exists (map (N.add 48) (d :: ds)), s2.
        split; [exact E1|]. split; [|reflexivity].
        now apply digit_no_backtick. }
    destruct Hint as (u3 & s3 & Hs1 & Hu3 & ->).
    destruct (fraction s3) as [[fds s4]|] eqn:Ef; [|discriminate].
    destruct (fraction_text _ _ _ Ef) as (u4 & Hs3 & Hu4).
    destruct (exponent s4) as [[e s5]|] eqn:Ee; [|discriminate].
    destruct (exponent_text _ _ _ Ee) as (u5 & Hs4 & Hu5).
    intros H. injection H as _ <-.
    exists (u3 ++ u4 ++ u5). split.
    - rewrite Hs1, Hs3, Hs4. now rewrite <- !app_assoc.
    - intros H. apply in_app_or in H as [H|H]; [now apply Hu3|].
      apply in_app_or in H as [H|H]; [now apply Hu4|now apply Hu5]. }
  unfold number. destruct s as [|c s].
  - cbn [span_digits]. discriminate.
  - destruct (N.eqb_spec c 45) as [->|_].
    + intros H. destruct (Hbody _ _ H) as (u & -> & Hu).
      exists (45 :: u). split; [reflexivity|].
      intros [E|E]; [discriminate E|now apply Hu].
    + apply Hbody.
Qed.

Lemma number_ok_no_backtick (t : JSString) :
  number_ok t = true -> ~ In backtick t.
Proof.
  unfold number_ok. destruct (number t) as [[x r]|] eqn:E; [|discriminate].
  destruct r; [|discriminate]. intros _.
  destruct (number_text _ _ _ E) as (u & Hu & Hbt).
  rewrite app_nil_r in Hu. now subst u.
Qed.

(** *** The parser at the head of a value *)

Lemma parse_value_white (f : nat) (w s : JSString) :
  white w = true -> parse_value f (w ++ s) = parse_value f s.
Proof.
  intros Hw. destruct f as [|f]; [reflexivity|].
  cbn [parse_value]. now rewrite skip_ws_white.
Qed.

Lemma parse_value_string (f : nat) (t rest : JSString) :
  string_ok t = true ->
  parse_value (S f) (34 :: t ++ 34 :: rest)
  = Some (JString (string_value t), rest).
Proof.
  intros H. cbn [parse_value]. rewrite skip_ws_black by reflexivity.
  change (34 =? lbrace) with false; change (34 =? 91) with false;
    change (34 =? 34) with true; cbv iota.
  now rewrite string_chars_literal.
Qed.

Lemma parse_value_number (f : nat) (c : N) (r : JSString) :
  c = 45 \/ isDigit c = true ->
  parse_value (S f) (c :: r)
  = match number (c :: r) with
    | Some (x, rest) => Some (JNumber x, rest)
    | None => None
    end.
Proof.
  intros H.
  assert (Hc : c = 45 \/ (48 <= c /\ c <= 57)).
  { destruct H as [H|H]; [now left|right].
    unfold isDigit in H. apply andb_true_iff in H as [H1 H2].
    apply N.leb_le in H1, H2. split; assumption. }
  cbn [parse_value].
  assert (Hws : isJSONWhiteSpace c = false).
  { unfold isJSONWhiteSpace.
    repeat (apply orb_false_iff; split); apply N.eqb_neq; lia. }
  rewrite skip_ws_black by assumption.
  unfold lbrace, kw_true, kw_false, kw_null. cbn [startsWith].
  repeat match goal with
         | |- context [?a =? ?b] =>
             let E := fresh in
             assert (E : (a =? b) = false) by (apply N.eqb_neq; lia);
             rewrite E; clear E
         end.
  reflexivity.
Qed.

Lemma parse_value_numeral (f : nat) (t rest : JSString) :
  number_ok t = true -> delimited rest = true ->
  parse_value (S f) (t ++ rest) = Some (JNumber (number_value t), rest).
Proof.
  intros Hok Hrest.
  pose proof (number_numeral t rest Hok Hrest) as Hn.
  destruct (number_head _ _ _ Hn) as (c & s' & Hs & Hc).
  rewrite Hs in *. rewrite parse_value_number by assumption.
  now rewrite Hn.
Qed.

(** ** Setting the properties of an object *)

Lemma has_key_In (k : JSString) (l : list (JSString * json)) :
  has_key k l = true <-> In k (map fst l).
Proof.
  unfold has_key. rewrite existsb_exists. split.
  - intros ([k' v] & Hin & E). apply str_eqb_eq in E. cbn [fst] in E.
    subst k'. now apply (in_map fst l (k, v)).
  - intros H. apply in_map_iff in H as ([k' v] & E & Hin).
    cbn [fst] in E. subst k'. exists (k, v). split; [assumption|].
    apply str_eqb_refl.
Qed.

Lemma has_key_cons (k k0 : JSString) (v0 : json)
  (l : list (JSString * json)) :
  has_key k ((k0, v0) :: l) = str_eqb k k0 || has_key k l.
Proof. reflexivity. Qed.

Lemma own_props_has_key (k : JSString) (l : list (JSString * json)) :
  has_key k l = false -> own_props k l = None.
Proof.
  induction l as [|[k0 v0] l IH]; [reflexivity|].
  rewrite has_key_cons. intros H. apply orb_false_iff in H as [H1 H2].
  cbn [own_props]. rewrite H1. now apply IH.
Qed.

Lemma own_props_replace_value (k k' : JSString) (v : json)
  (l : list (JSString * json)) :
  has_key k' l = true ->
  own_props k (replace_value k' v l)
  = if str_eqb k k' then Some v else own_props k l.
Proof.
  induction l as [|[k0 v0] l IH]; [discriminate|].
  rewrite has_key_cons. intros H. cbn [replace_value].
  destruct (str_eqb k' k0) eqn:E.
  - apply str_eqb_eq in E. subst k0. cbn [own_props].
    now destruct (str_eqb k k').
  - cbn [orb] in H. cbn [own_props]. rewrite (IH H).
    destruct (str_eqb k k0) eqn:E0; [|reflexivity].
    apply str_eqb_eq in E0. subst k0.
    destruct (str_eqb k k') eqn:E1; [|reflexivity].
    apply str_eqb_eq in E1. subst k'. now rewrite str_eqb_refl in E.
Qed.

Lemma own_props_insert_index (n : N) (k k' : JSString) (v : json)
  (l : list (JSString * json)) :
  has_key k' l = false ->
  own_props k (insert_index n k' v l)
  = if str_eqb k k' then Some v else own_props k l.
Proof.
  induction l as [|[k0 v0] l IH]; [reflexivity|].
  rewrite has_key_cons. intros H. apply orb_false_iff in H as [H1 H2].
  cbn [insert_index].
  destruct (array_index k0) as [n'|]; [destruct (n <? n')|];
    try reflexivity.
  cbn [own_props]. rewrite (IH H2).
  destruct (str_eqb k k0) eqn:E0; [|reflexivity].
  apply str_eqb_eq in E0. subst k0.
  destruct (str_eqb k k') eqn:E1; [|reflexivity].
  apply str_eqb_eq in E1. subst k'. now rewrite str_eqb_refl in H1.
Qed.

Lemma own_props_app (k : JSString) (l r : list (JSString * json)) :
  own_props k (l ++ r)
  = match own_props k l with
    | Some v => Some v
    | None => own_props k r
    end.
Proof.
  induction l as [|[k0 v0] l IH]; [reflexivity|].
  cbn [app own_props]. now destruct (str_eqb k k0).
Qed.

(** Reading a property after setting one. *)
Lemma own_props_obj_set (k k' : JSString) (v : json)
  (l : list (JSString * json)) :
  own_props k (obj_set k' v l)
  = if str_eqb k k' then Some v else own_props k l.
Proof.
  unfold obj_set. destruct (has_key k' l) eqn:E.
  - now apply own_props_replace_value.
  - destruct (array_index k') as [n|].
    + now apply own_props_insert_index.
    + rewrite own_props_app. cbn [own_props].
      destruct (str_eqb k k') eqn:E1.
      * apply str_eqb_eq in E1. subst k'.
        now rewrite (own_props_has_key k l E).
      * now destruct (own_props k l).
Qed.

(** A new key that is no array index goes to the end. *)
Lemma obj_set_fresh (k : JSString) (v : json) (l : list (JSString * json)) :
  ~ In k (map fst l) -> array_index k = None ->
  obj_set k v l = l ++ [(k, v)].
Proof.
  intros H Hi. unfold obj_set.
  destruct (has_key k l) eqn:E.
  - apply has_key_In in E. contradiction.
  - now rewrite Hi.
Qed.

Lemma replace_value_keys (k : JSString) (v : json)
  (l : list (JSString * json)) :
  map fst (replace_value k v l) = map fst l.
Proof.
  induction l as [|[k0 v0] l IH]; [reflexivity|].
  cbn [replace_value]. destruct (str_eqb k k0); cbn [map fst];
    [reflexivity|now rewrite IH].
Qed.

Lemma insert_index_keys (n : N) (k : JSString) (v : json)
  (l : list (JSString * json)) :
  exists a b, map fst l = a ++ b
              /\ map fst (insert_index n k v l) = a ++ k :: b.
Proof.
  induction l as [|[k0 v0] l (a & b & E1 & E2)].
  - exists [], []. split; reflexivity.
  - cbn [insert_index].
    destruct (array_index k0) as [n'|]; [destruct (n <? n')|].
    + exists [], (k0 :: map fst l). split; reflexivity.
    + exists (k0 :: a), b. cbn [map fst app]. rewrite E1, E2.
      split; reflexivity.
    + exists [], (k0 :: map fst l). split; reflexivity.
Qed.

(** The keys after setting one: those there were, and the new one once. *)
Lemma obj_set_keys (k : JSString) (v : json) (l : list (JSString * json)) :
  (has_key k l = true /\ map fst (obj_set k v l) = map fst l)
  \/ (has_key k l = false
      /\ exists a b, map fst l = a ++ b
                     /\ map fst (obj_set k v l) = a ++ k :: b).
Proof.
  unfold obj_set. destruct (has_key k l) eqn:E.
  - left. split; [reflexivity|apply replace_value_keys].
  - right. split; [reflexivity|].
    destruct (array_index k) as [n|].
    + apply insert_index_keys.
    + exists (map fst l), []. rewrite map_app, app_nil_r.
      split; reflexivity.
Qed.

Lemma distinct_NoDup (l : list JSString) : distinct l = true -> NoDup l.
Proof.
  induction l as [|k l IH]; intros H; [constructor|].
  cbn [distinct] in H. apply andb_true_iff in H as [Hk Hl].
  constructor; [|auto].
  intros Hin. apply negb_true_iff in Hk.
  assert (existsb (str_eqb k) l = true).
  { apply existsb_exists. exists k. split; [assumption|apply str_eqb_refl]. }
  congruence.
Qed.

Lemma NoDup_distinct (l : list JSString) : NoDup l -> distinct l = true.
Proof.
  induction 1 as [|k l Hk _ IH]; [reflexivity|].
  cbn [distinct]. rewrite IH, andb_true_r. apply negb_true_iff.
  destruct (existsb (str_eqb k) l) eqn:E; [|reflexivity].
  apply existsb_exists in E as (x & Hx & Heq).
  apply str_eqb_eq in Heq; subst. contradiction.
Qed.

Lemma NoDup_middle (k : JSString) (a b : list JSString) :
  ~ In k (a ++ b) -> NoDup (a ++ b) -> NoDup (a ++ k :: b).
Proof.
  induction a as [|x a IH]; cbn [app]; intros Hk Hnd.
  - now constructor.
  - inversion Hnd as [|? ? Hx Hr]; subst. constructor.
    + intros Hin. apply in_app_or in Hin as [Hin|[->|Hin]].
      * apply Hx. apply in_or_app. now left.
      * apply Hk. now left.
      * apply Hx. apply in_or_app. now right.
    + apply IH; [|exact Hr]. intros Hin. apply Hk. now right.
Qed.

Lemma obj_set_distinct (k : JSString) (v : json)
  (l : list (JSString * json)) :
  distinct (map fst l) = true -> distinct (map fst (obj_set k v l)) = true.
Proof.
  intros H. destruct (obj_set_keys k v l) as [[_ ->]|(E & a & b & E1 & ->)];
    [exact H|].
  apply NoDup_distinct. apply distinct_NoDup in H. rewrite E1 in H.
  apply NoDup_middle; [|exact H].
  intros Hin. assert (Hk : has_key k l = true).
  { apply has_key_In. now rewrite E1. }
  congruence.
Qed.

Lemma replace_value_values (P : json -> bool) (k : JSString) (v : json)
  (l : list (JSString * json)) :
  P v = true ->
  forallb (fun kv => match kv with (_, x) => P x end) l = true ->
  forallb (fun kv => match kv with (_, x) => P x end) (replace_value k v l)
  = true.
Proof.
  intros Hv. induction l as [|[k0 v0] l IH]; [reflexivity|].
  cbn [replace_value forallb]. intros H.
  apply andb_true_iff in H as [H0 Hl].
  destruct (str_eqb k k0); cbn [forallb].
  - now rewrite Hv, Hl.
  - now rewrite H0, IH.
Qed.

Lemma insert_index_values (P : json -> bool) (n : N) (k : JSString)
  (v : json) (l : list (JSString * json)) :
  P v = true ->
  forallb (fun kv => match kv with (_, x) => P x end) l = true ->
  forallb (fun kv => match kv with (_, x) => P x end) (insert_index n k v l)
  = true.
Proof.
  intros Hv. induction l as [|[k0 v0] l IH].
  - intros _. cbn [insert_index forallb]. now rewrite Hv.
  - cbn [insert_index]. intros H.
    destruct (array_index k0) as [n'|]; [destruct (n <? n')|].
    + cbn [forallb] in *. now rewrite Hv, H.
    + cbn [forallb] in *. apply andb_true_iff in H as [H0 Hl].
      now rewrite H0, IH.
    + cbn [forallb] in *. now rewrite Hv, H.
Qed.

Lemma obj_set_values (P : json -> bool) (k : JSString) (v : json)
  (l : list (JSString * json)) :
  P v = true ->
  forallb (fun kv => match kv with (_, x) => P x end) l = true ->
  forallb (fun kv => match kv with (_, x) => P x end) (obj_set k v l) = true.
Proof.
  intros Hv Hl. unfold obj_set. destruct (has_key k l).
  - now apply replace_value_values.
  - destruct (array_index k) as [n|].
    + now apply insert_index_values.
    + rewrite forallb_app, Hl. cbn [forallb]. now rewrite Hv.
Qed.

(** ** The text handed to [JSON.parse] *)

(** When the replaced reply is an object text with white space around it,
    that object text is what [JSON.parse] gets. *)
Lemma json_text_object (reply w1 w2 mid : JSString) :
  replace_fences reply = w1 ++ (lbrace :: mid ++ [rbrace]) ++ w2 ->
  forallb isWhiteSpace w1 = true -> forallb isWhiteSpace w2 = true ->
  json_text reply = lbrace :: mid ++ [rbrace].
Proof.
  intros H H1 H2. unfold json_text. rewrite H.
  rewrite trim_around by (assumption || reflexivity).
  assert (E : match_braces (lbrace :: mid ++ [rbrace])
              = Some (lbrace :: mid ++ [rbrace])).
  { apply (match_braces_app [] mid []); simpl; tauto. }
  now rewrite E.
Qed.

Lemma replace_fences_incl (s : JSString) (x : N) :
  In x (replace_fences s) -> In x s.
Proof.
  remember (List.length s) as n eqn:Hn.
  revert s Hn; induction n as [n IH] using lt_wf_ind; intros s Hn.
  rewrite replace_fences_eq.
  destruct (startsWith fence_json s) eqn:E1.
  { apply startsWith_prefix in E1. simpl List.length in E1. intros H.
    assert (7 <= List.length s)%nat by (rewrite E1, length_app; simpl; lia).
    rewrite E1. apply in_or_app; right.
    apply (IH (List.length (skipn 7 s))); [|reflexivity|assumption].
    rewrite length_skipn; lia. }
  destruct (startsWith fence s) eqn:E2.
  { apply startsWith_prefix in E2. simpl List.length in E2. intros H.
    assert (3 <= List.length s)%nat by (rewrite E2, length_app; simpl; lia).
    rewrite E2. apply in_or_app; right.
    apply (IH (List.length (skipn 3 s))); [|reflexivity|assumption].
    rewrite length_skipn; lia. }
  destruct s as [|c r]; [easy|].
  intros [->|H]; [now left|right].
  apply (IH (List.length r)); [subst; simpl; lia|reflexivity|assumption].
Qed.

Lemma replace_fences_forallb (P : N -> bool) (s : JSString) :
  forallb P s = true -> forallb P (replace_fences s) = true.
Proof.
  rewrite !forallb_forall. intros H x Hx.
  apply H, replace_fences_incl, Hx.
Qed.

Lemma no_backtick_In (s : JSString) : no_backtick s = true -> ~ In backtick s.
Proof.
  unfold no_backtick. rewrite forallb_forall. intros H Hin.
  specialize (H _ Hin). now rewrite N.eqb_refl in H.
Qed.

Lemma replace_fences_no_backtick (s : JSString) :
  no_backtick s = true -> replace_fences s = s.
Proof.
  intros H. rewrite <- (app_nil_r s) at 1.
  rewrite replace_fences_plain by now apply no_backtick_In.
  simpl. apply app_nil_r.
Qed.

Lemma own_props_In (k : JSString) (v : json) (l : list (JSString * json)) :
  NoDup (map fst l) -> In (k, v) l -> own_props k l = Some v.
Proof.
  induction l as [|[k' v'] l IH]; intros Hnd Hin; [easy|].
  simpl in *. inversion Hnd as [|? ? Hk Hl]; subst.
  destruct Hin as [E|Hin].
  - injection E as -> ->. now rewrite str_eqb_refl.
  - destruct (str_eqb k k') eqn:E.
    + apply str_eqb_eq in E; subst. exfalso; apply Hk.
      change k' with (fst (k', v)). now apply in_map.
    + auto.
Qed.

Lemma own_props_absent (k : JSString) (l : list (JSString * json)) :
  ~ In k (map fst l) -> own_props k l = None.
Proof.
  induction l as [|[k' v'] l IH]; intros H; [reflexivity|].
  simpl in *. destruct (str_eqb k k') eqn:E.
  - apply str_eqb_eq in E; subst. exfalso; apply H; now left.
  - apply IH; intros Hin; apply H; now right.
Qed.

(** ** Documents read back *)

Lemma doc_ind (P : doc -> Prop) :
  P DNull ->
  (forall b, P (DBool b)) ->
  (forall t, P (DNumber t)) ->
  (forall t, P (DString t)) ->
  (forall inner l, Forall P l -> P (DArray inner l)) ->
  (forall inner l, Forall (fun m => P (member_doc m)) l ->
                   P (DObject inner l)) ->
  (forall before d after, P d -> P (DPad before d after)) ->
  forall d, P d.
Proof.
  intros Hnull Hbool Hnum Hstr Harr Hobj Hpad.
  fix IH 1. intros [| b | t | t | inner l | inner l | a d b].
  - exact Hnull.
  - apply Hbool.
  - apply Hnum.
  - apply Hstr.
  - apply Harr. induction l as [|d l IHl]; constructor; [apply IH|exact IHl].
  - apply Hobj. induction l as [|m l IHl]; constructor;
      [apply IH|exact IHl].
  - apply Hpad. apply IH.
Qed.

Lemma white_app (a b : JSString) :
  white a = true -> white b = true -> white (a ++ b) = true.
Proof. unfold white. rewrite forallb_app. now intros -> ->. Qed.

Lemma trailing_white (d : doc) : doc_ok d = true -> white (trailing d) = true.
Proof.
  induction d as [| b | t | t | inner l _ | inner l _ | a d b IH]
    using doc_ind; try reflexivity.
  cbn [doc_ok trailing]. intros H.
  apply andb_true_iff in H as [H Hb]. apply andb_true_iff in H as [_ Hd].
  apply white_app; auto.
Qed.

Lemma white_delimited (w rest : JSString) :
  white w = true -> delimited rest = true -> delimited (w ++ rest) = true.
Proof.
  destruct w as [|c w]; [trivial|]. cbn [white forallb app delimited].
  intros H _. apply andb_true_iff in H as [H _].
  unfold isJSONWhiteSpace in H.
  repeat (apply orb_true_iff in H as [H|H]);
    apply N.eqb_eq in H; subst c; reflexivity.
Qed.

Lemma skip_ws_to (w rest : JSString) (c : N) :
  white w = true -> isJSONWhiteSpace c = false ->
  skip_ws (w ++ c :: rest) = c :: rest.
Proof.
  intros Hw Hc. rewrite skip_ws_white by exact Hw.
  now apply skip_ws_black.
Qed.

(** Behind the white space before it, the text of a document starts with a
    code unit that is no white space and closes neither an array nor an
    object. *)
Lemma text_of_head (d : doc) :
  doc_ok d = true ->
  forall rest, exists c t,
    skip_ws (text_of d ++ rest) = c :: t
    /\ isJSONWhiteSpace c = false
    /\ (c =? 93) = false /\ (c =? rbrace) = false.
Proof.
  induction d as [| b | t | t | inner l _ | inner l _ | a d b IH]
    using doc_ind; intros Hok rest.
  - eexists; eexists; split; [reflexivity|repeat split].
  - destruct b; eexists; eexists; (split; [reflexivity|repeat split]).
  - cbn [doc_ok text_of] in *. unfold number_ok in Hok.
    destruct (number t) as [[x r]|] eqn:E; [|discriminate].
    destruct (number_head _ _ _ E) as (c & s' & -> & Hc).
    assert (Hc' : c = 45 \/ (48 <= c /\ c <= 57)).
    { destruct Hc as [Hc|Hc]; [now left|right].
      unfold isDigit in Hc. apply andb_true_iff in Hc as [H1 H2].
      apply N.leb_le in H1, H2. split; assumption. }
    assert (Hws : isJSONWhiteSpace c = false).
    { unfold isJSONWhiteSpace.
      repeat (apply orb_false_iff; split); apply N.eqb_neq; lia. }
    exists c, (s' ++ rest). cbn [app]. rewrite skip_ws_black by exact Hws.
    split; [reflexivity|]. split; [exact Hws|].
    split; apply N.eqb_neq; unfold rbrace; lia.
  - eexists; eexists; split; [reflexivity|repeat split].
  - destruct l; eexists; eexists; (split; [reflexivity|repeat split]).
  - destruct l; eexists; eexists; (split; [reflexivity|repeat split]).
  - cbn [doc_ok text_of] in *.
    apply andb_true_iff in Hok as [Hok _].
    apply andb_true_iff in Hok as [Ha Hd].
    destruct (IH Hd (b ++ rest)) as (c & t & E & Hc).
    exists c, t. rewrite <- !app_assoc. rewrite skip_ws_white by exact Ha.
    split; [exact E|exact Hc].
Qed.

Lemma parse_fuel_le (f f' : nat) :
  (f <= f')%nat ->
  (forall s r, parse_value f s = Some r -> parse_value f' s = Some r)
  /\ (forall acc s r, parse_elements f acc s = Some r ->
                      parse_elements f' acc s = Some r)
  /\ (forall acc s r, parse_members f acc s = Some r ->
                      parse_members f' acc s = Some r).
Proof.
  induction 1 as [|f' _ (IHv & IHe & IHm)]; [repeat split; auto|].
  destruct (parse_fuel_more f') as (Mv & Me & Mm).
  repeat split; intros; auto.
Qed.

(** With enough fuel the parser reads the text of a document back to its
    value, whatever stands behind it. *)
Lemma parse_value_doc (d : doc) :
  doc_ok d = true ->
  exists f0, forall f rest,
      (f0 <= f)%nat -> closed d = true \/ delimited rest = true ->
      parse_value f (text_of d ++ rest)
      = Some (value_of d, trailing d ++ rest).
Proof.
  induction d as [| b | t | t | inner l IHl | inner l IHl | a d b IH]
    using doc_ind; intros Hok.
  - exists 1%nat. intros [|f] rest Hf _; [lia|reflexivity].
  - exists 1%nat. intros [|f] rest Hf _; [lia|]. destruct b; reflexivity.
  - exists 1%nat. intros [|f] rest Hf [Hrest|Hrest]; [lia|lia|discriminate|].
    cbn [text_of value_of trailing app doc_ok] in *.
    now apply parse_value_numeral.
  - exists 1%nat. intros [|f] rest Hf _; [lia|].
    cbn [text_of value_of trailing doc_ok] in *. unfold quoted, dq.
    rewrite <- !app_assoc. cbn [app].
    now apply parse_value_string.
  - cbn [doc_ok] in Hok. apply andb_true_iff in Hok as [Hinner Hok].
    assert (Hel : l <> [] -> exists f0, forall f acc rest,
      (f0 <= f)%nat ->
      parse_elements f acc (join [44] (map text_of l) ++ 93 :: rest)
      = Some (JArray (acc ++ map value_of l), rest)).
    { clear - IHl Hok. induction l as [|d l IH]; intros Hne; [congruence|].
      cbn [forallb] in Hok. apply andb_true_iff in Hok as [Hd Hl].
      inversion IHl as [|? ? Pd Pl]; subst.
      destruct (Pd Hd) as [fd Hfd].
      pose proof (trailing_white d Hd) as Htr.
      destruct l as [|d2 l].
      - exists (S fd). intros [|f] acc rest Hf; [lia|].
        cbn [map join parse_elements].
        rewrite Hfd by (lia || (right; reflexivity)).
        rewrite skip_ws_to by (assumption || reflexivity). reflexivity.
      - destruct (IH Pl Hl) as [fl Hfl]; [discriminate|].
        exists (S (Nat.max fd fl)). intros [|f] acc rest Hf; [lia|].
        cbn [map]. rewrite join_cons2, <- !app_assoc. cbn [app parse_elements].
        rewrite Hfd by (lia || (right; reflexivity)).
        rewrite skip_ws_to by (assumption || reflexivity).
        change (44 =? 44) with true. cbv iota.
        rewrite Hfl by lia. cbn [map]. now rewrite <- app_assoc. }
    destruct l as [|d l].
    + exists 1%nat. intros [|f] rest Hf _; [lia|].
      cbn [text_of value_of trailing map app parse_value].
      rewrite skip_ws_black by reflexivity.
      change (91 =? lbrace) with false; change (91 =? 91) with true.
      cbv iota. rewrite <- app_assoc. cbn [app].
      rewrite skip_ws_to by (assumption || reflexivity). reflexivity.
    + destruct Hel as [f0 Hf0]; [discriminate|].
      exists (S f0). intros [|f] rest Hf _; [lia|].
      remember (d :: l) as dl eqn:Hdl.
      assert (Htext : text_of (DArray inner dl)
                      = [91] ++ join [44] (map text_of dl) ++ [93])
        by (subst dl; reflexivity).
      rewrite Htext. cbn [value_of trailing].
      rewrite <- !app_assoc. cbn [app parse_value].
      rewrite skip_ws_black by reflexivity.
      change (91 =? lbrace) with false; change (91 =? 91) with true.
      cbv iota.
      assert (Hhead : exists c t,
        skip_ws (join [44] (map text_of dl) ++ 93 :: rest) = c :: t
        /\ (c =? 93) = false).
      { subst dl. cbn [forallb] in Hok.
        apply andb_true_iff in Hok as [Hd _].
        destruct l as [|d2 l].
        - cbn [map join].
          destruct (text_of_head d Hd (93 :: rest)) as (c & t & E & _ & E93 & _).
          eauto.
        - cbn [map]. rewrite join_cons2, <- !app_assoc.
          destruct (text_of_head d Hd
                      ([44] ++ join [44] (map text_of (d2 :: l)) ++ 93 :: rest))
            as (c & t & E & _ & E93 & _).
          eauto. }
      destruct Hhead as (c & t & Ht & Hc).
      rewrite Ht, Hc. now rewrite Hf0 by lia.
  - cbn [doc_ok] in Hok. apply andb_true_iff in Hok as [Hinner Hok].
    assert (Hmem : l <> [] -> exists f0, forall f acc rest,
      (f0 <= f)%nat ->
      parse_members f acc
        (join [44] (map (member_text text_of) l) ++ rbrace :: rest)
      = Some (JObject (set_members l acc), rest)).
    { clear - IHl Hok. induction l as [|m l IH]; intros Hne; [congruence|].
      cbn [forallb] in Hok. apply andb_true_iff in Hok as [Hm Hl].
      apply andb_true_iff in Hm as [Hm Hd].
      apply andb_true_iff in Hm as [Hm Hafter].
      apply andb_true_iff in Hm as [Hbefore Hkey].
      inversion IHl as [|? ? Pd Pl]; subst.
      destruct (Pd Hd) as [fd Hfd].
      pose proof (trailing_white _ Hd) as Htr.
      assert (Hhead : forall f acc t,
        (fd <= f)%nat -> delimited t = true ->
        parse_members (S f) acc (member_text text_of m ++ t)
        = match skip_ws t with
          | [] => None
          | c3 :: r4 =>
              if c3 =? 44 then
                parse_members f
                  (obj_set (string_value (key_text m))
                     (value_of (member_doc m)) acc) r4
              else if c3 =? rbrace then
                Some (JObject
                        (obj_set (string_value (key_text m))
                           (value_of (member_doc m)) acc), r4)
              else None
          end).
      { intros f acc t Hf Ht. unfold member_text, quoted, dq.
        rewrite <- !app_assoc. cbn [app parse_members].
        rewrite skip_ws_to by (assumption || reflexivity).
        change (34 =? 34) with true. cbv iota.
        rewrite string_chars_literal by assumption.
        rewrite skip_ws_to by (assumption || reflexivity).
        change (58 =? 58) with true. cbv iota.
        rewrite Hfd by (assumption || (right; assumption)).
        now rewrite skip_ws_white by assumption. }
      destruct l as [|m2 l].
      - exists (S fd). intros [|f] acc rest Hf; [lia|].
        cbn [map join]. unfold set_members. cbn [fold_left].
        rewrite Hhead by (lia || reflexivity).
        rewrite skip_ws_black by reflexivity. reflexivity.
      - destruct (IH Pl Hl) as [fl Hfl]; [discriminate|].
        exists (S (Nat.max fd fl)). intros [|f] acc rest Hf; [lia|].
        cbn [map]. rewrite join_cons2, <- !app_assoc.
        rewrite Hhead by (lia || reflexivity).
        cbn [app]. rewrite skip_ws_black by reflexivity.
        change (44 =? 44) with true. cbv iota.
        rewrite Hfl by lia. reflexivity. }
    destruct l as [|m l].
    + exists 1%nat. intros [|f] rest Hf _; [lia|].
      cbn [text_of value_of trailing fold_left app parse_value].
      rewrite skip_ws_black by reflexivity.
      change (lbrace =? lbrace) with true. cbv iota.
      rewrite <- app_assoc. cbn [app].
      rewrite skip_ws_to by (assumption || reflexivity). reflexivity.
    + destruct Hmem as [f0 Hf0]; [discriminate|].
      exists (S f0). intros [|f] rest Hf _; [lia|].
      remember (m :: l) as ml eqn:Hml.
      assert (Htext : text_of (DObject inner ml)
                      = [lbrace] ++ join [44] (map (member_text text_of) ml)
                        ++ [rbrace])
        by (subst ml; reflexivity).
      rewrite Htext. cbn [value_of trailing].
      rewrite <- !app_assoc. cbn [app parse_value].
      rewrite skip_ws_black by reflexivity.
      change (lbrace =? lbrace) with true. cbv iota.
      assert (Hhead : exists t,
        skip_ws (join [44] (map (member_text text_of) ml) ++ rbrace :: rest)
        = 34 :: t).
      { subst ml. cbn [forallb] in Hok.
        apply andb_true_iff in Hok as [Hm _].
        apply andb_true_iff in Hm as [Hm _].
        apply andb_true_iff in Hm as [Hm _].
        apply andb_true_iff in Hm as [Hbefore _].
        destruct l; cbn [map join]; unfold member_text, quoted, dq;
          rewrite <- !app_assoc; cbn [app];
          rewrite skip_ws_to by (assumption || reflexivity); eauto. }
      destruct Hhead as (t & Ht).
      rewrite Ht. change (34 =? rbrace) with false. cbv iota.
      now rewrite Hf0 by lia.
  - cbn [doc_ok] in Hok. apply andb_true_iff in Hok as [Hok Hb].
    apply andb_true_iff in Hok as [Ha Hd].
    destruct (IH Hd) as [f0 Hf0]. exists f0.
    intros f rest Hf [Hrest|Hrest]; [discriminate|].
    cbn [text_of value_of trailing]. rewrite <- !app_assoc.
    rewrite parse_value_white by exact Ha.
    apply Hf0; [exact Hf|]. right. now apply white_delimited.
Qed.

Lemma parse_value_any_fuel (f : nat) (s : JSString) (r : json * JSString) :
  parse_value f s = Some r ->
  parse_value (2 * List.length s + 2) s = Some r.
Proof.
  intros H.
  destruct (Nat.le_ge_cases f (2 * List.length s + 2)) as [Hle|Hge].
  - now apply (parse_fuel_le _ _ Hle).
  - now rewrite <- (parse_value_fuel s f Hge).
Qed.

(** [JSON.parse] reads the text of a document back to its value. *)
Lemma JSON_parse_doc (d : doc) :
  doc_ok d = true -> JSON_parse (text_of d) = Some (value_of d).
Proof.
  intros Hok. destruct (parse_value_doc d Hok) as [f0 Hf0].
  specialize (Hf0 f0 [] (Nat.le_refl _) (or_intror eq_refl)).
  rewrite !app_nil_r in Hf0. apply parse_value_any_fuel in Hf0.
  unfold JSON_parse. rewrite Hf0.
  pose proof (trailing_white d Hok) as Hw.
  rewrite <- (app_nil_r (trailing d)). rewrite skip_ws_white by exact Hw.
  reflexivity.
Qed.

(** ** Fences in the text of a document *)

Lemma cons_fst_ended (a : N) (r : option (JSString * JSString)) :
  match cons_fst a r with
  | Some (_, []) => true
  | _ => false
  end
  = match r with
    | Some (_, []) => true
    | _ => false
    end.
Proof. destruct r as [[v [|c rest]]|]; reflexivity. Qed.

Lemma string_ok_cons (c : N) (r : JSString) :
  (c =? 34) = false -> (c =? 92) = false ->
  string_ok (c :: r) = negb (c <? 32) && string_ok r.
Proof.
  intros H34 H92. unfold string_ok. cbn [app string_chars].
  rewrite H34, H92. destruct (c <? 32); [reflexivity|].
  now rewrite cons_fst_ended.
Qed.

Lemma string_ok_escape (e : N) (r : JSString) :
  (e =? 117) = false ->
  string_ok (92 :: e :: r)
  = match escape e with
    | Some _ => string_ok r
    | None => false
    end.
Proof.
  intros H. unfold string_ok. cbn [app string_chars].
  change (92 =? 34) with false. change (92 =? 92) with true. cbv iota.
  rewrite H. destruct (escape e); [|reflexivity].
  now rewrite cons_fst_ended.
Qed.

Lemma string_ok_unicode (r : JSString) :
  string_ok (92 :: 117 :: r)
  = match r with
    | h1 :: h2 :: h3 :: h4 :: r5 =>
        match hex4 h1 h2 h3 h4 with
        | Some _ => string_ok r5
        | None => false
        end
    | _ => false
    end.
Proof.
  unfold string_ok. cbn [app string_chars].
  change (92 =? 34) with false. change (92 =? 92) with true.
  change (117 =? 117) with true. cbv iota.
  destruct r as [|h1 [|h2 [|h3 [|h4 r5]]]]; cbn [app]; try reflexivity.
  - unfold hex4. destruct (hexval h1), (hexval h2), (hexval h3); reflexivity.
  - destruct (hex4 h1 h2 h3 h4); [|reflexivity].
    now rewrite cons_fst_ended.
Qed.

Lemma string_ok_backslash : string_ok [92] = false.
Proof. reflexivity. Qed.

Lemma hexval_no_backtick (h x : N) : hexval h = Some x -> h <> backtick.
Proof. intros H ->. discriminate H. Qed.

Lemma hex4_no_backtick (h1 h2 h3 h4 u : N) :
  hex4 h1 h2 h3 h4 = Some u ->
  h1 <> backtick /\ h2 <> backtick /\ h3 <> backtick /\ h4 <> backtick.
Proof.
  unfold hex4.
  destruct (hexval h1) eqn:E1; [|discriminate].
  destruct (hexval h2) eqn:E2; [|discriminate].
  destruct (hexval h3) eqn:E3; [|discriminate].
  destruct (hexval h4) eqn:E4; [|discriminate].
  intros _. repeat split; eapply hexval_no_backtick; eassumption.
Qed.

(** With the fences deleted from it, a string literal is a string literal
    still: what is deleted stands between two of its characters. *)
Lemma string_ok_replace_fences (t : JSString) :
  string_ok t = true -> string_ok (replace_fences t) = true.
Proof.
  remember (List.length t) as n eqn:Hn. revert t Hn.
  induction n as [n IH] using lt_wf_ind. intros t Hn H.
  rewrite replace_fences_eq.
  destruct (startsWith fence_json t) eqn:E1.
  { apply startsWith_prefix in E1. simpl List.length in E1.
    rewrite E1 in H. unfold fence_json in H. cbn [app] in H.
    do 7 (rewrite string_ok_cons in H by reflexivity;
          apply andb_true_iff in H as [_ H]).
    apply (IH (List.length (skipn 7 t))); [|reflexivity|exact H].
    assert (7 <= List.length t)%nat by (rewrite E1, length_app; simpl; lia).
    rewrite length_skipn; lia. }
  destruct (startsWith fence t) eqn:E2.
  { apply startsWith_prefix in E2. simpl List.length in E2.
    rewrite E2 in H. unfold fence in H. cbn [app] in H.
    do 3 (rewrite string_ok_cons in H by reflexivity;
          apply andb_true_iff in H as [_ H]).
    apply (IH (List.length (skipn 3 t))); [|reflexivity|exact H].
    assert (3 <= List.length t)%nat by (rewrite E2, length_app; simpl; lia).
    rewrite length_skipn; lia. }
  destruct t as [|c r]; [reflexivity|].
  destruct (N.eqb_spec c 34) as [->|H34].
  { unfold string_ok in H. cbn [app string_chars] in H.
    change (34 =? 34) with true in H. cbv iota in H.
    destruct r; discriminate H. }
  destruct (N.eqb_spec c 92) as [->|H92].
  - destruct r as [|e r1]; [discriminate H|].
    destruct (N.eqb_spec e 117) as [->|H117].
    + rewrite string_ok_unicode in H.
      destruct r1 as [|h1 [|h2 [|h3 [|h4 r5]]]]; try discriminate H.
      destruct (hex4 h1 h2 h3 h4) as [u|] eqn:Eh; [|discriminate H].
      destruct (hex4_no_backtick _ _ _ _ _ Eh) as (B1 & B2 & B3 & B4).
      rewrite (replace_fences_keep 117) by discriminate.
      rewrite (replace_fences_keep h1) by assumption.
      rewrite (replace_fences_keep h2) by assumption.
      rewrite (replace_fences_keep h3) by assumption.
      rewrite (replace_fences_keep h4) by assumption.
      rewrite string_ok_unicode, Eh.
      apply (IH (List.length r5)); [subst n; simpl; lia|reflexivity|exact H].
    + apply N.eqb_neq in H117. rewrite string_ok_escape in H by assumption.
      destruct (escape e) as [x|] eqn:Ee; [|discriminate H].
      assert (He : e <> backtick) by (intros ->; discriminate Ee).
      rewrite (replace_fences_keep e) by assumption.
      rewrite string_ok_escape, Ee by assumption.
      apply (IH (List.length r1)); [subst n; simpl; lia|reflexivity|exact H].
  - apply N.eqb_neq in H34, H92.
    rewrite string_ok_cons in * by assumption.
    apply andb_true_iff in H as [Hc Hr]. rewrite Hc. cbn [andb].
    apply (IH (List.length r)); [subst n; simpl; lia|reflexivity|exact Hr].
Qed.

(** The document with the fences deleted is well formed. *)
Lemma doc_ok_strip (d : doc) : doc_ok d = true -> doc_ok (strip d) = true.
Proof.
  induction d as [| b | t | t | inner l IHl | inner l IHl | a d b IH]
    using doc_ind; intros Hok; cbn [strip doc_ok] in *; try assumption.
  - now apply string_ok_replace_fences.
  - apply andb_true_iff in Hok as [Hi Hl]. rewrite Hi. cbn [andb].
    rewrite forallb_forall in *. intros x Hx.
    apply in_map_iff in Hx as (d & <- & Hd).
    rewrite Forall_forall in IHl. auto.
  - apply andb_true_iff in Hok as [Hi Hl]. rewrite Hi. cbn [andb].
    rewrite forallb_forall in *. intros x Hx.
    apply in_map_iff in Hx as (m & <- & Hm).
    rewrite Forall_forall in IHl.
    specialize (Hl m Hm). cbn [before_key key_text after_key member_doc].
    apply andb_true_iff in Hl as [Hl Hd].
    apply andb_true_iff in Hl as [Hl Hafter].
    apply andb_true_iff in Hl as [Hbefore Hkey].
    rewrite Hbefore, Hafter, (string_ok_replace_fences _ Hkey).
    cbn [andb]. auto.
  - apply andb_true_iff in Hok as [Hok Hb].
    apply andb_true_iff in Hok as [Ha Hd].
    now rewrite Ha, Hb, IH.
Qed.

Lemma white_no_backtick (w : JSString) : white w = true -> ~ In backtick w.
Proof.
  unfold white. rewrite forallb_forall. intros H Hin.
  specialize (H _ Hin). discriminate H.
Qed.

Lemma replace_fences_white (w s : JSString) :
  white w = true -> replace_fences (w ++ s) = w ++ replace_fences s.
Proof. intros H. apply replace_fences_plain. now apply white_no_backtick. Qed.

(** The replacement works on the text of a document string by string: all
    it changes is the text between the quotes. *)
Lemma replace_fences_doc (d : doc) :
  doc_ok d = true ->
  forall b, replace_fences (text_of d ++ b)
            = text_of (strip d) ++ replace_fences b.
Proof.
  induction d as [| b0 | t | t | inner l IHl | inner l IHl | a d b0 IH]
    using doc_ind; intros Hok b.
  - apply replace_fences_plain. vm_compute. intuition discriminate.
  - destruct b0; apply replace_fences_plain; vm_compute;
      intuition discriminate.
  - cbn [text_of strip doc_ok] in *. apply replace_fences_plain.
    now apply number_ok_no_backtick.
  - cbn [text_of strip]. unfold quoted, dq. rewrite <- !app_assoc.
    cbn [app]. rewrite replace_fences_keep by discriminate.
    now rewrite replace_fences_split by reflexivity.
  - cbn [doc_ok] in Hok. apply andb_true_iff in Hok as [Hinner Hok].
    assert (Hel : forall t,
      replace_fences (join [44] (map text_of l) ++ 93 :: t)
      = join [44] (map text_of (map strip l)) ++ 93 :: replace_fences t).
    { clear - IHl Hok. induction l as [|d l IH]; intros t.
      - cbn [map join app]. now rewrite replace_fences_keep by discriminate.
      - cbn [forallb] in Hok. apply andb_true_iff in Hok as [Hd Hl].
        inversion IHl as [|? ? Pd Pl]; subst.
        destruct l as [|d2 l].
        + cbn [map join]. rewrite (Pd Hd).
          now rewrite replace_fences_keep by discriminate.
        + cbn [map]. rewrite !join_cons2, <- !app_assoc.
          rewrite (Pd Hd). cbn [app].
          rewrite replace_fences_keep by discriminate.
          f_equal. f_equal. exact (IH Pl Hl t). }
    destruct l as [|d l].
    + cbn [text_of strip map]. rewrite <- !app_assoc. cbn [app].
      rewrite replace_fences_keep by discriminate.
      rewrite replace_fences_white by assumption.
      now rewrite replace_fences_keep by discriminate.
    + remember (d :: l) as dl eqn:Hdl.
      assert (Htext : text_of (DArray inner dl)
                      = [91] ++ join [44] (map text_of dl) ++ [93])
        by (subst dl; reflexivity).
      assert (Htext' : text_of (strip (DArray inner dl))
                       = [91] ++ join [44] (map text_of (map strip dl))
                         ++ [93])
        by (subst dl; reflexivity).
      rewrite Htext, Htext', <- !app_assoc. cbn [app].
      rewrite replace_fences_keep by discriminate. now rewrite Hel.
  - cbn [doc_ok] in Hok. apply andb_true_iff in Hok as [Hinner Hok].
    set (strip_member := fun m : Member doc =>
           {| before_key := before_key m;
              key_text := replace_fences (key_text m);
              after_key := after_key m;
              member_doc := strip (member_doc m) |}).
    assert (Hmem : forall t,
      replace_fences
        (join [44] (map (member_text text_of) l) ++ rbrace :: t)
      = join [44] (map (member_text text_of) (map strip_member l))
        ++ rbrace :: replace_fences t).
    { clear - IHl Hok. induction l as [|m l IH]; intros t.
      - cbn [map join app]. now rewrite replace_fences_keep by discriminate.
      - cbn [forallb] in Hok. apply andb_true_iff in Hok as [Hm Hl].
        apply andb_true_iff in Hm as [Hm Hd].
        apply andb_true_iff in Hm as [Hm Hafter].
        apply andb_true_iff in Hm as [Hbefore Hkey].
        inversion IHl as [|? ? Pd Pl]; subst.
        assert (Hone : forall u,
          replace_fences (member_text text_of m ++ u)
          = member_text text_of (strip_member m) ++ replace_fences u).
        { intros u. unfold member_text, strip_member, quoted, dq.
          cbn [before_key key_text after_key member_doc].
          rewrite <- !app_assoc. cbn [app].
          rewrite replace_fences_white by assumption.
          rewrite replace_fences_keep by discriminate.
          rewrite replace_fences_split by reflexivity.
          rewrite replace_fences_white by assumption.
          rewrite replace_fences_keep by discriminate.
          now rewrite (Pd Hd). }
        destruct l as [|m2 l].
        + cbn [map join]. rewrite Hone.
          now rewrite replace_fences_keep by discriminate.
        + cbn [map]. rewrite !join_cons2, <- !app_assoc.
          rewrite Hone. cbn [app].
          rewrite replace_fences_keep by discriminate.
          f_equal. f_equal. exact (IH Pl Hl t). }
    destruct l as [|m l].
    + cbn [text_of strip map]. rewrite <- !app_assoc. cbn [app].
      rewrite replace_fences_keep by discriminate.
      rewrite replace_fences_white by assumption.
      now rewrite replace_fences_keep by discriminate.
    + remember (m :: l) as ml eqn:Hml.
      assert (Htext : text_of (DObject inner ml)
                      = [lbrace] ++ join [44] (map (member_text text_of) ml)
                        ++ [rbrace])
        by (subst ml; reflexivity).
      assert (Htext' : text_of (strip (DObject inner ml))
                       = [lbrace]
                         ++ join [44]
                              (map (member_text text_of) (map strip_member ml))
                         ++ [rbrace])
        by (subst ml; reflexivity).
      rewrite Htext, Htext', <- !app_assoc. cbn [app].
      rewrite replace_fences_keep by discriminate. now rewrite Hmem.
  - cbn [doc_ok] in Hok. apply andb_true_iff in Hok as [Hok Hb].
    apply andb_true_iff in Hok as [Ha Hd].
    cbn [text_of strip]. rewrite <- !app_assoc.
    rewrite replace_fences_white by assumption.
    rewrite (IH Hd). f_equal. f_equal.
    now apply replace_fences_white.
Qed.

(** ** Trimming and the brace pattern *)

Lemma white_no_brace (c : N) :
  isWhiteSpace c = true -> (c =? lbrace) = false /\ (c =? rbrace) = false.
Proof.
  intros H. split; apply N.eqb_neq; intros ->; discriminate H.
Qed.

Lemma match_braces_trimStart (s : JSString) :
  match_braces (trimStart s) = match_braces s.
Proof.
  induction s as [|c s IH]; [reflexivity|].
  cbn [trimStart]. destruct (isWhiteSpace c) eqn:E; [|reflexivity].
  cbn [match_braces]. destruct (white_no_brace c E) as [-> _]. exact IH.
Qed.

(** What [trimStart] takes away is white space. *)
Lemma trimStart_split (s : JSString) :
  exists w, s = w ++ trimStart s /\ forallb isWhiteSpace w = true.
Proof.
  induction s as [|c s (w & Hw & Hws)].
  - exists []. split; reflexivity.
  - cbn [trimStart]. destruct (isWhiteSpace c) eqn:E.
    + exists (c :: w). split; [simpl; now f_equal|simpl; now rewrite E].
    + exists []. split; reflexivity.
Qed.

Lemma trimEnd_split (s : JSString) :
  exists w, s = trimEnd s ++ w /\ forallb isWhiteSpace w = true.
Proof.
  unfold trimEnd. destruct (trimStart_split (rev s)) as (w & Hw & Hws).
  exists (rev w). split.
  - rewrite <- rev_app_distr, <- Hw. now rewrite rev_involutive.
  - rewrite forallb_forall in *. intros x Hx. apply Hws. now apply in_rev.
Qed.

Lemma upto_last_rbrace_behind (s w : JSString) :
  ~ In rbrace w -> upto_last_rbrace (s ++ w) = upto_last_rbrace s.
Proof.
  intros Hw. induction s as [|c s IH]; simpl.
  - now apply upto_last_rbrace_none.
  - now rewrite IH.
Qed.

Lemma match_braces_none_without (s : JSString) :
  ~ In lbrace s -> match_braces s = None.
Proof.
  induction s as [|c s IH]; intros H; [reflexivity|].
  cbn [match_braces]. destruct (N.eqb_spec c lbrace) as [->|_].
  - exfalso; apply H; now left.
  - apply IH. intros Hin; apply H; now right.
Qed.

Lemma match_braces_behind (s w : JSString) :
  ~ In lbrace w -> ~ In rbrace w -> match_braces (s ++ w) = match_braces s.
Proof.
  intros Hl Hr. induction s as [|c s IH]; simpl.
  - now apply match_braces_none_without.
  - destruct (c =? lbrace); [|exact IH].
    now rewrite upto_last_rbrace_behind.
Qed.

(** Trimming changes nothing for the brace pattern. *)
Lemma match_braces_trim (s : JSString) :
  match_braces (trim s) = match_braces s.
Proof.
  unfold trim. rewrite <- (match_braces_trimStart s).
  destruct (trimEnd_split (trimStart s)) as (w & Hw & Hws).
  rewrite Hw at 2. symmetry. apply match_braces_behind.
  - intros Hin. rewrite forallb_forall in Hws.
    destruct (white_no_brace _ (Hws _ Hin)) as [E _].
    now rewrite N.eqb_refl in E.
  - intros Hin. rewrite forallb_forall in Hws.
    destruct (white_no_brace _ (Hws _ Hin)) as [_ E].
    now rewrite N.eqb_refl in E.
Qed.

Lemma without_In (c : N) (s : JSString) : without c s = true -> ~ In c s.
Proof.
  unfold without. rewrite forallb_forall. intros H Hin.
  specialize (H _ Hin). now rewrite N.eqb_refl in H.
Qed.

Lemma object_text (inner : JSString) (l : list (Member doc)) :
  exists mid, text_of (DObject inner l) = lbrace :: mid ++ [rbrace].
Proof.
  destruct l as [|m l].
  - exists inner. reflexivity.
  - exists (join [44] (map (member_text text_of) (m :: l))). reflexivity.
Qed.


Lemma replace_fences_lacks (c : N) (s : JSString) :
  without c s = true -> ~ In c (replace_fences s).
Proof.
  intros H Hin. apply replace_fences_incl in Hin.
  now apply (without_In c s).
Qed.

(** An object of a document with any text around it that has no opening
    brace before and no closing brace behind: what [JSON.parse] gets is the
    text of the object, the fences deleted from its strings. *)
Lemma json_text_around (pre post inner : JSString) (l : list (Member doc)) :
  doc_ok (DObject inner l) = true ->
  without lbrace pre = true -> without rbrace post = true ->
  json_text (pre ++ text_of (DObject inner l) ++ post)
  = text_of (strip (DObject inner l)).
Proof.
  intros Hok Hpre Hpost.
  assert (E : replace_fences (pre ++ text_of (DObject inner l) ++ post)
              = replace_fences pre ++ text_of (strip (DObject inner l))
                ++ replace_fences post).
  { rewrite <- (replace_fences_doc _ Hok).
    destruct (object_text inner l) as (mid & ->).
    cbn [app]. rewrite replace_fences_split by reflexivity.
    now rewrite (replace_fences_keep lbrace) by discriminate. }
  unfold json_text. rewrite match_braces_trim, E.
  cbn [strip].
  destruct (object_text inner
              (map (fun m : Member doc =>
                      {| before_key := before_key m;
                         key_text := replace_fences (key_text m);
                         after_key := after_key m;
                         member_doc := strip (member_doc m) |}) l))
    as (mid & ->).
  cbn [app]. rewrite <- ?app_assoc. cbn [app].
  rewrite match_braces_app; [reflexivity| |];
    now apply replace_fences_lacks.
Qed.

(** A text without backticks is left as it is. *)
Lemma strip_no_backtick (d : doc) :
  doc_ok d = true -> no_backtick (text_of d) = true ->
  text_of (strip d) = text_of d.
Proof.
  intros Hok Hbt.
  pose proof (replace_fences_doc d Hok []) as E.
  change (replace_fences []) with (@nil N) in E.
  rewrite !app_nil_r in E. rewrite <- E.
  now apply replace_fences_no_backtick.
Qed.

(** ** Cleaning a reply twice *)

Lemma trimStart_idem (s : JSString) : trimStart (trimStart s) = trimStart s.
Proof.
  induction s as [|c s IH]; [reflexivity|].
  cbn [trimStart]. destruct (isWhiteSpace c) eqn:E; [exact IH|].
  cbn [trimStart]. now rewrite E.
Qed.

Lemma trimEnd_idem (s : JSString) : trimEnd (trimEnd s) = trimEnd s.
Proof. unfold trimEnd. now rewrite rev_involutive, trimStart_idem. Qed.

Lemma trimStart_trimEnd (t : JSString) :
  trimStart t = t -> trimStart (trimEnd t) = trimEnd t.
Proof.
  intros Ht. destruct (trimEnd_split t) as (w & Hw & Hws).
  destruct (trimEnd t) as [|c u] eqn:E; [reflexivity|].
  rewrite Hw in Ht. cbn [app trimStart] in Ht.
  destruct (isWhiteSpace c) eqn:Ec.
  - exfalso.
    assert (L : (List.length (trimStart (u ++ w))
                 <= List.length (u ++ w))%nat).
    { clear. induction (u ++ w) as [|x l IHl]; simpl; [lia|].
      destruct (isWhiteSpace x); simpl; lia. }
    rewrite Ht in L. simpl in L. lia.
  - cbn [trimStart]. now rewrite Ec.
Qed.

Lemma trim_idem (s : JSString) : trim (trim s) = trim s.
Proof.
  unfold trim.
  rewrite (trimStart_trimEnd (trimStart s) (trimStart_idem s)).
  apply trimEnd_idem.
Qed.

Lemma occurs_app (p a s b : JSString) : occurs p s -> occurs p (a ++ s ++ b).
Proof.
  intros (x & y & ->). exists (a ++ x), (y ++ b).
  now rewrite <- !app_assoc.
Qed.

Lemma replace_fences_fixed (s : JSString) :
  ~ occurs fence s -> replace_fences s = s.
Proof.
  induction s as [|c r IH]; intros H; [reflexivity|].
  rewrite replace_fences_eq.
  destruct (startsWith fence_json (c :: r)) eqn:E1.
  { exfalso. apply H, occurs_fence_json.
    apply startsWith_prefix in E1. exists [], (skipn 7 (c :: r)).
    exact E1. }
  destruct (startsWith fence (c :: r)) eqn:E2.
  { exfalso. apply H. apply startsWith_prefix in E2.
    exists [], (skipn 3 (c :: r)). exact E2. }
  f_equal. apply IH. intros (a & b & ->). apply H.
  now exists (c :: a), b.
Qed.

Lemma match_braces_infix (s m : JSString) :
  match_braces s = Some m ->
  exists pre mid post,
    s = pre ++ m ++ post /\ m = lbrace :: mid ++ [rbrace].
Proof.
  induction s as [|c s IH]; [discriminate|].
  cbn [match_braces]. destruct (N.eqb_spec c lbrace) as [->|_].
  - destruct (upto_last_rbrace s) as [t|] eqn:E; [|discriminate].
    intros H; injection H as <-.
    apply upto_last_rbrace_some in E as (mid & post & -> & -> & _).
    exists [], mid, post. split; [|reflexivity].
    cbn [app]. now rewrite <- app_assoc.
  - intros H. destruct (IH H) as (pre & mid & post & -> & Hm).
    now exists (c :: pre), mid, post.
Qed.

Lemma trim_braced (mid : JSString) :
  trim (lbrace :: mid ++ [rbrace]) = lbrace :: mid ++ [rbrace].
Proof.
  pose proof (trim_around [] [] mid lbrace rbrace
                eq_refl eq_refl eq_refl eq_refl) as H.
  cbn [app] in H. now rewrite app_nil_r in H.
Qed.

(** The trimmed text is a stretch of the text. *)
Lemma trim_infix (s : JSString) : exists a b, s = a ++ trim s ++ b.
Proof.
  destruct (trimStart_split s) as (w1 & Hw1 & _).
  destruct (trimEnd_split (trimStart s)) as (w2 & Hw2 & _).
  fold (trim s) in Hw2. exists w1, w2. now rewrite <- Hw2.
Qed.

(** The text handed to [JSON.parse] is a stretch of the replaced reply. *)
Lemma json_text_infix (reply : JSString) :
  exists a b, replace_fences reply = a ++ json_text reply ++ b.
Proof.
  destruct (trim_infix (replace_fences reply)) as (a & b & E).
  unfold json_text. cbv zeta.
  destruct (match_braces (trim (replace_fences reply))) as [m|] eqn:Em.
  - destruct (match_braces_infix _ _ Em) as (pre & mid & post & Hs & _).
    exists (a ++ pre), (post ++ b). rewrite E at 1. rewrite Hs.
    now rewrite <- !app_assoc.
  - now exists a, b.
Qed.

(** No fence is left in the text handed to [JSON.parse]. *)
Lemma json_text_no_fence (reply : JSString) : ~ occurs fence (json_text reply).
Proof.
  intros H. destruct (json_text_infix reply) as (a & b & E).
  apply (replace_fences_no_fence reply). rewrite E. now apply occurs_app.
Qed.

Lemma json_text_cut (reply : JSString) :
  trim (json_text reply) = json_text reply
  /\ json_text (json_text reply) = json_text reply.
Proof.
  pose proof (json_text_no_fence reply) as Hnf.
  assert (Hfix : replace_fences (json_text reply) = json_text reply)
    by now apply replace_fences_fixed.
  assert (Htrim : trim (json_text reply) = json_text reply).
  { unfold json_text. cbv zeta.
    destruct (match_braces (trim (replace_fences reply))) as [m|] eqn:Em.
    - destruct (match_braces_infix _ _ Em) as (pre & mid & post & _ & ->).
      apply trim_braced.
    - apply trim_idem. }
  split; [exact Htrim|].
  unfold json_text at 1. cbv zeta. rewrite Hfix, Htrim.
  unfold json_text. cbv zeta.
  destruct (match_braces (trim (replace_fences reply))) as [m|] eqn:Em.
  - destruct (match_braces_infix _ _ Em) as (pre & mid & post & _ & ->).
    assert (E : match_braces (lbrace :: mid ++ [rbrace])
                = Some (lbrace :: mid ++ [rbrace])).
    { apply (match_braces_app [] mid []); simpl; tauto. }
    now rewrite E.
  - now rewrite Em.
Qed.

(** ** The response parser

    The properties of this section are about what [processWithGemini] and
    [processPDFWithGemini] return when the backend answers [reply]. *)

Section ResponseParser.

Variable generateContent : Request -> Result JSString.
Variable SyntaxError_message : JSString -> JSString.
Variable extractedText : JSString.
Variable pdfBuffer : list N.
Variable reply : JSString.

Hypothesis text_reply : generateContent (text_request extractedText) = Ok reply.
Hypothesis pdf_reply : generateContent (pdf_request pdfBuffer) = Ok reply.

Lemma processWithGemini_reply :
  processWithGemini generateContent SyntaxError_message extractedText
  = extractedData SyntaxError_message (Ok reply).
Proof. unfold processWithGemini. now rewrite text_reply. Qed.

Lemma processPDFWithGemini_reply :
  processPDFWithGemini generateContent SyntaxError_message pdfBuffer
  = extractedData SyntaxError_message (Ok reply).
Proof. unfold processPDFWithGemini. now rewrite pdf_reply. Qed.

Lemma extractedData_parsed (data : json) :
  JSON_parse (json_text reply) = Some data ->
  extractedData SyntaxError_message (Ok reply) = Ok data.
Proof. intros H. unfold extractedData. now rewrite H. Qed.

End ResponseParser.

(** ** The claims about the response parser *)

(** C1, as the code has it.  The parser checks no category against the
    taxonomy: for every reply whose parsed JSON carries a string as
    [classificacao_despesa], a taxonomy name or not, the record returned is
    the parsed JSON itself and carries that very string. *)
Theorem category_returned_as_given
  (generateContent : Request -> Result JSString)
  (SyntaxError_message : JSString -> JSString)
  (extractedText : JSString) (pdfBuffer : list N)
  (reply : JSString) (parsed : json) (s : JSString) :
  generateContent (text_request extractedText) = Ok reply ->
  generateContent (pdf_request pdfBuffer) = Ok reply ->
  JSON_parse (json_text reply) = Some parsed ->
  get classificacao_despesa parsed = Some (JString s) ->
  exists data,
    processWithGemini generateContent SyntaxError_message extractedText
    = Ok data
    /\ processPDFWithGemini generateContent SyntaxError_message pdfBuffer
       = Ok data
    /\ data = parsed
    /\ get classificacao_despesa data = Some (JString s).
Proof.
  intros Ht Hp Hparsed Hs. exists parsed.
  rewrite (processWithGemini_reply _ _ _ _ Ht).
  rewrite (processPDFWithGemini_reply _ _ _ _ Hp).
  rewrite (extractedData_parsed _ _ _ Hparsed).
  repeat split; assumption.
Qed.

Lemma category_returned_as_given_witness :
  exists data,
    processWithGemini (answers reply_outros) sample_message [] = Ok data
    /\ processPDFWithGemini (answers reply_outros) sample_message [] = Ok data
    /\ data = JObject [(classificacao_despesa, JString (lit "OUTROS"))]
    /\ get classificacao_despesa data = Some (JString (lit "OUTROS")).
Proof.
  apply (category_returned_as_given (answers reply_outros) sample_message
           [] [] reply_outros
           (JObject [(classificacao_despesa, JString (lit "OUTROS"))])
           (lit "OUTROS"));
    vm_compute; reflexivity.
Defined.

(** C1 fails as stated: [OUTROS] is no taxonomy name, and the record
    returned for a reply that carries it has it as its category, not
    [null]. *)
Lemma category_outside_taxonomy_returned :
  ~ In (lit "OUTROS") CATEGORIAS_DESPESAS
  /\ exists data,
       processPDFWithGemini (answers reply_outros) sample_message [] = Ok data
       /\ get classificacao_despesa data = Some (JString (lit "OUTROS"))
       /\ get classificacao_despesa data <> Some JNull
       /\ get classificacao_despesa data <> None.
Proof.
  split.
  - intros H. vm_compute in H.
    repeat (destruct H as [H|H]; [discriminate H|]). exact H.
  - eexists. split; [vm_compute; reflexivity|].
    repeat split; vm_compute; discriminate.
Qed.

(** C2, as the code has it.  For the reply of the scenario the record
    returned has the invoice number and the total as the reply wrote them:
    the strings ["000.207.590"] and ["3.449,00"]. *)
Theorem scenario_record_as_replied
  (generateContent : Request -> Result JSString)
  (SyntaxError_message : JSString -> JSString)
  (extractedText : JSString) (pdfBuffer : list N) :
  generateContent (text_request extractedText) = Ok scenario_reply ->
  generateContent (pdf_request pdfBuffer) = Ok scenario_reply ->
  let data := JObject [ (numero_nota_fiscal, JString (lit "000.207.590"));
                        (valor_total, JString (lit "3.449,00")) ] in
  processWithGemini generateContent SyntaxError_message extractedText = Ok data
  /\ processPDFWithGemini generateContent SyntaxError_message pdfBuffer
     = Ok data.
Proof.
  intros Ht Hp data.
  rewrite (processWithGemini_reply _ _ _ _ Ht).
  rewrite (processPDFWithGemini_reply _ _ _ _ Hp).
  assert (H : JSON_parse (json_text scenario_reply) = Some data)
    by (vm_compute; reflexivity).
  rewrite (extractedData_parsed _ _ _ H). split; reflexivity.
Qed.

Lemma scenario_record_as_replied_witness :
  processWithGemini (answers scenario_reply) sample_message []
  = Ok (JObject [ (numero_nota_fiscal, JString (lit "000.207.590"));
                  (valor_total, JString (lit "3.449,00")) ])
  /\ processPDFWithGemini (answers scenario_reply) sample_message []
     = Ok (JObject [ (numero_nota_fiscal, JString (lit "000.207.590"));
                     (valor_total, JString (lit "3.449,00")) ]).
Proof.
  apply (scenario_record_as_replied (answers scenario_reply) sample_message
           [] []); reflexivity.
Defined.

(** C2 fails as stated: the invoice number returned is not the digits-only
    string and the total returned is not the number 3449. *)
Lemma scenario_record_not_normalized :
  exists data,
    processPDFWithGemini (answers scenario_reply) sample_message [] = Ok data
    /\ get numero_nota_fiscal data <> Some (JString (lit "000207590"))
    /\ get valor_total data <> Some (JNumber (inject_Z 3449)).
Proof.
  eexists. split; [vm_compute; reflexivity|].
  split; vm_compute; discriminate.
Qed.

(** C3, as the code has it.  The parser fails exactly when [JSON.parse]
    throws on the text it cut out of the reply; the error it throws carries
    the message of that [SyntaxError] behind a fixed prefix; and whenever
    [JSON.parse] yields a value, that value is returned, whatever its
    fields hold. *)
Theorem parser_fails_when_JSON_parse_throws
  (generateContent : Request -> Result JSString)
  (SyntaxError_message : JSString -> JSString)
  (extractedText : JSString) (pdfBuffer : list N) (reply : JSString) :
  generateContent (text_request extractedText) = Ok reply ->
  generateContent (pdf_request pdfBuffer) = Ok reply ->
  let text_result :=
    processWithGemini generateContent SyntaxError_message extractedText in
  let pdf_result :=
    processPDFWithGemini generateContent SyntaxError_message pdfBuffer in
  text_result = pdf_result
  /\ ((exists m, text_result = Throw m)
      <-> JSON_parse (json_text reply) = None)
  /\ (forall m, text_result = Throw m ->
        m = lit "Falha no processamento IA: "
            ++ SyntaxError_message (json_text reply))
  /\ (forall data, JSON_parse (json_text reply) = Some data ->
        text_result = Ok data).
Proof.
  intros Ht Hp text_result pdf_result. subst text_result pdf_result.
  rewrite (processWithGemini_reply _ _ _ _ Ht).
  rewrite (processPDFWithGemini_reply _ _ _ _ Hp).
  unfold extractedData.
  destruct (JSON_parse (json_text reply)) as [data|].
  - repeat split.
    + intros [m H]; discriminate.
    + discriminate.
    + intros m H; discriminate.
    + intros d H; injection H as ->; reflexivity.
  - repeat split.
    + eexists; reflexivity.
    + intros m H; injection H as <-; reflexivity.
    + intros d H; discriminate.
Qed.

Lemma parser_fails_when_JSON_parse_throws_witness :
  processWithGemini (answers reply_two_objects) sample_message []
  = processPDFWithGemini (answers reply_two_objects) sample_message []
  /\ ((exists m,
         processWithGemini (answers reply_two_objects) sample_message []
         = Throw m)
      <-> JSON_parse (json_text reply_two_objects) = None)
  /\ (forall m,
        processWithGemini (answers reply_two_objects) sample_message []
        = Throw m ->
        m = lit "Falha no processamento IA: "
            ++ sample_message (json_text reply_two_objects))
  /\ (forall data, JSON_parse (json_text reply_two_objects) = Some data ->
        processWithGemini (answers reply_two_objects) sample_message []
        = Ok data).
Proof.
  apply (parser_fails_when_JSON_parse_throws (answers reply_two_objects)
           sample_message [] [] reply_two_objects); reflexivity.
Defined.

(** C3 fails as stated: a reply whose installment count is zero is not
    rejected, and a reply without any brace is not rejected either when it
    is a JSON value. *)
Lemma parser_accepts_zero_parcelas :
  processPDFWithGemini (answers reply_zero_parcelas) sample_message []
  = Ok (JObject [(quantidade_parcelas, JNumber (inject_Z 0))])
  /\ match_braces (trim (replace_fences reply_no_brace)) = None
  /\ processPDFWithGemini (answers reply_no_brace) sample_message []
     = Ok (JNumber (inject_Z 123)).
Proof. repeat split; vm_compute; reflexivity. Qed.

(** C4, as the code has it.  The parser adds no default: for every reply
    whose parsed JSON omits [quantidade_parcelas], the record returned is the
    parsed JSON itself and has no such field either. *)
Theorem parcelas_omitted_stay_omitted
  (generateContent : Request -> Result JSString)
  (SyntaxError_message : JSString -> JSString)
  (extractedText : JSString) (pdfBuffer : list N)
  (reply : JSString) (parsed : json) :
  generateContent (text_request extractedText) = Ok reply ->
  generateContent (pdf_request pdfBuffer) = Ok reply ->
  JSON_parse (json_text reply) = Some parsed ->
  get quantidade_parcelas parsed = None ->
  exists data,
    processWithGemini generateContent SyntaxError_message extractedText
    = Ok data
    /\ processPDFWithGemini generateContent SyntaxError_message pdfBuffer
       = Ok data
    /\ data = parsed
    /\ get quantidade_parcelas data = None.
Proof.
  intros Ht Hp Hparsed Hq. exists parsed.
  rewrite (processWithGemini_reply _ _ _ _ Ht).
  rewrite (processPDFWithGemini_reply _ _ _ _ Hp).
  rewrite (extractedData_parsed _ _ _ Hparsed).
  repeat split; assumption.
Qed.

Lemma parcelas_omitted_stay_omitted_witness :
  exists data,
    processWithGemini (answers reply_no_parcelas) sample_message [] = Ok data
    /\ processPDFWithGemini (answers reply_no_parcelas) sample_message []
       = Ok data
    /\ data = JObject [(numero_nota_fiscal, JString (lit "207590"))]
    /\ get quantidade_parcelas data = None.
Proof.
  apply (parcelas_omitted_stay_omitted (answers reply_no_parcelas)
           sample_message [] [] reply_no_parcelas
           (JObject [(numero_nota_fiscal, JString (lit "207590"))]));
    vm_compute; reflexivity.
Defined.

(** C4 fails as stated: for a reply without an installment count the record
    returned has no [quantidade_parcelas], not the number 1. *)
Lemma parcelas_not_defaulted :
  exists data,
    processPDFWithGemini (answers reply_no_parcelas) sample_message []
    = Ok data
    /\ get quantidade_parcelas data = None
    /\ get quantidade_parcelas data <> Some (JNumber (inject_Z 1)).
Proof.
  eexists. split; [vm_compute; reflexivity|].
  split; vm_compute; [reflexivity|discriminate].
Qed.

(** C5, where the code leaves it.  The comment over the pattern says that
    only the JSON of the reply is cut out and parsed.  The pattern is
    greedy and counts no braces: with a second object behind the first,
    what it cuts out runs from the first opening brace to the last closing
    one, the text between the objects included; the first balanced object,
    which is JSON, is not what is parsed, and [JSON.parse] throws. *)
Theorem candidate_not_first_balanced :
  spec_first_balanced (trim (replace_fences reply_two_objects))
  = Some (lit "{" ++ quoted (lit "a") ++ lit ":1}")
  /\ JSON_parse (lit "{" ++ quoted (lit "a") ++ lit ":1}")
     = Some (JObject [(lit "a", JNumber (inject_Z 1))])
  /\ json_text reply_two_objects
     = lit "{" ++ quoted (lit "a") ++ lit ":1} y {" ++ quoted (lit "b")
       ++ lit ":2}"
  /\ JSON_parse (json_text reply_two_objects) = None
  /\ processWithGemini (answers reply_two_objects) sample_message []
     = Throw (lit "Falha no processamento IA: "
              ++ sample_message (json_text reply_two_objects))
  /\ processPDFWithGemini (answers reply_two_objects) sample_message []
     = Throw (lit "Falha no processamento IA: "
              ++ sample_message (json_text reply_two_objects)).
Proof. repeat split; vm_compute; reflexivity. Qed.

(** ** Reading the fields of an object *)

Lemma value_of_bare (d : doc) : value_of (bare d) = value_of d.
Proof.
  induction d as [| b | t | t | inner l _ | inner l _ | a d b IH]
    using doc_ind; try reflexivity.
  exact IH.
Qed.

(** A key has the value of the last member that writes it. *)
Lemma own_props_set_members (k : JSString) (l : list (Member doc)) :
  forall acc,
    own_props k (set_members l acc)
    = match last_written k l with
      | Some d => Some (value_of d)
      | None => own_props k acc
      end.
Proof.
  induction l as [|m l IH]; intros acc; [reflexivity|].
  unfold set_members in *. cbn [fold_left last_written].
  rewrite IH. destruct (last_written k l); [reflexivity|].
  rewrite own_props_obj_set.
  now destruct (str_eqb k (string_value (key_text m))).
Qed.

Lemma get_object (k : JSString) (inner : JSString) (l : list (Member doc)) :
  get k (value_of (DObject inner l)) = option_map value_of (last_written k l).
Proof.
  cbn [value_of get]. fold (set_members l []).
  rewrite own_props_set_members. now destruct (last_written k l).
Qed.

(** A reply that holds the text of an object, no opening brace before it
    and no closing brace behind it, is parsed to the value of the object
    with the fences deleted from its strings. *)
Lemma reply_object_parsed (pre post inner : JSString) (l : list (Member doc)) :
  doc_ok (DObject inner l) = true ->
  without lbrace pre = true -> without rbrace post = true ->
  JSON_parse (json_text (pre ++ text_of (DObject inner l) ++ post))
  = Some (value_of (strip (DObject inner l))).
Proof.
  intros Hok Hpre Hpost. rewrite json_text_around by assumption.
  apply JSON_parse_doc. now apply doc_ok_strip.
Qed.

(** The same for an object without backticks in its text: its value as it
    stands. *)
Lemma reply_object_parsed_plain (pre post inner : JSString)
  (l : list (Member doc)) :
  doc_ok (DObject inner l) = true ->
  no_backtick (text_of (DObject inner l)) = true ->
  without lbrace pre = true -> without rbrace post = true ->
  JSON_parse (json_text (pre ++ text_of (DObject inner l) ++ post))
  = Some (value_of (DObject inner l)).
Proof.
  intros Hok Hbt Hpre Hpost. rewrite json_text_around by assumption.
  rewrite strip_no_backtick by assumption. now apply JSON_parse_doc.
Qed.

(** C6, as the code has it.  No normalizer stands between [JSON.parse] and
    the caller.  Whatever value [JSON.parse] makes of the text cut out of
    the reply is returned as it is.  So a reply that holds a JSON object,
    however it is laid out, nested and escaped, comes back as the value it
    denotes: every key has the value written for it (the last one, when it
    is written twice), and a string written without escapes comes back
    character for character. *)
Theorem fields_returned_as_written
  (generateContent : Request -> Result JSString)
  (SyntaxError_message : JSString -> JSString)
  (extractedText : JSString) (pdfBuffer : list N) (reply : JSString) :
  generateContent (text_request extractedText) = Ok reply ->
  generateContent (pdf_request pdfBuffer) = Ok reply ->
  let returned :=
    processWithGemini generateContent SyntaxError_message extractedText in
  processPDFWithGemini generateContent SyntaxError_message pdfBuffer
  = returned
  /\ (forall parsed,
        JSON_parse (json_text reply) = Some parsed -> returned = Ok parsed)
  /\ (forall (pre post inner : JSString) (l : list (Member doc)),
        reply = pre ++ text_of (DObject inner l) ++ post ->
        doc_ok (DObject inner l) = true ->
        no_backtick (text_of (DObject inner l)) = true ->
        without lbrace pre = true ->
        without rbrace post = true ->
        returned = Ok (value_of (DObject inner l))
        /\ (forall k,
              get k (value_of (DObject inner l))
              = option_map value_of (last_written k l))
        /\ (forall k d t,
              last_written k l = Some d -> bare d = DString t ->
              forallb plain t = true ->
              get k (value_of (DObject inner l)) = Some (JString t))).
Proof.
  intros Ht Hp returned. subst returned.
  rewrite (processWithGemini_reply _ _ _ _ Ht).
  rewrite (processPDFWithGemini_reply _ _ _ _ Hp).
  split; [reflexivity|]. split.
  - intros parsed H. now apply extractedData_parsed.
  - intros pre post inner l -> Hok Hbt Hpre Hpost.
    split; [|split].
    + apply extractedData_parsed. now apply reply_object_parsed_plain.
    + intros k. apply get_object.
    + intros k d t Hl Hd Hplain. rewrite get_object, Hl. cbn [option_map].
      rewrite <- value_of_bare, Hd. cbn [value_of].
      now destruct (string_value_plain t Hplain) as [_ ->].
Qed.

Lemma fields_returned_as_written_witness :
  processPDFWithGemini (answers sample_reply) sample_message []
  = processWithGemini (answers sample_reply) sample_message []
  /\ processWithGemini (answers sample_reply) sample_message []
     = Ok sample_value
  /\ get (lit "numero_nota_fiscal") sample_value
     = Some (JString (lit "000.207.590")).
Proof.
  destruct (fields_returned_as_written (answers sample_reply) sample_message
              [] [] sample_reply eq_refl eq_refl) as (Hsame & _ & H).
  assert (E : sample_reply = sample_pre ++ text_of sample_doc ++ sample_post)
    by (vm_compute; reflexivity).
  destruct (H sample_pre sample_post [] _ E) as (Hret & _ & Hget);
    try (vm_compute; reflexivity).
  split; [exact Hsame|]. split.
  - rewrite Hret. f_equal.
  - assert (Ev : value_of sample_doc = sample_value)
      by (vm_compute; reflexivity).
    rewrite <- Ev.
    apply (Hget (lit "numero_nota_fiscal")
             (DPad [32] (DString (lit "000.207.590")) [])
             (lit "000.207.590")); vm_compute; reflexivity.
Defined.

(** C6 fails as stated: the tax ID of the example comes back with its
    punctuation, not as its digits. *)
Lemma tax_id_keeps_punctuation :
  processPDFWithGemini (answers reply_cnpj) sample_message []
  = Ok (JObject
          [(lit "fornecedor",
            JObject [(lit "cnpj", JString (lit "18.944.113/0002-91"))])])
  /\ JString (lit "18.944.113/0002-91") <> JString (lit "18944113000291").
Proof.
  split; [vm_compute; reflexivity|vm_compute; discriminate].
Qed.

(** ** Fences *)

(** Between two quotes the replacement works in place. *)
Lemma replace_fences_quoted (a s b : JSString) :
  replace_fences (a ++ quoted s ++ b)
  = replace_fences a ++ quoted (replace_fences s) ++ replace_fences b.
Proof.
  unfold quoted, dq. rewrite <- !app_assoc. cbn [app].
  rewrite replace_fences_split by reflexivity.
  now rewrite replace_fences_split by reflexivity.
Qed.

(** C10, as the code has it.  The replacement runs over the text of the
    whole reply before anything is cut or parsed: no fence is left in what
    it yields nor in the text handed to [JSON.parse], and between any two
    quotes of the reply the text is replaced in place.  So a reply that
    holds a JSON object comes back as the value of that object with the
    fences deleted from the text of its strings, keys included; for a
    string written without escapes that is its value without the
    fences. *)
Theorem fences_deleted_everywhere
  (generateContent : Request -> Result JSString)
  (SyntaxError_message : JSString -> JSString)
  (extractedText : JSString) (pdfBuffer : list N) (reply : JSString) :
  generateContent (text_request extractedText) = Ok reply ->
  generateContent (pdf_request pdfBuffer) = Ok reply ->
  let returned :=
    processWithGemini generateContent SyntaxError_message extractedText in
  processPDFWithGemini generateContent SyntaxError_message pdfBuffer
  = returned
  /\ ~ occurs fence (replace_fences reply)
  /\ ~ occurs fence_json (replace_fences reply)
  /\ ~ occurs fence (json_text reply)
  /\ (forall a s b,
        reply = a ++ quoted s ++ b ->
        replace_fences reply
        = replace_fences a ++ quoted (replace_fences s) ++ replace_fences b)
  /\ (forall (pre post inner : JSString) (l : list (Member doc)),
        reply = pre ++ text_of (DObject inner l) ++ post ->
        doc_ok (DObject inner l) = true ->
        without lbrace pre = true ->
        without rbrace post = true ->
        returned = Ok (value_of (strip (DObject inner l))))
  /\ (forall t,
        forallb plain t = true ->
        value_of (strip (DString t)) = JString (replace_fences t)
        /\ ~ occurs fence (replace_fences t)).
Proof.
  intros Ht Hp returned. subst returned.
  rewrite (processWithGemini_reply _ _ _ _ Ht).
  rewrite (processPDFWithGemini_reply _ _ _ _ Hp).
  split; [reflexivity|].
  split; [apply replace_fences_no_fence|].
  split; [intros H; apply occurs_fence_json in H;
          now apply replace_fences_no_fence in H|].
  split; [apply json_text_no_fence|].
  split; [intros a s b ->; apply replace_fences_quoted|].
  split.
  - intros pre post inner l -> Hok Hpre Hpost.
    apply extractedData_parsed. now apply reply_object_parsed.
  - intros t Hplain. split; [|apply replace_fences_no_fence].
    cbn [strip value_of].
    pose proof (replace_fences_forallb plain t Hplain) as H.
    now destruct (string_value_plain _ H) as [_ ->].
Qed.

Lemma fences_deleted_everywhere_witness :
  processWithGemini
    (answers (sample_pre ++ text_of doc_with_fence ++ sample_post))
    sample_message []
  = Ok (JObject [(lit "descricao_produtos",
                  JString (lit "manual  e planilha"))]).
Proof.
  destruct (fences_deleted_everywhere
              (answers (sample_pre ++ text_of doc_with_fence ++ sample_post))
              sample_message [] []
              (sample_pre ++ text_of doc_with_fence ++ sample_post)
              eq_refl eq_refl)
    as (_ & _ & _ & _ & _ & H & _).
  rewrite (H sample_pre sample_post []
             [line 2 "descricao_produtos"
                (DString (lit "manual ```json``` e planilha")) (indent 0)]);
    vm_compute; reflexivity.
Defined.

(** C10 fails as stated: a fence that a string holds by way of an escape is
    no text of the reply; the replacement does not find it, [JSON.parse]
    decodes it, and the field comes back with the fence in it. *)
Lemma fence_in_escape_returned :
  replace_fences reply_escaped_fence = reply_escaped_fence
  /\ processPDFWithGemini (answers reply_escaped_fence) sample_message []
     = Ok (JObject [(lit "descricao_produtos", JString fence)])
  /\ processWithGemini (answers reply_escaped_fence) sample_message []
     = Ok (JObject [(lit "descricao_produtos", JString fence)])
  /\ occurs fence fence.
Proof.
  repeat split; try (vm_compute; reflexivity).
  exists [], []. reflexivity.
Qed.

(** ** What the brace pattern cuts out *)

(** X1.  The candidate payload is the stretch of the replaced and trimmed
    reply from its first opening brace to its last closing brace; braces in
    between, balanced or not, do not end it. *)
Theorem candidate_is_first_to_last_brace
  (reply pre mid post : JSString) :
  trim (replace_fences reply) = pre ++ lbrace :: mid ++ rbrace :: post ->
  ~ In lbrace pre ->
  ~ In rbrace post ->
  json_text reply = lbrace :: mid ++ [rbrace].
Proof.
  intros H Hpre Hpost. unfold json_text.
  now rewrite H, match_braces_app.
Qed.

Lemma candidate_is_first_to_last_brace_witness :
  json_text reply_text_around = lit "{" ++ quoted (lit "a") ++ lit ":1}".
Proof.
  apply (candidate_is_first_to_last_brace reply_text_around
           (lit "text before ") (quoted (lit "a") ++ lit ":1")
           (lit " text after")).
  - vm_compute; reflexivity.
  - vm_compute. intros H.
    repeat (destruct H as [H|H]; [discriminate H|]). exact H.
  - vm_compute. intros H.
    repeat (destruct H as [H|H]; [discriminate H|]). exact H.
Defined.

(** Without such a pair of braces the whole replaced and trimmed reply is
    the candidate. *)
Lemma candidate_without_braces (reply : JSString) :
  (forall pre mid post,
      trim (replace_fences reply) <> pre ++ lbrace :: mid ++ rbrace :: post) ->
  json_text reply = trim (replace_fences reply).
Proof.
  intros H. unfold json_text. now rewrite match_braces_none.
Qed.





(** ** No key twice *)

(** Every value the parser builds has the keys of each object once. *)
Lemma parse_keys_unique (f : nat) :
  (forall s v r, parse_value f s = Some (v, r) -> keys_unique v = true)
  /\ (forall acc s v r,
        forallb keys_unique acc = true ->
        parse_elements f acc s = Some (v, r) -> keys_unique v = true)
  /\ (forall acc s v r,
        distinct (map fst acc) = true ->
        forallb (fun kv => match kv with (_, x) => keys_unique x end) acc
        = true ->
        parse_members f acc s = Some (v, r) -> keys_unique v = true).
Proof.
  induction f as [|f (IHv & IHe & IHm)];
    [repeat split; intros; discriminate|].
  split; [|split].
  - intros s v r H. unfold_parser_in H.
    destruct (skip_ws s) as [|c r0]; [discriminate|].
    destruct (c =? lbrace).
    { destruct (skip_ws r0) as [|c' r']; [discriminate|].
      destruct (c' =? rbrace).
      - injection H as <- _. reflexivity.
      - now apply (IHm [] r0 v r). }
    destruct (c =? 91).
    { destruct (skip_ws r0) as [|c' r']; [discriminate|].
      destruct (c' =? 93).
      - injection H as <- _. reflexivity.
      - now apply (IHe [] r0 v r). }
    destruct (c =? 34).
    { destruct (string_chars r0) as [[t rest]|]; [|discriminate].
      injection H as <- _. reflexivity. }
    destruct (startsWith kw_true (c :: r0)); [injection H as <- _; reflexivity|].
    destruct (startsWith kw_false (c :: r0)); [injection H as <- _; reflexivity|].
    destruct (startsWith kw_null (c :: r0)); [injection H as <- _; reflexivity|].
    destruct (number (c :: r0)) as [[q rest]|]; [|discriminate].
    injection H as <- _. reflexivity.
  - intros acc s v r Hacc H. unfold_parser_in H.
    destruct (parse_value f s) as [[v0 r0]|] eqn:E; [|discriminate].
    apply IHv in E.
    assert (Hacc' : forallb keys_unique (acc ++ [v0]) = true).
    { rewrite forallb_app, Hacc. simpl. now rewrite E. }
    destruct (skip_ws r0) as [|c r']; [discriminate|].
    destruct (c =? 44); [now apply (IHe _ _ _ _ Hacc' H)|].
    destruct (c =? 93); [|discriminate].
    injection H as <- _. exact Hacc'.
  - intros acc s v r Hd Hacc H. unfold_parser_in H.
    destruct (skip_ws s) as [|c r0]; [discriminate|].
    destruct (c =? 34); [|discriminate].
    destruct (string_chars r0) as [[k r1]|]; [|discriminate].
    destruct (skip_ws r1) as [|c1 r2]; [discriminate|].
    destruct (c1 =? 58); [|discriminate].
    destruct (parse_value f r2) as [[v0 r3]|] eqn:Ev; [|discriminate].
    apply IHv in Ev.
    pose proof (obj_set_distinct k v0 acc Hd) as Hd'.
    pose proof (obj_set_values keys_unique k v0 acc Ev Hacc) as Hacc'.
    destruct (skip_ws r3) as [|c3 r4]; [discriminate|].
    destruct (c3 =? 44); [now apply (IHm _ _ _ _ Hd' Hacc' H)|].
    destruct (c3 =? rbrace); [|discriminate].
    injection H as <- _. cbn [keys_unique]. now rewrite Hd', Hacc'.
Qed.

(** X3.  Whatever the backend replies, a record the parser returns never
    has two properties of the same name, at any depth. *)
Theorem record_keys_unique
  (generateContent : Request -> Result JSString)
  (SyntaxError_message : JSString -> JSString)
  (extractedText : JSString) (pdfBuffer : list N) (data : json) :
  processWithGemini generateContent SyntaxError_message extractedText
  = Ok data
  \/ processPDFWithGemini generateContent SyntaxError_message pdfBuffer
     = Ok data ->
  keys_unique data = true.
Proof.
  assert (H : forall called,
             extractedData SyntaxError_message called = Ok data ->
             keys_unique data = true).
  { intros [reply|m]; unfold extractedData; [|discriminate].
    unfold JSON_parse.
    destruct (parse_value _ _) as [[v r]|] eqn:E; [|discriminate].
    apply (parse_keys_unique _) in E.
    destruct (skip_ws r); [|discriminate].
    intros H; injection H as <-. exact E. }
  intros [Hr|Hr]; [unfold processWithGemini in Hr|
                   unfold processPDFWithGemini in Hr]; eauto.
Qed.

Lemma record_keys_unique_witness :
  keys_unique
    (JObject [ (lit "classificacao_despesa", JString (lit "INVESTIMENTOS"));
               (lit "numero_nota_fiscal", JString (lit "207590")) ]) = true.
Proof.
  apply (record_keys_unique (answers reply_twice) sample_message [] []).
  left. vm_compute. reflexivity.
Defined.

(** ** Cleaning a reply twice: the text cut out *)

(** X4.  Cleaning is idempotent: the text cut out of a reply holds no code
    fence, has no white space at either end, and is cut out of itself
    unchanged, so a reply that went through the cleaning once parses as it
    did. *)
Theorem json_text_idempotent (reply : JSString) :
  json_text (json_text reply) = json_text reply
  /\ trim (json_text reply) = json_text reply
  /\ replace_fences (json_text reply) = json_text reply.
Proof.
  destruct (json_text_cut reply) as [Htrim Hcut].
  split; [exact Hcut|]. split; [exact Htrim|].
  apply replace_fences_fixed, json_text_no_fence.
Qed.

(** ** Extracting the text of a PDF *)

Lemma skipn_cons_nth (A : Type) (a : nat) (l r : list A) (x : A) :
  skipn a l = x :: r -> nth_error l a = Some x /\ skipn (S a) l = r.
Proof.
  revert l; induction a as [|a IH]; intros l H.
  - simpl in H. subst l. split; reflexivity.
  - destruct l as [|y l]; [discriminate|].
    cbn [skipn] in H. apply IH in H as [H1 H2].
    split; assumption.
Qed.

(** The loop over the page numbers reads the pages in order. *)
Lemma extract_pages_read (pdf : PDFDocument) (k : nat) :
  forall (a : nat) (fullText : JSString),
    (a + k <= List.length pdf)%nat ->
    extract_pages pdf (seq (S a) k) fullText
    = read_pages (firstn k (skipn a pdf)) fullText.
Proof.
  induction k as [|k IH]; intros a fullText Hlen; [reflexivity|].
  destruct (skipn a pdf) as [|p rest] eqn:E.
  { assert (H : List.length (skipn a pdf) = 0%nat) by now rewrite E.
    rewrite length_skipn in H. lia. }
  destruct (skipn_cons_nth _ a pdf rest p E) as [Hn Hr].
  cbn [seq extract_pages firstn read_pages]. unfold getPage.
  replace (S a - 1)%nat with a by lia. rewrite Hn.
  destruct p as [items|m]; [|reflexivity].
  rewrite IH by lia. now rewrite Hr.
Qed.

Lemma firstn_min_length (A : Type) (n : nat) (l : list A) :
  firstn (Nat.min (List.length l) n) l = firstn n l.
Proof.
  destruct (Nat.le_ge_cases (List.length l) n) as [H|H].
  - rewrite Nat.min_l by assumption.
    now rewrite firstn_all, firstn_all2.
  - now rewrite Nat.min_r.
Qed.

Lemma read_pages_loaded (texts : list (list JSString)) :
  forall fullText : JSString,
    read_pages (map Ok texts) fullText = Ok (fullText ++ pages_text texts).
Proof.
  induction texts as [|items texts IH]; intros fullText.
  - simpl. now rewrite app_nil_r.
  - cbn [map read_pages]. rewrite IH. unfold pages_text.
    cbn [map concat]. now rewrite <- !app_assoc.
Qed.

(** What [extractTextFromPDF] yields is decided by the first three pages. *)
Lemma extractTextFromPDF_read
  (getDocument : list N -> Result PDFDocument)
  (pdfBuffer : list N) (pdf : PDFDocument) :
  getDocument pdfBuffer = Ok pdf ->
  extractTextFromPDF getDocument pdfBuffer
  = match read_pages (firstn 3 pdf) [] with
    | Throw m => Throw (lit "Falha na extração de texto do PDF: " ++ m)
    | Ok fullText => Ok (trim fullText)
    end.
Proof.
  intros H. unfold extractTextFromPDF. rewrite H.
  rewrite (extract_pages_read pdf _ 0 []) by (simpl; lia).
  cbn [skipn]. now rewrite firstn_min_length.
Qed.





(** ** The handler and the request *)

Lemma text_too_short (text : JSString) :
  (match text with [] => true | _ :: _ => false end
   || (List.length text <? 50)%nat) = (List.length text <? 50)%nat.
Proof. destruct text; reflexivity. Qed.

(** C7, as the code has it.  The text-extraction handler sends a request to
    the backend exactly when a file was uploaded, the API key is set, the
    text of the PDF was extracted and has at least 50 code units: under
    these conditions it sends one request, the one for that text, and
    otherwise it sends none.  Without a file it answers 400; with too
    little text it answers 500, whatever the size of the upload. *)
Theorem request_sent_when_text_long_enough
  (getDocument : list N -> Result PDFDocument)
  (generateContent : Request -> Result JSString)
  (SyntaxError_message : JSString -> JSString)
  (GEMINI_API_KEY : option JSString) (processingTime timestamp : JSString)
  (file : option File) :
  let outcome :=
    extract_data getDocument generateContent SyntaxError_message
      GEMINI_API_KEY processingTime timestamp file in
  (forall f text,
     file = Some f -> key_missing GEMINI_API_KEY = false ->
     extractTextFromPDF getDocument (buffer f) = Ok text ->
     (50 <= List.length text)%nat ->
     sent outcome = [text_request text])
  /\ (sent outcome <> [] <->
      exists f text,
        file = Some f /\ key_missing GEMINI_API_KEY = false
        /\ extractTextFromPDF getDocument (buffer f) = Ok text
        /\ (50 <= List.length text)%nat)
  /\ (file = None ->
      response outcome = no_file /\ status (response outcome) = 400%nat)
  /\ (forall f text,
        file = Some f -> key_missing GEMINI_API_KEY = false ->
        extractTextFromPDF getDocument (buffer f) = Ok text ->
        (List.length text < 50)%nat ->
        response outcome = failure processingTime timestamp texto_muito_curto
        /\ status (response outcome) = 500%nat
        /\ sent outcome = []).
Proof.
  intros outcome. subst outcome. unfold extract_data.
  destruct file as [f|].
  2:{ split; [|split; [split|split]].
      - intros f text H; discriminate H.
      - intros H; now contradiction H.
      - intros (f & text & H & _); discriminate H.
      - intros _; split; reflexivity.
      - intros f text H; discriminate H. }
  destruct (key_missing GEMINI_API_KEY) eqn:Ek.
  { split; [|split; [split|split]].
    - intros f0 text _ H; discriminate H.
    - intros H; now contradiction H.
    - intros (f0 & text & _ & H & _); discriminate H.
    - discriminate.
    - intros f0 text _ H; discriminate H. }
  destruct (extractTextFromPDF getDocument (buffer f)) as [text|m] eqn:Et.
  2:{ split; [|split; [split|split]].
      - intros f0 text H _ H'.
        injection H as <-. rewrite Et in H'. discriminate H'.
      - intros H; now contradiction H.
      - intros (f0 & text & H & _ & H' & _).
        injection H as <-. rewrite Et in H'. discriminate H'.
      - discriminate.
      - intros f0 text H _ H'.
        injection H as <-. rewrite Et in H'. discriminate H'. }
  rewrite text_too_short.
  destruct (Nat.ltb_spec (List.length text) 50) as [Hlt|Hge].
  - split; [|split; [split|split]].
    + intros f0 text0 H _ H' Hlen.
      injection H as <-. rewrite Et in H'. injection H' as <-. lia.
    + intros H; now contradiction H.
    + intros (f0 & text0 & H & _ & H' & Hlen).
      injection H as <-. rewrite Et in H'. injection H' as <-. lia.
    + discriminate.
    + intros f0 text0 _ _ _ _. repeat split.
  - split; [|split; [split|split]].
    + intros f0 text0 H _ H' _.
      injection H as <-. rewrite Et in H'. injection H' as <-. reflexivity.
    + intros _. exists f, text. repeat split; assumption.
    + intros _; discriminate.
    + discriminate.
    + intros f0 text0 H _ H' Hlen.
      injection H as <-. rewrite Et in H'. injection H' as <-. lia.
Qed.

Lemma request_sent_when_text_long_enough_witness :
  let handler pdf :=
    extract_data (fun _ => Ok pdf) (answers reply_outros)
      sample_message (Some (lit "key")) (lit "0.1s")
      (lit "2024-01-31T00:00:00.000Z") (Some short_upload) in
  sent (handler [Ok [repeat 97 50]]) = [text_request (repeat 97 50)]
  /\ sent (handler [Ok [repeat 97 49]]) = []
  /\ status (response (handler [Ok [repeat 97 49]])) = 500%nat.
Proof.
  intros handler.
  destruct (request_sent_when_text_long_enough
              (fun _ => Ok [Ok [repeat 97 50]]) (answers reply_outros)
              sample_message (Some (lit "key")) (lit "0.1s")
              (lit "2024-01-31T00:00:00.000Z") (Some short_upload))
    as (Hlong & _).
  destruct (request_sent_when_text_long_enough
              (fun _ => Ok [Ok [repeat 97 49]]) (answers reply_outros)
              sample_message (Some (lit "key")) (lit "0.1s")
              (lit "2024-01-31T00:00:00.000Z") (Some short_upload))
    as (_ & _ & _ & Hshort).
  split.
  - apply (Hlong short_upload (repeat 97 50)).
    + reflexivity.
    + reflexivity.
    + vm_compute; reflexivity.
    + vm_compute; lia.
  - destruct (Hshort short_upload (repeat 97 49)) as (_ & Hs & Hn).
    + reflexivity.
    + reflexivity.
    + vm_compute; reflexivity.
    + vm_compute; lia.
    + split; [exact Hn|exact Hs].
Defined.

(** C7 fails as stated: an upload that is not empty, whose PDF holds little
    text, gets no request built and is answered 500, not 400; and the
    handler that sends the PDF itself builds a request for an upload of no
    bytes. *)
Lemma request_not_decided_by_empty_payload :
  let outcome :=
    extract_data (fun _ => Ok short_document) (answers reply_outros)
      sample_message (Some (lit "key")) (lit "0.1s")
      (lit "2024-01-31T00:00:00.000Z") (Some short_upload) in
  let outcome_pdf :=
    extract_data_pdf (answers reply_outros) sample_message
      (Some (lit "key")) (lit "0.1s") (lit "2024-01-31T00:00:00.000Z")
      (Some empty_upload) in
  buffer short_upload <> []
  /\ sent outcome = []
  /\ status (response outcome) = 500%nat
  /\ buffer empty_upload = []
  /\ sent outcome_pdf = [pdf_request []]
  /\ status (response outcome_pdf) = 200%nat.
Proof.
  repeat split; try (vm_compute; reflexivity).
  vm_compute; discriminate.
Qed.

(** ** The category taxonomy *)

Lemma CATEGORIAS_DESPESAS_length : List.length CATEGORIAS_DESPESAS = 9%nat.
Proof. reflexivity. Qed.

(** The listing gives the categories in their order, numbered from 1, each
    with its array of examples. *)
Lemma categories_listing :
  map name categories = CATEGORIAS_DESPESAS
  /\ map id categories = seq 1 9
  /\ forall (i : nat) (e : CategoryEntry),
       nth_error categories i = Some e ->
       id e = (i + 1)%nat
       /\ nth_error CATEGORIAS_DESPESAS i = Some (name e)
       /\ exists l, entry_examples e = ExampleArray l
                    /\ own_examples (name e) examples = Some l.
Proof.
  split; [vm_compute; reflexivity|]. split; [vm_compute; reflexivity|].
  intros i e H.
  do 9 (destruct i as [|i];
        [injection H as <-; vm_compute;
         repeat split; eexists; split; reflexivity|]).
  destruct i; discriminate.
Qed.

Lemma own_examples_absent (k : JSString)
  (l : list (JSString * list JSString)) :
  ~ In k (map fst l) -> own_examples k l = None.
Proof.
  induction l as [|[k' v'] l IH]; intros H; [reflexivity|].
  simpl in *. destruct (str_eqb k k') eqn:E.
  - apply str_eqb_eq in E; subst. exfalso; apply H; now left.
  - apply IH; intros Hin; apply H; now right.
Qed.

Lemma existsb_str_eqb_absent (k : JSString) (l : list JSString) :
  ~ In k l -> existsb (str_eqb k) l = false.
Proof.
  induction l as [|x l IH]; intros H; [reflexivity|].
  simpl. destruct (str_eqb k x) eqn:E.
  - apply str_eqb_eq in E; subst. exfalso; apply H; now left.
  - apply IH; intros Hin; apply H; now right.
Qed.

(** For a string that is neither a category nor the name of a member of
    [Object.prototype] the lookup yields the empty array. *)
Lemma getCategoryExamples_unknown (category : JSString) :
  ~ In category CATEGORIAS_DESPESAS ->
  ~ In category Object_prototype_names ->
  getCategoryExamples category = ExampleArray [].
Proof.
  intros Hc Hp. unfold getCategoryExamples.
  rewrite own_examples_absent by exact Hc.
  now rewrite existsb_str_eqb_absent.
Qed.

(** C8, where the code leaves it.  [constructor] is no category, and the
    lookup [examples[category]] finds the member of that name that every
    object literal inherits: what comes back is that member, not the empty
    array. *)
Theorem getCategoryExamples_finds_inherited_member :
  ~ In (lit "constructor") CATEGORIAS_DESPESAS
  /\ getCategoryExamples (lit "constructor")
     = PrototypeMember (lit "constructor")
  /\ getCategoryExamples (lit "constructor") <> ExampleArray [].
Proof.
  split.
  - intros H. vm_compute in H.
    repeat (destruct H as [H|H]; [discriminate H|]). exact H.
  - split; [vm_compute; reflexivity|vm_compute; discriminate].
Qed.

(** ** The error middleware *)

Lemma includes_eq (p s : JSString) :
  includes p s
  = startsWith p s || match s with [] => false | _ :: r => includes p r end.
Proof. destruct s; reflexivity. Qed.

Lemma includes_occurs (p s : JSString) :
  includes p s = true <-> occurs p s.
Proof.
  split.
  - induction s as [|c s IH]; rewrite includes_eq; intros H;
      apply orb_true_iff in H as [H|H]; try discriminate.
    + apply startsWith_prefix in H. exists [], (skipn (List.length p) []).
      exact H.
    + apply startsWith_prefix in H.
      exists [], (skipn (List.length p) (c :: s)). exact H.
    + destruct (IH H) as (a & b & ->). now exists (c :: a), b.
  - intros (a & b & ->). induction a as [|c a IH]; rewrite includes_eq.
    + cbn [app]. now rewrite startsWith_app.
    + cbn [app]. rewrite IH. apply orb_true_r.
Qed.

(** X5.  An upload that is no PDF is answered 500 by every server.  The
    filter rejects every media type but [application/pdf] with one message;
    the middleware of the server that imports the agent looks for
    ["apenas arquivos PDF"] in the message to answer 400, but the message
    starts with a capital letter, so the error falls through to the 500
    answer like on the other servers. *)
Theorem upload_not_pdf_answered_500
  (getDocument : list N -> Result PDFDocument)
  (generateContent : Request -> Result JSString)
  (SyntaxError_message : JSString -> JSString)
  (GEMINI_API_KEY : option JSString) (processingTime timestamp : JSString)
  (mimetype : JSString) :
  str_eqb mimetype (lit "application/pdf") = false ->
  fileFilter mimetype = Throw apenas_pdf
  /\ post_extract_data getDocument generateContent SyntaxError_message
       GEMINI_API_KEY processingTime timestamp
       (Rejected (PlainError apenas_pdf))
     = {| response := internal_error (PlainError apenas_pdf); sent := [] |}
  /\ post_extract_data_agent generateContent SyntaxError_message
       GEMINI_API_KEY processingTime timestamp
       (Rejected (PlainError apenas_pdf))
     = {| response := internal_error (PlainError apenas_pdf); sent := [] |}
  /\ status (internal_error (PlainError apenas_pdf)) = 500%nat
  /\ get (lit "details") (body (internal_error (PlainError apenas_pdf)))
     = Some (JString apenas_pdf).
Proof.
  intros H. unfold fileFilter. rewrite H.
  assert (Hinc : includes (lit "apenas arquivos PDF") apenas_pdf = false)
    by (vm_compute; reflexivity).
  split; [reflexivity|]. split; [reflexivity|]. split.
  - unfold post_extract_data_agent, error_middleware_agent.
    cbn [is_limit_file_size error_message]. now rewrite Hinc.
  - split; [reflexivity|]. vm_compute. reflexivity.
Qed.

Lemma upload_not_pdf_answered_500_witness :
  fileFilter (lit "image/png") = Throw apenas_pdf
  /\ post_extract_data_agent (answers reply_outros) sample_message
       (Some (lit "key")) (lit "0.1s") (lit "2024-01-31T00:00:00.000Z")
       upload_not_pdf
     = {| response := internal_error (PlainError apenas_pdf); sent := [] |}.
Proof.
  destruct (upload_not_pdf_answered_500
              (fun _ => Ok short_document) (answers reply_outros)
              sample_message (Some (lit "key")) (lit "0.1s")
              (lit "2024-01-31T00:00:00.000Z") (lit "image/png") eq_refl)
    as (Hf & _ & Ha & _).
  split; [exact Hf|exact Ha].
Defined.

(** X6.  The error middleware answers 400 or 500 and nothing else.  On the
    servers with their own middleware it answers 400 exactly for multer's
    [LIMIT_FILE_SIZE]; on the server that imports the agent also for an
    error whose message holds ["apenas arquivos PDF"]; every other error
    gets 500 with its message as [details]. *)
Theorem error_middleware_answers (e : ThrownError) :
  (status (error_middleware e) = 400%nat <-> is_limit_file_size e = true)
  /\ (status (error_middleware_agent e) = 400%nat
      <-> is_limit_file_size e = true
          \/ occurs (lit "apenas arquivos PDF") (error_message e))
  /\ (is_limit_file_size e = true ->
      error_middleware e = too_large
      /\ error_middleware_agent e = too_large)
  /\ (status (error_middleware e) = 400%nat
      \/ error_middleware e = internal_error e)
  /\ (status (error_middleware_agent e) = 400%nat
      \/ error_middleware_agent e = internal_error e)
  /\ get (lit "details") (body (internal_error e))
     = Some (JString (error_message e)).
Proof.
  unfold error_middleware, error_middleware_agent.
  pose proof (includes_occurs (lit "apenas arquivos PDF") (error_message e))
    as Hinc.
  assert (Hdetails : get (lit "details") (body (internal_error e))
                     = Some (JString (error_message e)))
    by (vm_compute; reflexivity).
  destruct (is_limit_file_size e) eqn:El;
    destruct (includes (lit "apenas arquivos PDF") (error_message e)) eqn:Ei;
    cbn [status internal_error too_large];
    (split; [|split; [|split; [|split; [|split; [|exact Hdetails]]]]]).
  all: try (split; intros; reflexivity).
  all: try (intros; split; reflexivity).
  all: try (left; reflexivity).
  all: try (right; reflexivity).
  all: try (intros; discriminate).
  - split; [intros _; left; reflexivity|intros _; reflexivity].
  - split; [intros _; left; reflexivity|intros _; reflexivity].
  - split; [intros H; discriminate H|intros H; discriminate H].
  - split; [intros _; right; now apply Hinc|intros _; reflexivity].
  - split; [intros H; discriminate H|intros H; discriminate H].
  - split; [intros H; discriminate H|].
    intros [H|H]; [discriminate|]. apply Hinc in H. discriminate.
Qed.

(** ** The outcome of the handlers *)

Lemma trimStart_all_white (s : JSString) :
  forallb isWhiteSpace s = true -> trimStart s = [].
Proof.
  induction s as [|c s IH]; [reflexivity|].
  cbn [forallb trimStart]. intros H. apply andb_true_iff in H as [-> Hs].
  auto.
Qed.

Lemma trim_all_white (s : JSString) :
  forallb isWhiteSpace s = true -> trim s = [].
Proof.
  intros H. unfold trim, trimEnd. now rewrite (trimStart_all_white s H).
Qed.

Lemma read_pages_failing (texts : list (list JSString)) (m : JSString)
  (rest : PDFDocument) :
  forall fullText : JSString,
    read_pages (map Ok texts ++ Throw m :: rest) fullText = Throw m.
Proof.
  induction texts as [|items texts IH]; intros fullText; [reflexivity|].
  cbn [map app read_pages]. apply IH.
Qed.

(** X7.  Errors of PDF.js come back wrapped: when the document cannot be
    loaded, or when one of its first three pages cannot be read after the
    pages before it were, [extractTextFromPDF] throws the message of that
    error behind ["Falha na extração de texto do PDF: "]. *)
Theorem extractTextFromPDF_wraps_errors
  (getDocument : list N -> Result PDFDocument) (pdfBuffer : list N) :
  (forall m, getDocument pdfBuffer = Throw m ->
             extractTextFromPDF getDocument pdfBuffer
             = Throw (lit "Falha na extração de texto do PDF: " ++ m))
  /\ (forall pdf texts m rest,
        getDocument pdfBuffer = Ok pdf ->
        firstn 3 pdf = map Ok texts ++ Throw m :: rest ->
        extractTextFromPDF getDocument pdfBuffer
        = Throw (lit "Falha na extração de texto do PDF: " ++ m)).
Proof.
  split.
  - intros m H. unfold extractTextFromPDF. now rewrite H.
  - intros pdf texts m rest H Hp.
    rewrite (extractTextFromPDF_read _ _ _ H), Hp.
    now rewrite read_pages_failing.
Qed.

(** X8.  A PDF without text is turned away before any request: when the
    first three pages of the document hold only white space (no page at
    all, or pages without text items, as in a scan), the extracted text is
    empty, and the handler answers 500 with the message that the text is too
    short and sends nothing to the backend. *)
Theorem blank_pdf_turned_away
  (getDocument : list N -> Result PDFDocument)
  (generateContent : Request -> Result JSString)
  (SyntaxError_message : JSString -> JSString)
  (GEMINI_API_KEY : option JSString) (processingTime timestamp : JSString)
  (f : File) (pdf : PDFDocument) (texts : list (list JSString)) :
  key_missing GEMINI_API_KEY = false ->
  getDocument (buffer f) = Ok pdf ->
  firstn 3 pdf = map Ok texts ->
  forallb isWhiteSpace (pages_text texts) = true ->
  extractTextFromPDF getDocument (buffer f) = Ok []
  /\ extract_data getDocument generateContent SyntaxError_message
       GEMINI_API_KEY processingTime timestamp (Some f)
     = {| response := failure processingTime timestamp texto_muito_curto;
          sent := [] |}.
Proof.
  intros Hk Hd Hp Hw.
  assert (E : extractTextFromPDF getDocument (buffer f) = Ok []).
  { rewrite (extractTextFromPDF_read _ _ _ Hd), Hp, read_pages_loaded.
    cbn [app]. now rewrite trim_all_white. }
  split; [exact E|].
  unfold extract_data. now rewrite Hk, E.
Qed.

Lemma blank_pdf_turned_away_witness :
  extract_data (fun _ => Ok [Ok []; Ok [lit " "; lit "  "]])
    (answers reply_outros) sample_message (Some (lit "key")) (lit "0.1s")
    (lit "2024-01-31T00:00:00.000Z") (Some short_upload)
  = {| response :=
         failure (lit "0.1s") (lit "2024-01-31T00:00:00.000Z")
           texto_muito_curto;
       sent := [] |}.
Proof.
  apply (blank_pdf_turned_away
           (fun _ => Ok [Ok []; Ok [lit " "; lit "  "]])
           (answers reply_outros) sample_message (Some (lit "key"))
           (lit "0.1s") (lit "2024-01-31T00:00:00.000Z") short_upload
           [Ok []; Ok [lit " "; lit "  "]] [[]; [lit " "; lit "  "]]);
    reflexivity.
Defined.

Lemma trimStart_head (s r : JSString) (c : N) :
  trimStart s = c :: r -> isWhiteSpace c = false.
Proof.
  induction s as [|x s IH]; [discriminate|].
  cbn [trimStart]. destruct (isWhiteSpace x) eqn:E; [exact IH|].
  intros H; injection H as <- _. exact E.
Qed.

Lemma trim_head (s r : JSString) (c : N) :
  trim s = c :: r -> isWhiteSpace c = false.
Proof.
  unfold trim. intros H.
  destruct (trimEnd_split (trimStart s)) as (w & Hw & _).
  rewrite H in Hw. cbn [app] in Hw. now apply trimStart_head in Hw.
Qed.

Lemma trim_last (s r : JSString) (c : N) :
  trim s = r ++ [c] -> isWhiteSpace c = false.
Proof.
  unfold trim, trimEnd. intros H.
  apply (f_equal (@rev N)) in H.
  rewrite rev_involutive, rev_app_distr in H. cbn [rev app] in H.
  now apply trimStart_head in H.
Qed.

(** X9.  The text extracted from a PDF has no white space at either end,
    so the length the handler tests against 50 counts no padding. *)
Theorem extracted_text_trimmed
  (getDocument : list N -> Result PDFDocument) (pdfBuffer : list N)
  (text : JSString) :
  extractTextFromPDF getDocument pdfBuffer = Ok text ->
  trim text = text
  /\ (forall c r, text = c :: r -> isWhiteSpace c = false)
  /\ (forall r c, text = r ++ [c] -> isWhiteSpace c = false).
Proof.
  unfold extractTextFromPDF.
  destruct (getDocument pdfBuffer) as [pdf|m]; [|discriminate].
  destruct (extract_pages _ _ _) as [fullText|m]; [|discriminate].
  intros H; injection H as <-.
  split; [apply trim_idem|]. split.
  - intros c r E. now apply trim_head in E.
  - intros r c E. now apply trim_last in E.
Qed.

Lemma extracted_text_trimmed_witness :
  trim (lit "NOTA FISCAL") = lit "NOTA FISCAL"
  /\ (forall c r, lit "NOTA FISCAL" = c :: r -> isWhiteSpace c = false)
  /\ (forall r c, lit "NOTA FISCAL" = r ++ [c] -> isWhiteSpace c = false).
Proof.
  apply (extracted_text_trimmed (fun _ => Ok short_document) []).
  vm_compute. reflexivity.
Defined.

Lemma failure_fields (processingTime timestamp m : JSString) :
  status (failure processingTime timestamp m) = 500%nat
  /\ get (lit "success") (body (failure processingTime timestamp m))
     = Some (JBool false)
  /\ get (lit "error") (body (failure processingTime timestamp m))
     = Some (JString (lit "Erro ao processar o arquivo PDF."))
  /\ get (lit "details") (body (failure processingTime timestamp m))
     = Some (JString m)
  /\ get (lit "data") (body (failure processingTime timestamp m)) = None.
Proof.
  split; [|split; [|split; [|split]]]; vm_compute; reflexivity.
Qed.



(** X12.  Without the API key nothing is tried: when
    [GEMINI_API_KEY] is unset or empty, both handlers answer without
    loading the PDF and without calling the backend, 400 when no file was
    uploaded and 500 with the instructions for the key otherwise, whatever
    the collaborators would have done. *)
Theorem key_missing_stops_everything
  (getDocument getDocument' : list N -> Result PDFDocument)
  (generateContent generateContent' : Request -> Result JSString)
  (SyntaxError_message SyntaxError_message' : JSString -> JSString)
  (GEMINI_API_KEY : option JSString)
  (processingTime timestamp processingTime' timestamp' : JSString)
  (file : option File) :
  key_missing GEMINI_API_KEY = true ->
  let answer :=
    {| response := match file with None => no_file | Some _ => no_key end;
       sent := [] |} in
  extract_data getDocument generateContent SyntaxError_message
    GEMINI_API_KEY processingTime timestamp file = answer
  /\ extract_data getDocument' generateContent' SyntaxError_message'
       GEMINI_API_KEY processingTime' timestamp' file = answer
  /\ extract_data_pdf generateContent SyntaxError_message
       GEMINI_API_KEY processingTime timestamp file = answer
  /\ extract_data_pdf generateContent' SyntaxError_message'
       GEMINI_API_KEY processingTime' timestamp' file = answer.
Proof.
  intros Hk answer. subst answer. unfold extract_data, extract_data_pdf.
  rewrite Hk. destruct file; split; [|split; [|split]| |split; [|split]];
    reflexivity.
Qed.

Lemma key_missing_stops_everything_witness :
  extract_data (fun _ => Ok four_pages) (answers reply_outros) sample_message
    (Some []) (lit "0.1s") (lit "2024-01-31T00:00:00.000Z")
    (Some short_upload)
  = {| response := no_key; sent := [] |}.
Proof.
  destruct (key_missing_stops_everything
              (fun _ => Ok four_pages) (fun _ => Ok short_document)
              (answers reply_outros) (answers reply_cnpj)
              sample_message sample_message (Some [])
              (lit "0.1s") (lit "2024-01-31T00:00:00.000Z")
              (lit "0.2s") (lit "2024-02-01T00:00:00.000Z")
              (Some short_upload) eq_refl) as (H & _).
  exact H.
Defined.



Lemma own_examples_In (k : JSString) (v : list JSString)
  (l : list (JSString * list JSString)) :
  own_examples k l = Some v -> In k (map fst l).
Proof.
  induction l as [|[k' v'] l IH]; [discriminate|].
  simpl. destruct (str_eqb k k') eqn:E.
  - apply str_eqb_eq in E. intros _. now left.
  - intros H. right. now apply IH.
Qed.

Lemma examples_keys : map fst examples = CATEGORIAS_DESPESAS.
Proof. vm_compute; reflexivity. Qed.

Lemma examples_nonempty (k : JSString) (v : list JSString) :
  own_examples k examples = Some v -> v <> [].
Proof.
  unfold examples. cbn [own_examples].
  repeat match goal with
         | |- (if ?c then _ else _) = _ -> _ =>
             destruct c; [intros H; injection H as <-; discriminate|]
         end.
  discriminate.
Qed.

Lemma category_not_inherited (category : JSString) :
  In category CATEGORIAS_DESPESAS -> ~ In category Object_prototype_names.
Proof.
  intros Hc Hp.
  assert (E : existsb (fun c => existsb (str_eqb c) Object_prototype_names)
                CATEGORIAS_DESPESAS = false) by (vm_compute; reflexivity).
  assert (E' : existsb (fun c => existsb (str_eqb c) Object_prototype_names)
                 CATEGORIAS_DESPESAS = true).
  { apply existsb_exists. exists category. split; [exact Hc|].
    apply existsb_exists. exists category. split; [exact Hp|].
    apply str_eqb_refl. }
  rewrite E in E'. discriminate E'.
Qed.

(** X14.  What [getCategoryExamples] gives for every string: a category of
    the taxonomy, and nothing else, has a non-empty array of examples; the
    empty array comes back exactly for the strings that are neither a
    category nor the name of a member every object inherits; and what is
    left, a member of the prototype, comes back only under its own name. *)
Theorem getCategoryExamples_by_case (category : JSString) :
  (In category CATEGORIAS_DESPESAS <->
   exists l, getCategoryExamples category = ExampleArray l /\ l <> [])
  /\ (getCategoryExamples category = ExampleArray [] <->
      ~ In category CATEGORIAS_DESPESAS
      /\ ~ In category Object_prototype_names)
  /\ (forall inherited,
        getCategoryExamples category = PrototypeMember inherited <->
        inherited = category /\ In category Object_prototype_names).
Proof.
  unfold getCategoryExamples.
  destruct (own_examples category examples) as [l|] eqn:Eo.
  - assert (Hin : In category CATEGORIAS_DESPESAS).
    { rewrite <- examples_keys. exact (own_examples_In _ _ _ Eo). }
    assert (Hl : l <> []) by exact (examples_nonempty _ _ Eo).
    split; [|split].
    + split; [intros _; exists l; split; [reflexivity|exact Hl]|].
      intros _; exact Hin.
    + split.
      * intros H. injection H as ->. now contradiction Hl.
      * intros [H _]. contradiction.
    + intros inherited. split; [intros H; discriminate H|].
      intros [_ H]. exfalso.
      exact (category_not_inherited category Hin H).
  - assert (Hnot : ~ In category CATEGORIAS_DESPESAS).
    { intros Hin. rewrite <- examples_keys in Hin.
      apply in_map_iff in Hin as [[k v] [Ek Hin]]. simpl in Ek. subst k.
      assert (Hnd : NoDup (map fst examples)).
      { rewrite examples_keys. apply distinct_NoDup.
        vm_compute; reflexivity. }
      clear - Eo Hin Hnd. revert Eo Hin Hnd.
      generalize examples as ex.
      induction ex as [|[k' v'] ex IH]; [intros _ []|].
      simpl. destruct (str_eqb category k') eqn:E; [discriminate|].
      intros Eo [H|H] Hnd.
      - injection H as -> _. now rewrite str_eqb_refl in E.
      - inversion Hnd; subst. now apply IH. }
    destruct (existsb (str_eqb category) Object_prototype_names) eqn:Ep.
    + assert (Hp : In category Object_prototype_names).
      { apply existsb_exists in Ep as [x [Hx E]].
        apply str_eqb_eq in E. now subst x. }
      split; [|split].
      * split; [intros H; contradiction|].
        intros (l & H & _). discriminate H.
      * split; [intros H; discriminate H|]. intros [_ H]. contradiction.
      * intros inherited. split.
        -- intros H. injection H as <-. split; [reflexivity|exact Hp].
        -- intros [-> _]. reflexivity.
    + assert (Hp : ~ In category Object_prototype_names).
      { intros Hp.
        assert (E : existsb (str_eqb category) Object_prototype_names = true).
        { apply existsb_exists. exists category.
          split; [exact Hp|apply str_eqb_refl]. }
        rewrite E in Ep. discriminate Ep. }
      split; [|split].
      * split; [intros H; contradiction|].
        intros (l & H & Hl). injection H as <-. now contradiction Hl.
      * split; [intros _; split; assumption|reflexivity].
      * intros inherited. split; [intros H; discriminate H|].
        intros [_ H]. contradiction.
Qed.

(** X15.  [GET /test] and [GET /test-models] report the key the way the
    upload handlers check it: the flag [gemini_key_configured] of both
    [/test] routes and the [success] of [/test-models] are true exactly when
    an upload is not turned away for the missing key. *)
Theorem test_routes_report_key_check
  (getDocument : list N -> Result PDFDocument)
  (generateContent : Request -> Result JSString)
  (SyntaxError_message : JSString -> JSString)
  (GEMINI_API_KEY : option JSString)
  (processingTime timestamp now : JSString) (f : File) :
  let configured := negb (key_missing GEMINI_API_KEY) in
  get (lit "gemini_key_configured") (body (test_route GEMINI_API_KEY now))
  = Some (JBool configured)
  /\ get (lit "gemini_key_configured")
       (body (test_route_pdf GEMINI_API_KEY now))
     = Some (JBool configured)
  /\ get (lit "success") (body (test_models GEMINI_API_KEY))
     = Some (JBool configured)
  /\ (configured = false <->
      response
        (extract_data getDocument generateContent SyntaxError_message
           GEMINI_API_KEY processingTime timestamp (Some f)) = no_key)
  /\ (configured = false <->
      response
        (extract_data_pdf generateContent SyntaxError_message
           GEMINI_API_KEY processingTime timestamp (Some f)) = no_key).
Proof.
  intros configured. subst configured.
  split; [vm_compute; reflexivity|].
  split; [vm_compute; reflexivity|].
  split; [unfold test_models; destruct (key_missing GEMINI_API_KEY);
          vm_compute; reflexivity|].
  unfold extract_data, extract_data_pdf.
  destruct (key_missing GEMINI_API_KEY); cbn [negb response].
  - split; split; reflexivity.
  - assert (Hf : forall m,
               failure processingTime timestamp m <> no_key).
    { intros m H. apply (f_equal (fun r => get (lit "details") (body r))) in H.
      destruct (failure_fields processingTime timestamp m)
        as (_ & _ & _ & Hd & _).
      rewrite Hd in H. vm_compute in H. discriminate H. }
    split; (split; [intros H; discriminate H|]).
    + destruct (extractTextFromPDF getDocument (buffer f)) as [text|m].
      * destruct (_ || _); cbn [response].
        -- intros H. exfalso. exact (Hf _ H).
        -- destruct (processWithGemini _ _ _).
           ++ intros H. apply (f_equal status) in H. discriminate H.
           ++ intros H. exfalso. exact (Hf _ H).
      * cbn [response]. intros H. exfalso. exact (Hf _ H).
    + destruct (processPDFWithGemini _ _ _).
      * intros H. apply (f_equal status) in H. discriminate H.
      * intros H. exfalso. exact (Hf _ H).
Qed.

Lemma base64_digit_inj (i j : N) :
  i < 64 -> j < 64 -> base64_digit i = base64_digit j -> i = j.
Proof.
  unfold base64_digit. intros Hi Hj.
  destruct (N.ltb_spec i 26), (N.ltb_spec j 26),
    (N.ltb_spec i 52), (N.ltb_spec j 52),
    (N.ltb_spec i 62), (N.ltb_spec j 62),
    (N.eqb_spec i 62), (N.eqb_spec j 62); lia.
Qed.

Lemma base64_digit_no_pad (i : N) : i < 64 -> base64_digit i <> 61.
Proof.
  unfold base64_digit. intros Hi.
  destruct (N.ltb_spec i 26), (N.ltb_spec i 52), (N.ltb_spec i 62),
    (N.eqb_spec i 62); lia.
Qed.

Lemma sextets (a b c : N) :
  a < 256 -> b < 256 -> c < 256 ->
  a / 4 < 64 /\ (a mod 4) * 16 + b / 16 < 64
  /\ (b mod 16) * 4 + c / 64 < 64 /\ c mod 64 < 64
  /\ (a mod 4) * 16 < 64 /\ (b mod 16) * 4 < 64.
Proof.
  intros Ha Hb Hc.
  pose proof (N.mod_lt a 4). pose proof (N.mod_lt b 16).
  pose proof (N.mod_lt c 64).
  assert (a / 4 < 64) by (apply N.Div0.div_lt_upper_bound; lia).
  assert (b / 16 < 16) by (apply N.Div0.div_lt_upper_bound; lia).
  assert (c / 64 < 4) by (apply N.Div0.div_lt_upper_bound; lia).
  lia.
Qed.

Lemma unsextets (a b c a' b' c' : N) :
  a / 4 = a' / 4 ->
  (a mod 4) * 16 + b / 16 = (a' mod 4) * 16 + b' / 16 ->
  (b mod 16) * 4 + c / 64 = (b' mod 16) * 4 + c' / 64 ->
  c mod 64 = c' mod 64 ->
  b < 256 -> b' < 256 -> c < 256 -> c' < 256 ->
  a = a' /\ b = b' /\ c = c'.
Proof.
  intros H1 H2 H3 H4 Hb Hb' Hc Hc'.
  pose proof (N.div_mod a 4). pose proof (N.div_mod a' 4).
  pose proof (N.div_mod b 16). pose proof (N.div_mod b' 16).
  pose proof (N.div_mod c 64). pose proof (N.div_mod c' 64).
  pose proof (N.mod_lt a 4). pose proof (N.mod_lt a' 4).
  pose proof (N.mod_lt b 16). pose proof (N.mod_lt b' 16).
  pose proof (N.mod_lt c 64). pose proof (N.mod_lt c' 64).
  assert (b / 16 < 16) by (apply N.Div0.div_lt_upper_bound; lia).
  assert (b' / 16 < 16) by (apply N.Div0.div_lt_upper_bound; lia).
  assert (c / 64 < 4) by (apply N.Div0.div_lt_upper_bound; lia).
  assert (c' / 64 < 4) by (apply N.Div0.div_lt_upper_bound; lia).
  lia.
Qed.

Lemma base64_inj_upto (n : nat) (bs bs' : list N) :
  (List.length bs <= n)%nat -> octets bs -> octets bs' ->
  base64 bs = base64 bs' -> bs = bs'.
Proof.
  revert bs bs'. induction n as [|n IH]; intros bs bs' Hn Ho Ho' E.
  - destruct bs; [|simpl in Hn; lia].
    destruct bs' as [|a' [|b' [|c' r']]]; [reflexivity|discriminate E..].
  - destruct bs as [|a [|b [|c r]]].
    + destruct bs' as [|a' [|b' [|c' r']]]; [reflexivity|discriminate E..].
    + inversion Ho as [|? ? Ha _]; subst.
      destruct bs' as [|a' [|b' [|c' r']]]; [discriminate E| | |].
      * inversion Ho' as [|? ? Ha' _]; subst.
        destruct (sextets a 0 0) as (S1 & _ & _ & _ & S2 & _); [lia..|].
        destruct (sextets a' 0 0) as (S1' & _ & _ & _ & S2' & _); [lia..|].
        cbn [base64] in E. injection E as E1 E2.
        apply base64_digit_inj in E1; [|assumption..].
        apply base64_digit_inj in E2; [|assumption..].
        pose proof (N.div_mod a 4). pose proof (N.div_mod a' 4).
        f_equal. lia.
      * inversion Ho' as [|? ? Ha' Ho'']; subst.
        inversion Ho'' as [|? ? Hb' _]; subst.
        destruct (sextets a' b' 0) as (_ & _ & _ & _ & _ & S); [lia..|].
        cbn [base64] in E. injection E as _ _ E3.
        symmetry in E3. now apply base64_digit_no_pad in E3.
      * inversion Ho' as [|? ? Ha' Ho'']; subst.
        inversion Ho'' as [|? ? Hb' Ho3]; subst.
        inversion Ho3 as [|? ? Hc' _]; subst.
        destruct (sextets a' b' c') as (_ & _ & S & _); [lia..|].
        cbn [base64] in E. injection E as _ _ E3.
        symmetry in E3. now apply base64_digit_no_pad in E3.
    + inversion Ho as [|? ? Ha Ho2]; subst.
      inversion Ho2 as [|? ? Hb _]; subst.
      destruct (sextets a b 0) as (S1 & S2 & _ & _ & _ & S3); [lia..|].
      destruct bs' as [|a' [|b' [|c' r']]]; [discriminate E| | |].
      * cbn [base64] in E. injection E as _ _ E3.
        now apply base64_digit_no_pad in E3.
      * inversion Ho' as [|? ? Ha' Ho'']; subst.
        inversion Ho'' as [|? ? Hb' _]; subst.
        destruct (sextets a' b' 0) as (S1' & S2' & _ & _ & _ & S3');
          [lia..|].
        cbn [base64] in E. injection E as E1 E2 E3.
        apply base64_digit_inj in E1; [|assumption..].
        apply base64_digit_inj in E2; [|assumption..].
        apply base64_digit_inj in E3; [|assumption..].
        destruct (unsextets a b 0 a' b' 0) as (-> & -> & _);
          [assumption|assumption|simpl; lia|reflexivity|lia..|reflexivity].
      * inversion Ho' as [|? ? Ha' Ho'']; subst.
        inversion Ho'' as [|? ? Hb' Ho3]; subst.
        inversion Ho3 as [|? ? Hc' _]; subst.
        destruct (sextets a' b' c') as (_ & _ & _ & S & _); [lia..|].
        cbn [base64] in E. injection E as _ _ _ E4 _.
        symmetry in E4. now apply base64_digit_no_pad in E4.
    + inversion Ho as [|? ? Ha Ho2]; subst.
      inversion Ho2 as [|? ? Hb Ho3]; subst.
      inversion Ho3 as [|? ? Hc Hr]; subst.
      destruct (sextets a b c) as (S1 & S2 & S3 & S4 & _); [lia..|].
      destruct bs' as [|a' [|b' [|c' r']]]; [discriminate E| | |].
      * cbn [base64] in E. injection E as _ _ E3.
        now apply base64_digit_no_pad in E3.
      * cbn [base64] in E. injection E as _ _ _ E4 _.
        now apply base64_digit_no_pad in E4.
      * inversion Ho' as [|? ? Ha' Ho'']; subst.
        inversion Ho'' as [|? ? Hb' Ho3']; subst.
        inversion Ho3' as [|? ? Hc' Hr']; subst.
        destruct (sextets a' b' c') as (S1' & S2' & S3' & S4' & _);
          [lia..|].
        cbn [base64] in E. injection E as E1 E2 E3 E4 E5.
        apply base64_digit_inj in E1; [|assumption..].
        apply base64_digit_inj in E2; [|assumption..].
        apply base64_digit_inj in E3; [|assumption..].
        apply base64_digit_inj in E4; [|assumption..].
        destruct (unsextets a b c a' b' c') as (-> & -> & ->);
          [assumption..|].
        do 3 f_equal. apply IH; [simpl in Hn; lia|assumption..].
Qed.

Lemma prompt_text_inj (t t' : JSString) :
  prompt_text t = prompt_text t' -> t = t'.
Proof.
  unfold prompt_text. intros H.
  apply app_inv_head in H. now apply app_inv_tail in H.
Qed.

Lemma text_part_inj (m p p' : JSString) :
  {| model := m; contents := [TextPart p] |}
  = {| model := m; contents := [TextPart p'] |} ->
  p = p'.
Proof. intros H. now injection H as H. Qed.

Lemma inline_data_inj (m p mime d d' : JSString) :
  {| model := m; contents := [TextPart p; InlineData d mime] |}
  = {| model := m; contents := [TextPart p; InlineData d' mime] |} ->
  d = d'.
Proof. intros H. now injection H as H. Qed.

(** X16.  The request carries the whole input, for both ways of asking the
    backend: two extracted texts that give the same request are the same
    text, and two uploads (of bytes) that give the same request are the same
    bytes.  Nothing of the text or of the PDF is cut off or left out on the
    way into the request. *)
Theorem request_determines_input :
  (forall text text' : JSString,
     text_request text = text_request text' -> text = text')
  /\ (forall pdfBuffer pdfBuffer' : list N,
        octets pdfBuffer -> octets pdfBuffer' ->
        pdf_request pdfBuffer = pdf_request pdfBuffer' ->
        pdfBuffer = pdfBuffer').
Proof.
  split.
  - intros text text' H. apply prompt_text_inj.
    exact (text_part_inj _ _ _ H).
  - intros b b' Ho Ho' H. unfold pdf_request in H.
    apply inline_data_inj in H.
    exact (base64_inj_upto (List.length b) b b' (Nat.le_refl _) Ho Ho' H).
Qed.

Lemma erro_not_sucesso (x : JSString) : lit "Erro: " ++ x <> sucesso.
Proof.
  intros H. apply (f_equal (hd 0)) in H. vm_compute in H. discriminate H.
Qed.

Lemma sem_conexao_not_sucesso : sem_conexao <> sucesso.
Proof. intros H. vm_compute in H. discriminate H. Qed.

Lemma erro_starts (Number_toString : Q -> JSString) (data : json)
  (m : JSString) :
  erro Number_toString data = Some m -> m <> sucesso.
Proof.
  unfold erro. destruct data; try discriminate;
    intros H; injection H as <-; apply erro_not_sucesso.
Qed.

(** X17.  One click with a file chosen, from the click to the end of the
    handler: the file is posted, the button is enabled again whatever came
    back, and the page tells success exactly when a response that is [ok]
    was read as JSON.  Only then is the result replaced and shown; in every
    other case the result area is left as it was, so a result shown before
    stays on display beside the error message. *)
Theorem click_shows_what_came_back
  (JSON_stringify : json -> JSString) (Number_toString : Q -> JSString)
  (fetched : Fetched) (p : Page) (file : File) (files : list File) :
  fileInput_files p = file :: files ->
  let p' := click JSON_stringify Number_toString fetched p in
  extractButton_disabled p' = false
  /\ posted p' = posted p ++ [file]
  /\ alerts p' = alerts p
  /\ (messageP p' = sucesso <->
      exists data, fetched = Received true (Some data))
  /\ (forall data,
        fetched = Received true (Some data) ->
        jsonOutput p' = JSON_stringify data
        /\ resultContainer_display p' = lit "block")
  /\ ((forall data, fetched <> Received true (Some data)) ->
      jsonOutput p' = jsonOutput p
      /\ resultContainer_display p' = resultContainer_display p).
Proof.
  intros Hf p'. subst p'. unfold click, click_begin. rewrite Hf.
  split; [reflexivity|].
  split; [destruct fetched as [|[] [data|]]; try reflexivity;
          unfold click_end; destruct (erro _ _); reflexivity|].
  split; [destruct fetched as [|[] [data|]]; try reflexivity;
          unfold click_end; destruct (erro _ _); reflexivity|].
  destruct fetched as [|[] [data|]].
  - split; [split|split].
    + intros H. vm_compute in H. discriminate H.
    + intros [data H]. discriminate H.
    + intros data H. discriminate H.
    + intros _. split; reflexivity.
  - split; [split|split].
    + intros _. now exists data.
    + intros _. vm_compute. reflexivity.
    + intros data' H. injection H as <-.
      split; vm_compute; reflexivity.
    + intros H. now contradiction (H data).
  - split; [split|split].
    + intros H. vm_compute in H. discriminate H.
    + intros [data H]. discriminate H.
    + intros data H. discriminate H.
    + intros _. split; reflexivity.
  - split; [split|split].
    + unfold click_end.
      destruct (erro Number_toString data) as [m|] eqn:E.
      * intros H.
        assert (Hm : m = sucesso) by exact H.
        now apply (erro_starts _ _ _ E) in Hm.
      * intros H. vm_compute in H. discriminate H.
    + intros [data' H]. discriminate H.
    + intros data' H. discriminate H.
    + intros _. unfold click_end.
      destruct (erro Number_toString data); split; reflexivity.
  - split; [split|split].
    + intros H. vm_compute in H. discriminate H.
    + intros [data H]. discriminate H.
    + intros data H. discriminate H.
    + intros _. split; reflexivity.
Qed.

Lemma click_shows_what_came_back_witness :
  let p' :=
    click sample_stringify sample_number (Received false (Some JNull))
      (change [short_upload]
         (click sample_stringify sample_number
            (Received true (Some (JObject [])))
            (change [short_upload] loaded_page))) in
  extractButton_disabled p' = false
  /\ messageP p' = sem_conexao
  /\ resultContainer_display p' = lit "none".
Proof.
  destruct (click_shows_what_came_back sample_stringify sample_number
              (Received false (Some JNull))
              (change [short_upload]
                 (click sample_stringify sample_number
                    (Received true (Some (JObject [])))
                    (change [short_upload] loaded_page)))
              short_upload [] eq_refl) as (H & _).
  split; [exact H|]. split; vm_compute; reflexivity.
Defined.

Lemma run_snoc (JSON_stringify : json -> JSString)
  (Number_toString : Q -> JSString) (events : list Event) (e : Event)
  (p : Page) :
  run JSON_stringify Number_toString (events ++ [e]) p
  = step JSON_stringify Number_toString
      (run JSON_stringify Number_toString events p) e.
Proof. unfold run. now rewrite fold_left_app. Qed.

(** X18.  Over any sequence of events, with whatever comes between a click
    and the end of its request: on a page that starts with the result area
    hidden, the area is hidden or shown, and whenever it is shown the text
    in it is the JSON of a response that came back [ok] during the run. *)
Theorem shown_result_came_back_ok
  (JSON_stringify : json -> JSString) (Number_toString : Q -> JSString)
  (events : list Event) (p : Page) :
  resultContainer_display p = lit "none" ->
  let p' := run JSON_stringify Number_toString events p in
  resultContainer_display p' = lit "none"
  \/ (resultContainer_display p' = lit "block"
      /\ exists data,
           In (Settled (Received true (Some data))) events
           /\ jsonOutput p' = JSON_stringify data).
Proof.
  intros H0 p'. subst p'.
  induction events as [|e events IH] using rev_ind; [now left|].
  rewrite run_snoc.
  set (q := run JSON_stringify Number_toString events p) in *.
  assert (keep : forall q' : Page,
             resultContainer_display q' = resultContainer_display q ->
             jsonOutput q' = jsonOutput q ->
             resultContainer_display q' = lit "none"
             \/ (resultContainer_display q' = lit "block"
                 /\ exists data,
                      In (Settled (Received true (Some data)))
                        (events ++ [e])
                      /\ jsonOutput q' = JSON_stringify data)).
  { intros q' Hd Hj. rewrite Hd, Hj.
    destruct IH as [IH|(IH & data & Hin & Hj')]; [now left|right].
    split; [exact IH|]. exists data. split; [|exact Hj'].
    apply in_or_app. now left. }
  destruct e as [files| |fetched|granted]; cbn [step].
  - left. vm_compute. reflexivity.
  - destruct (extractButton_disabled q); [now apply keep|].
    unfold click_begin. destruct (fileInput_files q); now apply keep.
  - destruct fetched as [|[] [data|]];
      try (now apply keep).
    + right. split; [vm_compute; reflexivity|].
      exists data. split; [|reflexivity].
      apply in_or_app. right. now left.
    + unfold click_end. destruct (erro Number_toString data);
        now apply keep.
  - unfold copy. destruct granted; now apply keep.
Qed.

Lemma shown_result_came_back_ok_witness :
  let p' :=
    run sample_stringify sample_number
      [Change [short_upload]; Click; Change [];
       Settled (Received true (Some (JObject [])))] loaded_page in
  resultContainer_display p' = lit "none"
  \/ (resultContainer_display p' = lit "block"
      /\ exists data,
           In (Settled (Received true (Some data)))
             [Change [short_upload]; Click; Change [];
              Settled (Received true (Some (JObject [])))]
           /\ jsonOutput p' = sample_stringify data).
Proof.
  exact (shown_result_came_back_ok sample_stringify sample_number
           [Change [short_upload]; Click; Change [];
            Settled (Received true (Some (JObject [])))]
           loaded_page eq_refl).
Defined.

(** ** The page and the server *)

Ltac shown_error e :=
  split;
  [ intros H; discriminate H
  | intros _; exists e;
    split; [vm_compute; intuition reflexivity|];
    split; [vm_compute; reflexivity|];
    split; [vm_compute; reflexivity|];
    split; vm_compute; reflexivity ].

(** X19.  What the user is shown for an answer of the text-extraction
    server.  An answer of status 200 is shown as the result, with the
    message of success.  For every other answer the page shows ["Erro: "]
    and the [error] text of the answer, one of five fixed texts, and leaves
    the result area as it was: the [details] of a failure, which name its
    cause, never reach the page. *)
Theorem page_shows_error_without_details
  (getDocument : list N -> Result PDFDocument)
  (generateContent : Request -> Result JSString)
  (SyntaxError_message : JSString -> JSString)
  (GEMINI_API_KEY : option JSString) (processingTime timestamp : JSString)
  (JSON_stringify : json -> JSString) (Number_toString : Q -> JSString)
  (u : Upload) (p : Page) :
  let answer :=
    response
      (post_extract_data getDocument generateContent SyntaxError_message
         GEMINI_API_KEY processingTime timestamp u) in
  let p' := click_end JSON_stringify Number_toString (delivered answer) p in
  (status answer = 200%nat ->
   messageP p' = sucesso
   /\ jsonOutput p' = JSON_stringify (body answer)
   /\ resultContainer_display p' = lit "block")
  /\ (status answer <> 200%nat ->
      exists e,
        In e error_texts
        /\ get (lit "error") (body answer) = Some (JString e)
        /\ messageP p' = lit "Erro: " ++ e
        /\ jsonOutput p' = jsonOutput p
        /\ resultContainer_display p' = resultContainer_display p).
Proof.
  intros answer p'. subst answer p'. unfold post_extract_data.
  destruct u as [file|e].
  - unfold extract_data. destruct file as [f|].
    2:{ cbn [response].
        shown_error (lit "Nenhum arquivo PDF foi enviado."). }
    destruct (key_missing GEMINI_API_KEY).
    { cbn [response].
      shown_error (lit "Chave da API do Google Gemini não configurada."). }
    destruct (extractTextFromPDF getDocument (buffer f)) as [text|m].
    2:{ cbn [response].
        shown_error (lit "Erro ao processar o arquivo PDF."). }
    destruct (_ || _).
    { cbn [response].
      shown_error (lit "Erro ao processar o arquivo PDF."). }
    cbn [response].
    destruct (processWithGemini generateContent SyntaxError_message text)
      as [data|m].
    + split.
      * intros _. split; [vm_compute; reflexivity|].
        split; vm_compute; reflexivity.
      * intros H. now contradiction H.
    + shown_error (lit "Erro ao processar o arquivo PDF.").
  - cbn [response]. unfold error_middleware.
    destruct (is_limit_file_size e).
    + shown_error
        (lit "Arquivo muito grande. Máximo 15MB permitido para PDFs.").
    + shown_error (lit "Erro interno do servidor").
Qed.
